(** * Markenz audit tools: determinism audit and Phase 0 replay audit

    A shallow embedding of [tools/audits/determinism_audit.py],
    [tools/audits/replay_audit.py] and [tools/audits/determinism_guard.py],
    and the properties of the replay, hash-chain and comparison steps that
    they implement.

    Conventions of the embedding:
    - a Python [int] is a [Z];
    - a Python [str] is a [string] holding its UTF-8 text, so that
      [.encode()] is the list of its bytes and the concatenation done by an
      f-string is [+:+]; its characters are the groups of bytes that UTF-8
      makes of them, and [len] and slices count characters; a [str] without
      a UTF-8 text (one that holds half of a surrogate pair) is not
      modelled, and standard output takes every text;
    - a Python [bytes] is a [list byte];
    - [hashlib.sha256] is the function of FIPS 180-4, written out below;
    - the events file of the replay audit can hold any JSON text: module
      [Json] has the values that [json.load] returns and the operations of
      Python that the audit applies to them, with the exceptions that they
      raise, and module [Replay] embeds the audit over these values.  Module
      [ReplayAudit] is the same audit on a file that has the types the tool
      expects (objects with an integer tick and string hashes); on such a
      file the two agree. *)

From Stdlib Require Import ZArith List Ascii String Strings.Byte DecimalString Lia.
From Stdlib Require Import SpecFloat.
From stdpp Require Import gmap strings list.
Import ListNotations.

(** ** SHA-256 (FIPS 180-4), the digest behind [hashlib.sha256] *)

Module Sha256.
Local Open Scope Z_scope.

(** Words are 32-bit: a [Z] kept in [0, 2^32) by [wrap]. *)
Definition wrap (x : Z) : Z := x mod 2 ^ 32.
Definition add32 (x y : Z) : Z := wrap (x + y).
Definition rotr (n x : Z) : Z :=
  Z.lor (Z.shiftr x n) (wrap (Z.shiftl x (32 - n))).
Definition not32 (x : Z) : Z := Z.lxor x 0xffffffff.

Definition Ch (x y z : Z) : Z := Z.lxor (Z.land x y) (Z.land (not32 x) z).
Definition Maj (x y z : Z) : Z :=
  Z.lxor (Z.lxor (Z.land x y) (Z.land x z)) (Z.land y z).
Definition Sigma0 (x : Z) : Z := Z.lxor (Z.lxor (rotr 2 x) (rotr 13 x)) (rotr 22 x).
Definition Sigma1 (x : Z) : Z := Z.lxor (Z.lxor (rotr 6 x) (rotr 11 x)) (rotr 25 x).
Definition sigma0 (x : Z) : Z := Z.lxor (Z.lxor (rotr 7 x) (rotr 18 x)) (Z.shiftr x 3).
Definition sigma1 (x : Z) : Z := Z.lxor (Z.lxor (rotr 17 x) (rotr 19 x)) (Z.shiftr x 10).

(** The constants are taken from the primes, as FIPS 180-4 defines them:
    [K] holds the first 32 bits of the fractional parts of the cube roots of
    the first 64 primes, [H0] those of the square roots of the first 8. *)
Definition is_prime (n : nat) : bool :=
  forallb (fun d => negb (Nat.eqb (n mod d) 0)) (seq 2 (n - 2)).

Definition primes (bound : nat) : list Z :=
  map Z.of_nat (List.filter is_prime (seq 2 bound)).

(** The integer cube root of [n], found bit by bit from bit [bits - 1]. *)
Definition cbrt (bits : nat) (n : Z) : Z :=
  fold_left
    (fun r b => let r' := r + 2 ^ Z.of_nat b in if r' * r' * r' <=? n then r' else r)
    (rev (seq 0 bits)) 0.

Definition K : list Z :=
  Eval vm_compute in map (fun p => wrap (cbrt 40 (p * 2 ^ 96))) (primes 310).

Definition H0 : list Z :=
  Eval vm_compute in map (fun p => wrap (Z.sqrt (p * 2 ^ 64))) (primes 18).

(** Padding: the byte 0x80, zero bytes up to 56 modulo 64, then the length
    of the message in bits as a 64-bit big-endian integer. *)
Definition be_bytes (n : nat) (x : Z) : list Z :=
  map (fun i => Z.land (Z.shiftr x (8 * Z.of_nat i)) 0xff) (rev (seq 0 n)).

Definition pad (msg : list Z) : list Z :=
  let len := Z.of_nat (length msg) in
  let zeros := Z.to_nat ((55 - len) mod 64) in
  msg ++ [0x80] ++ repeat 0 zeros ++ be_bytes 8 (8 * len).

(** Big-endian words of a byte sequence, four bytes at a time. *)
Fixpoint be_words (bs : list Z) : list Z :=
  match bs with
  | b0 :: b1 :: b2 :: b3 :: rest =>
      (Z.shiftl b0 24 + Z.shiftl b1 16 + Z.shiftl b2 8 + b3) :: be_words rest
  | _ => []
  end.

(** The message schedule, latest word first: [rw] holds W(t-1), W(t-2), ... *)
Fixpoint schedule (n : nat) (rw : list Z) : list Z :=
  match n with
  | O => rw
  | S n' =>
      let w := add32 (add32 (sigma1 (nth 1 rw 0)) (nth 6 rw 0))
                     (add32 (sigma0 (nth 14 rw 0)) (nth 15 rw 0)) in
      schedule n' (w :: rw)
  end.

Record regs := Regs { ra : Z; rb : Z; rc : Z; rd : Z; re : Z; rf : Z; rg : Z; rh : Z }.

Definition round (s : regs) (kw : Z * Z) : regs :=
  let t1 := add32 (add32 (add32 (add32 (rh s) (Sigma1 (re s))) (Ch (re s) (rf s) (rg s)))
                         (fst kw)) (snd kw) in
  let t2 := add32 (Sigma0 (ra s)) (Maj (ra s) (rb s) (rc s)) in
  Regs (add32 t1 t2) (ra s) (rb s) (rc s) (add32 (rd s) t1) (re s) (rf s) (rg s).

Definition regs_of (h : list Z) : regs :=
  Regs (nth 0 h 0) (nth 1 h 0) (nth 2 h 0) (nth 3 h 0)
       (nth 4 h 0) (nth 5 h 0) (nth 6 h 0) (nth 7 h 0).

Definition compress (h : list Z) (block : list Z) : list Z :=
  let w := rev (schedule 48 (rev (be_words block))) in
  let s := fold_left round (combine K w) (regs_of h) in
  zip_with add32 h [ra s; rb s; rc s; rd s; re s; rf s; rg s; rh s].

Fixpoint blocks (n : nat) (h : list Z) (bs : list Z) : list Z :=
  match n with
  | O => h
  | S n' => blocks n' (compress h (firstn 64 bs)) (skipn 64 bs)
  end.

Definition digest_Z (msg : list Z) : list Z :=
  let p := pad msg in
  flat_map (be_bytes 4) (blocks (length p / 64)%nat H0 p).

Definition Z_of_byte (b : byte) : Z := Z.of_N (Byte.to_N b).
Definition byte_of_Z (z : Z) : byte :=
  match Byte.of_N (Z.to_N z) with
  | Some b => b
  | None => x00
  end.

Definition sha256 (msg : list byte) : list byte :=
  map byte_of_Z (digest_Z (map Z_of_byte msg)).

End Sha256.

Definition sha256 : list byte → list byte := Sha256.sha256.

(** ** Python text and bytes primitives used by the tools *)

Module Py.
Local Open Scope string_scope.

(** [str(n)] and [f"{n}"] for an [int]: decimal digits, a leading [-] when
    negative. *)
Definition str_int (n : Z) : string := NilZero.string_of_int (Z.to_int n).

(** [s.encode()]: the UTF-8 bytes of the text. *)
Definition encode (s : string) : list byte := list_byte_of_string s.

Definition hexdigit (n : N) : ascii :=
  match String.get (N.to_nat n) "0123456789abcdef" with
  | Some c => c
  | None => "0"%char
  end.

Definition hex_byte (b : byte) : string :=
  let n := Byte.to_N b in
  String (hexdigit (n / 16)) (String (hexdigit (n mod 16)) "").

(** [bs.hex()]: two lowercase hexadecimal digits per byte. *)
Definition hex (bs : list byte) : string :=
  fold_right (fun b s => hex_byte b +:+ s) "" bs.

(** Reading [hex] back, one byte from two digits. *)
Definition unhexdigit (c : ascii) : N :=
  let n := N_of_ascii c in
  if (n <? 58)%N then (n - 48)%N else (n - 87)%N.

Fixpoint unhex (s : string) : list byte :=
  match s with
  | String c1 (String c2 rest) =>
      match Byte.of_N (unhexdigit c1 * 16 + unhexdigit c2) with
      | Some b => b :: unhex rest
      | None => []
      end
  | _ => []
  end.

Definition squote : ascii := "'"%char.
Definition dquote : ascii := "034"%char.
Definition backslash : ascii := "\"%char.

(** One byte of [repr(bs)], as CPython's [bytes.__repr__] writes it. *)
Definition repr_byte (quote : ascii) (b : byte) : string :=
  let c := ascii_of_byte b in
  let n := Byte.to_N b in
  if Ascii.eqb c quote || Ascii.eqb c backslash then String backslash (String c "")
  else if (n =? 9)%N then String backslash "t"
  else if (n =? 10)%N then String backslash "n"
  else if (n =? 13)%N then String backslash "r"
  else if (n <? 32)%N || (127 <=? n)%N then String backslash (String "x" (hex_byte b))
  else String c "".

(** [repr(bs)], which is also what [f"{bs}"] and [str(bs)] give for a
    [bytes] value: [b'...'], with double quotes instead when the bytes hold
    a single quote and no double quote. *)
Definition bytes_repr (bs : list byte) : string :=
  let has c := existsb (fun b => Ascii.eqb (ascii_of_byte b) c) bs in
  let quote := if has squote && negb (has dquote) then dquote else squote in
  String "b" (String quote
    (fold_right (fun b s => repr_byte quote b +:+ s) (String quote "") bs)).

(** A byte of the form [10xxxxxx], which continues a character in UTF-8. *)
Definition is_continuation (c : ascii) : bool :=
  let n := N_of_ascii c in (128 <=? n)%N && (n <? 192)%N.

(** The text goes on inside a character. *)
Definition continues (s : string) : bool :=
  match s with
  | String c _ => is_continuation c
  | EmptyString => false
  end.

(** The characters of a [str], each as the text of its UTF-8 bytes: a byte
    starts a character unless it is a continuation byte. *)
Fixpoint chars (s : string) : list string :=
  match s with
  | EmptyString => []
  | String c rest =>
      match chars rest with
      | ch :: more =>
          if continues rest then String c ch :: more
          else String c EmptyString :: ch :: more
      | [] => [String c EmptyString]
      end
  end.

(** [len(s)] on a [str]: the number of its characters. *)
Definition len (s : string) : nat := length (chars s).

(** [s[:n]] on a [str]: its first [n] characters. *)
Definition slice_to (n : nat) (s : string) : string :=
  String.concat "" (take n (chars s)).

End Py.

(** ** determinism_audit.py *)

Module DeterminismAudit.
Import Py.

(** A row of [input_events], as [load_event_log] selects it.  [payload]
    and [created_at] are held as the text that an f-string gives them. *)
Module Event.
Record t := Make
    { tick : Z; event_type : string; payload : string; created_at : string }.
End Event.

(** A row of [hash_checkpoints], as [load_hash_checkpoints] selects it. *)
Module Checkpoint.
Record t := Make
    { tick : Z; world_hash : list byte; prev_hash : list byte;
      verified : bool; created_at : string }.
End Checkpoint.

(** [self]: the fields set by [__init__]; [conn] is [None] until
    [connect] has run. *)
Record DeterminismAuditor := Auditor
  { db_url : string; seed : Z; conn : option string }.

(** The [universe_state] dictionary of [replay_deterministically]. *)
Module Universe.
Record t := Make
    { tick : Z; agents : gmap string string;
      world_hash : list byte; rng_state : list byte }.
End Universe.

(** The variables live across the iterations of the replay loop: the
    dictionary, the local [rng_state] and the list [replay_hashes]. *)
Record replay_vars := ReplayVars
  { universe_state : Universe.t;
    rng_state : list byte;
    replay_hashes : list (Z * string) }.

(** The body of [for event in events]. *)
Definition replay_body (v : replay_vars) (event : Event.t) : replay_vars :=
  let u := universe_state v in
  (* universe_state['tick'] = event['tick'] *)
  let u := Universe.Make (Event.tick event) (Universe.agents u)
             (Universe.world_hash u) (Universe.rng_state u) in
  let event_hash :=
    sha256 (encode (str_int (Event.tick event) +:+ Event.event_type event +:+
                    Event.payload event +:+ bytes_repr (Universe.rng_state u))) in
  (* universe_state['world_hash'] = event_hash *)
  let u := Universe.Make (Universe.tick u) (Universe.agents u)
             event_hash (Universe.rng_state u) in
  let hashes := replay_hashes v ++ [(Event.tick event, hex event_hash)] in
  let rng := sha256 (rng_state v ++ encode "tick") in
  (* universe_state['rng_state'] = rng_state *)
  let u := Universe.Make (Universe.tick u) (Universe.agents u)
             (Universe.world_hash u) rng in
  ReplayVars u rng hashes.

Definition replay_init (self : DeterminismAuditor) : replay_vars :=
  let rng := sha256 (encode (str_int (seed self))) in
  ReplayVars (Universe.Make 0 ∅ (sha256 (encode "genesis")) rng) rng [].

(** [DeterminismAuditor.replay_deterministically]; the two progress lines
    it prints are not part of its result. *)
Definition replay_deterministically (self : DeterminismAuditor)
    (events : list Event.t) : list (Z * string) :=
  replay_hashes (fold_left replay_body events (replay_init self)).

(** A divergence dictionary; ['type'] is one of two fixed strings. *)
Inductive divergence_type := hash_mismatch | missing_hash.

Module Divergence.
Record t := Make
    { tick : Z; db_hash : string; replay_hash : option string;
      type : divergence_type }.
End Divergence.

(** [{tick: hash_hex for tick, hash_hex in replay_hashes}]: entries are
    inserted in list order, a later one replacing an earlier one. *)
Definition replay_hash_dict (replay_hashes : list (Z * string)) : gmap Z string :=
  fold_left (fun d th => <[fst th := snd th]> d) replay_hashes ∅.

(** The body of [for checkpoint in db_checkpoints]. *)
Definition verify_body (d : gmap Z string) (divergences : list Divergence.t)
    (checkpoint : Checkpoint.t) : list Divergence.t :=
  let tick := Checkpoint.tick checkpoint in
  let db_hash := hex (Checkpoint.world_hash checkpoint) in
  match d !! tick with
  | Some replay_hash =>
      if decide (db_hash ≠ replay_hash)
      then divergences ++ [Divergence.Make tick db_hash (Some replay_hash) hash_mismatch]
      else divergences
  | None =>
      divergences ++ [Divergence.Make tick db_hash None missing_hash]
  end.

(** [DeterminismAuditor.verify_hash_chain]; the lines it prints are not
    part of its result. *)
Definition verify_hash_chain (self : DeterminismAuditor)
    (db_checkpoints : list Checkpoint.t) (replay_hashes : list (Z * string))
    : bool * list Divergence.t :=
  let d := replay_hash_dict replay_hashes in
  let divergences := fold_left (verify_body d) db_checkpoints [] in
  match divergences with
  | [] => (true, [])
  | _ :: _ => (false, divergences)
  end.

(** The ['verification_result'] entry of the report. *)
Module VerificationResult.
Record t := Make
    { status : string; divergences_count : nat;
      first_divergence_tick : option Z }.
End VerificationResult.

(** The report of [generate_report], without ['audit_metadata'] and
    ['summary'], which read the clock and the database. *)
Record report := Report
  { verification_result : VerificationResult.t;
    divergences : list Divergence.t }.

Definition generate_report (self : DeterminismAuditor)
    (verification_result : bool) (divergences : list Divergence.t) : report :=
  Report
    (VerificationResult.Make
       (if verification_result then "PASS" else "FAIL")
       (length divergences)
       (match divergences with
        | d :: _ => Some (Divergence.tick d)
        | [] => None
        end))
    divergences.

End DeterminismAudit.

(** ** replay_audit.py, on an events file of the expected types *)

Module ReplayAudit.
Import Py.

(** An element of the JSON array in the events file, when the file has the
    types that the tool expects: an object whose keys may be absent
    ([None]), with an integer ['tick'] and strings for ['hash'] and
    ['prev_hash'].  A file can hold other values; module [Replay] below
    embeds the same methods over all of them, and [Replay.of_event] is the
    JSON object of an event of this type. *)
Module Event.
Record t := Make
    { tick : option Z; hash : option string; prev_hash : option string }.
End Event.

(** [self]: the fields set by [__init__]. *)
Record ReplayAudit := Audit
  { seed : Z;
    events_file : string;
    events : list Event.t;
    hash_trajectory : list (Z * string);
    divergence_point : option Z;
    audit_result : string }.

(** The methods change [self] and write lines to standard output; reading a
    missing key of an event raises [KeyError], the one exception that events
    of these types can raise. *)
Record world := World { self : ReplayAudit; stdout : list string }.

Inductive exn := KeyError (key : string).

Inductive result (A : Type) :=
  | Returns (a : A)
  | Raises (e : exn).
Arguments Returns {A} a.
Arguments Raises {A} e.

Definition M (A : Type) : Type := world → result A * world.

Definition ret {A} (a : A) : M A := fun w => (Returns a, w).
Definition raise {A} (e : exn) : M A := fun w => (Raises e, w).
Definition bind {A B} (m : M A) (k : A → M B) : M B :=
  fun w =>
    match m w with
    | (Returns a, w') => k a w'
    | (Raises e, w') => (Raises e, w')
    end.

Declare Scope py_scope.
Delimit Scope py_scope with py.
Notation "x <- m ;; k" := (bind m (fun x => k))
  (at level 100, m at next level, k at level 200, right associativity) : py_scope.
Notation "m ;; k" := (bind m (fun _ => k))
  (at level 100, k at level 200, right associativity) : py_scope.
Local Open Scope py_scope.

Definition get_self : M ReplayAudit := fun w => (Returns (self w), w).
Definition print (line : string) : M unit :=
  fun w => (Returns tt, World (self w) (stdout w ++ [line])).
Definition set_divergence_point (i : Z) : M unit :=
  fun w =>
    let s := self w in
    (Returns tt,
     World (Audit (seed s) (events_file s) (events s) (hash_trajectory s)
                  (Some i) (audit_result s)) (stdout w)).
Definition set_audit_result (r : string) : M unit :=
  fun w =>
    let s := self w in
    (Returns tt,
     World (Audit (seed s) (events_file s) (events s) (hash_trajectory s)
                  (divergence_point s) r) (stdout w)).

(** [for x in xs: acc = body(x, acc)]. *)
Fixpoint for_each {A B} (xs : list A) (body : A → B → M B) (acc : B) : M B :=
  match xs with
  | [] => ret acc
  | x :: rest => acc' <- body x acc ;; for_each rest body acc'
  end.

(** [range(lo, lo + n)]. *)
Definition range (lo : Z) (n : nat) : list Z :=
  map (fun i => (lo + Z.of_nat i)%Z) (seq 0 n).

(** [s * n] on a string. *)
Fixpoint str_mul (s : string) (n : nat) : string :=
  match n with
  | O => ""
  | S n' => s +:+ str_mul s n'
  end.

(** [[e for e in events if e['tick'] <= tick]]. *)
Fixpoint events_upto (tick : Z) (events : list Event.t) : M (list Event.t) :=
  match events with
  | [] => ret []
  | e :: rest =>
      match Event.tick e with
      | None => raise (KeyError "tick")
      | Some t =>
          selected <- events_upto tick rest ;;
          ret (if (t <=? tick)%Z then e :: selected else selected)
      end
  end.

(** [ReplayAudit.simulate_universe_state]. *)
Definition simulate_universe_state (tick : Z) : M string :=
  s <- get_self ;;
  selected <- events_upto tick (events s) ;;
  let hash_input :=
    str_int (seed s) +:+ ":" +:+ str_int tick +:+ ":" +:+
    str_int (Z.of_nat (length selected)) in
  ret (hex (sha256 (encode hash_input))).

(** The comparison loop of [verify_hash_stability], from index [i] on. *)
Fixpoint compare_trajectories (i : Z) (pairs : list (string * string)) : M bool :=
  match pairs with
  | [] => print "✅ Hash stability verified" ;; ret true
  | (h1, h2) :: rest =>
      if decide (h1 ≠ h2) then
        set_divergence_point i ;;
        set_audit_result "FAIL" ;;
        print ("❌ Hash divergence at tick " +:+ str_int i +:+ ": " +:+
               slice_to 16 h1 +:+ " != " +:+ slice_to 16 h2) ;;
        ret false
      else compare_trajectories (i + 1) rest
  end.

(** [ReplayAudit.verify_hash_stability]. *)
Definition verify_hash_stability : M bool :=
  print "🔍 Verifying hash stability..." ;;
  trajectories <-
    for_each [0; 1]%Z (fun run =>
      for_each (range 0 101) (fun tick '(hash_trajectory_1, hash_trajectory_2) =>
        hash_value <- simulate_universe_state tick ;;
        ret (if (run =? 0)%Z
             then (hash_trajectory_1 ++ [hash_value], hash_trajectory_2)
             else (hash_trajectory_1, hash_trajectory_2 ++ [hash_value]))))
      ([], []) ;;
  compare_trajectories 0 (zip (fst trajectories) (snd trajectories)).

(** The loop of [verify_hash_chain]; [prev_hash] is the local variable. *)
Fixpoint chain_loop (prev_hash : string) (events : list Event.t) : M bool :=
  match events with
  | [] => print "✅ Hash-chain integrity verified" ;; ret true
  | event :: rest =>
      let event_hash := default "" (Event.hash event) in
      let event_prev_hash := default "" (Event.prev_hash event) in
      if bool_decide (event_prev_hash ≠ "") && bool_decide (event_prev_hash ≠ prev_hash)
      then
        print ("❌ Hash chain broken at tick " +:+
               match Event.tick event with Some t => str_int t | None => "?" end) ;;
        print ("  Expected prev_hash: " +:+ slice_to 16 prev_hash) ;;
        print ("  Found prev_hash: " +:+ slice_to 16 event_prev_hash) ;;
        set_audit_result "FAIL" ;;
        ret false
      else chain_loop event_hash rest
  end.

(** [ReplayAudit.verify_hash_chain]. *)
Definition verify_hash_chain : M bool :=
  print "🔗 Verifying hash-chain integrity..." ;;
  s <- get_self ;;
  chain_loop (str_mul "0" 64) (events s).

End ReplayAudit.

(** ** The design document's reading of the builder, for comparison *)

Module Design.
Import Py DeterminismAudit.

(** The text hashed for one event, given the chained state. *)
Definition event_digest (e : Event.t) (state : list byte) : list byte :=
  sha256 (encode (str_int (Event.tick e) +:+ Event.event_type e +:+
                  Event.payload e +:+ bytes_repr state)).

(** The recurrence as the design document words it: the state chained into
    the digest of an event is the digest emitted for the previous event, and
    the digest of the seed for the first one. *)
Fixpoint chain (state : list byte) (events : list Event.t) : list (Z * string) :=
  match events with
  | [] => []
  | e :: rest =>
      let h := event_digest e state in
      (Event.tick e, hex h) :: chain h rest
  end.

Definition build_trajectory (seed : Z) (events : list Event.t) : list (Z * string) :=
  chain (sha256 (encode (str_int seed))) events.

(** The first record whose tick is below the tick before it. *)
Fixpoint first_out_of_order (prev : Z) (events : list Event.t) : option Event.t :=
  match events with
  | [] => None
  | e :: rest =>
      if (Event.tick e <? prev)%Z then Some e
      else first_out_of_order (Event.tick e) rest
  end.

(** The builder as the design document's error handling words it: an
    unsorted input is refused with the offending record, nothing is
    replayed. *)
Definition build_trajectory_checked (self : DeterminismAuditor)
    (events : list Event.t) : Event.t + list (Z * string) :=
  match events with
  | [] => inr (replay_deterministically self [])
  | e :: rest =>
      match first_out_of_order (Event.tick e) rest with
      | Some bad => inl bad
      | None => inr (replay_deterministically self events)
      end
  end.

End Design.

(** ** What the code computes, in closed form *)

Module Closed.
Import Py DeterminismAudit.

(** The value of [rng_state] when the event at position [i] is hashed:
    the digest of the seed, folded [i] times with [b'tick']. *)
Definition rng_at (seed : Z) (i : nat) : list byte :=
  Nat.iter i (fun r => sha256 (r ++ encode "tick")) (sha256 (encode (str_int seed))).

(** The trajectory entry of the event [e] at position [i]. *)
Definition entry_at (seed : Z) (i : nat) (e : Event.t) : Z * string :=
  (Event.tick e, hex (Design.event_digest e (rng_at seed i))).

(** A checkpoint sequence read as a trajectory of (tick, digest) pairs. *)
Definition checkpoint_trajectory (cps : list Checkpoint.t) : list (Z * string) :=
  map (fun c => (Checkpoint.tick c, hex (Checkpoint.world_hash c))) cps.

(** The last digest recorded for a tick in a trajectory. *)
Definition last_for (t : Z) (hashes : list (Z * string)) : option string :=
  snd <$> last (filter (fun th => fst th = t) hashes).

End Closed.

(** ** Checkpoint chains of replay_audit.py *)

Module Chain.
Import ReplayAudit.

Definition hash_of (e : Event.t) : string := default "" (Event.hash e).
Definition prev_hash_of (e : Event.t) : string := default "" (Event.prev_hash e).

(** A sequence built with [prev_hash[i] = hash[i-1]] for [i > 0] and an
    empty [prev_hash] at the genesis. *)
Definition linked (events : list Event.t) : Prop :=
  (∀ e, events !! 0%nat = Some e → prev_hash_of e = "") ∧
  (∀ i e e', events !! i = Some e → events !! S i = Some e' →
             prev_hash_of e' = hash_of e).

(** The checkpoint [e] with its [prev_hash] replaced by [v]. *)
Definition with_prev_hash (v : string) (e : Event.t) : Event.t :=
  Event.Make (Event.tick e) (Event.hash e) (Some v).

(** [self] with another event list. *)
Definition with_events (evs : list Event.t) (s : ReplayAudit) : ReplayAudit :=
  Audit (seed s) (events_file s) evs (hash_trajectory s)
        (divergence_point s) (audit_result s).

Definition failed (s : ReplayAudit) : ReplayAudit :=
  Audit (seed s) (events_file s) (events s) (hash_trajectory s)
        (divergence_point s) "FAIL".

Definition tick_text (e : Event.t) : string :=
  match Event.tick e with Some t => Py.str_int t | None => "?" end.

(** The scan of [verify_hash_chain] without its effects: the first
    checkpoint whose non-empty [prev_hash] differs from the hash before it,
    with that expected hash. *)
Fixpoint first_break (prev : string) (events : list Event.t)
    : option (Event.t * string) :=
  match events with
  | [] => None
  | e :: rest =>
      if bool_decide (prev_hash_of e ≠ "") && bool_decide (prev_hash_of e ≠ prev)
      then Some (e, prev)
      else first_break (hash_of e) rest
  end.

(** The value of the local [prev_hash] after a scan of [events]. *)
Definition expected_after (prev : string) (events : list Event.t) : string :=
  from_option hash_of prev (last events).

(** The lines printed when the chain breaks at [e], [expected] being the
    hash before it. *)
Definition break_report (e : Event.t) (expected : string) : list string :=
  [ "❌ Hash chain broken at tick " +:+ tick_text e;
    "  Expected prev_hash: " +:+ Py.slice_to 16 expected;
    "  Found prev_hash: " +:+ Py.slice_to 16 (prev_hash_of e) ].

Definition has_tick (e : Event.t) : bool :=
  match Event.tick e with Some _ => true | None => false end.

Definition upto (tick : Z) (e : Event.t) : bool :=
  match Event.tick e with Some t => (t <=? tick)%Z | None => false end.

(** The hash of [simulate_universe_state] when every event has a tick. *)
Definition simulated_hash (s : ReplayAudit) (tick : Z) : string :=
  Py.hex (sha256 (Py.encode
    (Py.str_int (seed s) +:+ ":" +:+ Py.str_int tick +:+ ":" +:+
     Py.str_int (Z.of_nat (length (List.filter (upto tick) (events s))))))).

End Chain.

Arguments sha256 : simpl never.
Arguments Py.encode : simpl never.
Arguments Py.hex : simpl never.
Arguments Py.bytes_repr : simpl never.
Arguments Py.str_int : simpl never.
Arguments Py.slice_to : simpl never.

(** ** Concrete inputs *)

Module Samples.
Import DeterminismAudit.
Local Open Scope Z_scope.

Definition auditor : DeterminismAuditor :=
  Auditor "postgresql://localhost/markenz" 1337 None.

(** The same seed behind another database. *)
Definition auditor' : DeterminismAuditor :=
  Auditor "postgresql://audit@replica/markenz" 1337 (Some "replica").

Definition spawn : Event.t := Event.Make 1 "spawn" "{}" "2026-01-01".
Definition move : Event.t := Event.Make 2 "move" "{}" "2026-01-02".

(** Two different events of tick 1 whose fields concatenate to the same
    text [1abc]. *)
Definition ab_c : Event.t := Event.Make 1 "ab" "c" "2026-01-01".
Definition a_bc : Event.t := Event.Make 1 "a" "bc" "2026-01-01".

End Samples.

Module ChainSamples.
Import ReplayAudit.
Local Open Scope Z_scope.

(** Three checkpoints, each naming the hash of the one before. *)
Definition genesis : Event.t := Event.Make (Some 0) (Some "a0") None.
Definition second : Event.t := Event.Make (Some 1) (Some "b1") (Some "a0").
Definition third : Event.t := Event.Make (Some 2) (Some "c2") (Some "b1").

Definition audit : ReplayAudit :=
  Audit 1337 "events.json" [genesis; second; third] [] None "PASS".

End ChainSamples.

Module ComparatorSamples.
Import DeterminismAudit.
Local Open Scope Z_scope.

(** Five distinct one-byte digests. *)
Definition A : list byte := [x0a].
Definition B : list byte := [x0b].
Definition C : list byte := [x0c].
Definition X : list byte := [x58].
Definition D : list byte := [x0d].

(** Two checkpoints of tick 1 with different hashes. *)
Definition twice : list Checkpoint.t :=
  [ Checkpoint.Make 1 A [] true "2026-01-01";
    Checkpoint.Make 1 B A true "2026-01-01" ].

(** Checkpoints of ticks 0, 1 and 2. *)
Definition three : list Checkpoint.t :=
  [ Checkpoint.Make 0 A [] true "2026-01-01";
    Checkpoint.Make 1 B A true "2026-01-02";
    Checkpoint.Make 2 C B false "2026-01-03" ].

End ComparatorSamples.

(** ** More of determinism_audit.py *)

Module Digest.

Definition is_hexdigit (c : ascii) : bool :=
  existsb (Ascii.eqb c) (list_ascii_of_string "0123456789abcdef").

(** The text of a SHA-256 digest: 64 lowercase hexadecimal digits. *)
Definition is_hex_digest (s : string) : bool :=
  Nat.eqb (String.length s) 64 && forallb is_hexdigit (list_ascii_of_string s).

End Digest.

Module AuditReport.
Import Py DeterminismAudit.

(** [s.split(sep)] for a separator of one character. *)
Fixpoint split (sep : ascii) (s : string) : list string :=
  match s with
  | EmptyString => [EmptyString]
  | String c rest =>
      if Ascii.eqb c sep then EmptyString :: split sep rest
      else match split sep rest with
           | piece :: pieces => String c piece :: pieces
           | [] => [String c EmptyString]
           end
  end.

(** [sep.join(pieces)]. *)
Fixpoint join (sep : ascii) (pieces : list string) : string :=
  match pieces with
  | [] => EmptyString
  | [piece] => piece
  | piece :: rest => piece +:+ String sep (join sep rest)
  end.

(** [c in s] for a character [c]. *)
Definition contains_char (c : ascii) (s : string) : bool :=
  existsb (Ascii.eqb c) (list_ascii_of_string s).

(** The ['database_url'] entry of the report's ['audit_metadata']:
    [self.db_url.split('@')[-1] if '@' in self.db_url else 'localhost']. *)
Definition database_url (self : DeterminismAuditor) : string :=
  if contains_char "@" (db_url self)
  then default EmptyString (last (split "@" (db_url self)))
  else "localhost".

(** The steps of [run_audit] on the loaded rows: replay, comparison and
    report. *)
Definition run_audit (self : DeterminismAuditor) (events : list Event.t)
    (checkpoints : list Checkpoint.t) : bool * report :=
  let replay_hashes := replay_deterministically self events in
  let result := verify_hash_chain self checkpoints replay_hashes in
  (fst result, generate_report self (fst result) (snd result)).

(** The exit code chosen by [main] from the result of [run_audit]. *)
Definition exit_code (verification_result : bool) : Z :=
  if verification_result then 0 else 1.

End AuditReport.

(** ** More of replay_audit.py *)

Module ReplayRun.
Import Py ReplayAudit.
Local Open Scope py_scope.

(** [f"{n:3d}"]: the decimal text, padded with spaces on the left to three
    characters. *)
Definition format_3d (n : Z) : string :=
  let s := str_int n in str_mul " " (3 - String.length s) +:+ s.

Module AuditMetadata.
Record t := Make
  { seed_used : Z; event_count : nat; event_range : string;
    audit_result : string; divergence_point : option Z }.
End AuditMetadata.

Module VerificationResults.
Record t := Make
  { determinism_replay : bool; hash_chain_integrity : bool;
    snapshot_equivalence : string }.
End VerificationResults.

Module Compliance.
Record t := Make
  { offline_operation : bool; no_nondeterministic_apis : bool;
    event_log_append_only : bool; boot_validation : bool;
    authority_boundaries : bool }.
End Compliance.

Module Report.
Record t := Make
  { audit_metadata : AuditMetadata.t;
    hash_trajectory : list (Z * string);
    verification_results : VerificationResults.t;
    phase_0_compliance : Compliance.t }.
End Report.

(** [event['tick']]. *)
Definition tick_of (e : Event.t) : M Z :=
  match Event.tick e with
  | Some t => ret t
  | None => raise (KeyError "tick")
  end.

(** [ReplayAudit.generate_audit_report]. *)
Definition generate_audit_report : M Report.t :=
  s <- get_self ;;
  first <- match events s with
           | e :: _ => tick_of e
           | [] => ret 0%Z
           end ;;
  final <- match last (events s) with
           | Some e => tick_of e
           | None => ret 0%Z
           end ;;
  ret (Report.Make
         (AuditMetadata.Make (seed s) (length (events s))
            (str_int first +:+ "-" +:+ str_int final)
            (audit_result s) (divergence_point s))
         (ReplayAudit.hash_trajectory s)
         (VerificationResults.Make
            (String.eqb (audit_result s) "PASS")
            (String.eqb (audit_result s) "PASS")
            "NOT_TESTED_PHASE0")
         (Compliance.Make true true true true true)).

End ReplayRun.

(** ** determinism_guard.py *)

Module DeterminismGuard.
Import Py.
Local Open Scope string_scope.

(** The names (keys) of [prohibited_patterns], in the order of the
    dictionary; the regular expressions themselves are not modelled. *)
Definition prohibited_patterns : list string :=
  [ "Math.random"; "Date.now"; "SystemTime"; "random"; "agent_id_conditional";
    "agent_switch"; "agent_feature_flag"; "todo"; "wall_clock" ].

Definition authority_files : list string :=
  [ "apps/engine/src/"; "crates/world/src/"; "crates/physics/src/";
    "crates/biology/src/"; "crates/genetics/src/"; "crates/cognition/src/";
    "crates/persistence/src/"; "crates/events/src/" ].

Definition allowed_contexts : list (string * list string) :=
  [ ("Math.random", ["tools/audits/"; "tests/"]);
    ("Date.now", ["tools/audits/"; "tests/"]) ].

(** [d.get(key)] on a dictionary written as its list of items. *)
Fixpoint item {A} (key : string) (d : list (string * A)) : option A :=
  match d with
  | [] => None
  | (k, v) :: rest => if String.eqb k key then Some v else item key rest
  end.

(** [s.startswith(p)]. *)
Definition startswith (s p : string) : bool := String.prefix p s.

(** [sub in s] on strings. *)
Fixpoint contains (sub s : string) : bool :=
  String.prefix sub s ||
  match s with
  | EmptyString => false
  | String _ rest => contains sub rest
  end.

(** The test [is_authority_file] of [scan_file]. *)
Definition is_authority_file (relative_path : string) : bool :=
  existsb (fun auth_path => startswith relative_path auth_path) authority_files.

(** [DeterminismGuard.is_pattern_allowed]. *)
Definition is_pattern_allowed (pattern_name file_path : string) : bool :=
  match item pattern_name allowed_contexts with
  | Some allowed_paths =>
      existsb (fun allowed_path => startswith file_path allowed_path) allowed_paths
  | None => false
  end.

Definition reasons : list (string * string) :=
  [ ("Math.random", "Nondeterministic random number generation breaks replay consistency");
    ("Date.now", "Wall clock usage breaks deterministic time evolution");
    ("SystemTime", "System time usage breaks deterministic time evolution");
    ("random", "Generic random function usage breaks determinism");
    ("agent_id_conditional", "Agent-ID conditionals violate structural parity requirements");
    ("agent_switch", "Agent-based switch statements violate structural parity");
    ("agent_feature_flag", "Per-agent feature flags violate parity requirements");
    ("todo", "Placeholder implementations violate No-Mock/No-Stub law");
    ("wall_clock", "Wall clock usage in authority path breaks determinism") ].

(** [DeterminismGuard.get_violation_reason]. *)
Definition get_violation_reason (pattern_name : string) : string :=
  match item pattern_name reasons with
  | Some reason => reason
  | None => "Unknown violation: " +:+ pattern_name
  end.

(** An element of [self.violations]: the dictionary written for a match,
    or the one written when a file could not be scanned, which has no
    ['pattern'] key. *)
Inductive violation :=
  | Match (file : string) (line : Z) (pattern : string) (matched : string)
          (line_content : string) (severity : string) (reason : string)
  | ScanError (file : string) (error : string) (severity : string).

(** [v['severity']]. *)
Definition severity (v : violation) : string :=
  match v with
  | Match _ _ _ _ _ s _ => s
  | ScanError _ _ s => s
  end.

(** [v['pattern']]. *)
Definition pattern (v : violation) : ReplayAudit.result string :=
  match v with
  | Match _ _ p _ _ _ _ => ReplayAudit.Returns p
  | ScanError _ _ _ => ReplayAudit.Raises (ReplayAudit.KeyError "pattern")
  end.

(** The violation written by [scan_file] for a match of [pattern_name] in
    the file at [relative_path]. *)
Definition match_violation (relative_path : string) (line_num : Z)
    (pattern_name matched line_content : string) : violation :=
  Match relative_path line_num pattern_name matched line_content
        (if is_authority_file relative_path then "CRITICAL" else "HIGH")
        (get_violation_reason pattern_name).

(** [[v for v in violations if test(v['pattern'])]]. *)
Fixpoint select (test : string → bool) (violations : list violation)
    : ReplayAudit.result (list violation) :=
  match violations with
  | [] => ReplayAudit.Returns []
  | v :: rest =>
      match pattern v with
      | ReplayAudit.Raises e => ReplayAudit.Raises e
      | ReplayAudit.Returns p =>
          match select test rest with
          | ReplayAudit.Raises e => ReplayAudit.Raises e
          | ReplayAudit.Returns selected =>
              ReplayAudit.Returns (if test p then v :: selected else selected)
          end
      end
  end.

Module ScanMetadata.
Record t := Make
  { scan_path : string; total_violations : nat;
    critical_violations : nat; high_violations : nat }.
End ScanMetadata.

Module Compliance.
Record t := Make
  { determinism_enforced : bool; no_nondeterministic_apis : bool;
    structural_parity : bool; no_placeholders : bool }.
End Compliance.

Module Report.
Record t := Make
  { scan_metadata : ScanMetadata.t;
    violations : list violation;
    phase_0_compliance : Compliance.t }.
End Report.

(** [self]: the path to scan and the violations found. *)
Record DeterminismGuard := Guard
  { scan_path : string; violations : list violation }.

(** [DeterminismGuard.generate_report]. *)
Definition generate_report (self : DeterminismGuard) : ReplayAudit.result Report.t :=
  let count_severity s :=
    length (List.filter (fun v => String.eqb (severity v) s) (violations self)) in
  match select (fun p => contains "random" p || contains "time" p) (violations self) with
  | ReplayAudit.Raises e => ReplayAudit.Raises e
  | ReplayAudit.Returns nondeterministic =>
      match select (contains "agent") (violations self) with
      | ReplayAudit.Raises e => ReplayAudit.Raises e
      | ReplayAudit.Returns structural =>
          match select (fun p => String.eqb p "todo") (violations self) with
          | ReplayAudit.Raises e => ReplayAudit.Raises e
          | ReplayAudit.Returns placeholders =>
              ReplayAudit.Returns
                (Report.Make
                   (ScanMetadata.Make (scan_path self) (length (violations self))
                      (count_severity "CRITICAL") (count_severity "HIGH"))
                   (violations self)
                   (Compliance.Make
                      (Nat.eqb (length (violations self)) 0)
                      (Nat.eqb (length nondeterministic) 0)
                      (Nat.eqb (length structural) 0)
                      (Nat.eqb (length placeholders) 0)))
          end
      end
  end.

(** The entry written by [scan_file] when the file cannot be read: it has
    no ['pattern'], and its severity is ['ERROR'] whatever the path. *)
Definition scan_failure (relative_path e : string) : violation :=
  ScanError relative_path ("Failed to scan file: " +:+ e) "ERROR".

Definition newline : ascii := "010"%char.

Section Scan.

(** The file system and the regular expressions: reading the file at a path
    gives its text or the text of the exception; [finditer name content] are
    the matches in the text of the pattern called [name], in order, each as
    the number of characters before it and the text matched; [strip] is
    [str.strip]. *)
Variable read_text : string → string + string.
Variable finditer : string → string → list (nat * string).
Variable strip : string → string.

(** [content[:start].count('\n') + 1]. *)
Definition line_number (content : string) (start : nat) : Z :=
  (Z.of_nat (count_occ ascii_dec (list_ascii_of_string (slice_to start content))
               newline) + 1)%Z.

(** [content.split('\n')[line_num - 1].strip()]. *)
Definition line_at (content : string) (line_num : Z) : string :=
  strip (nth (Z.to_nat (line_num - 1)) (AuditReport.split newline content) "").

(** [DeterminismGuard.scan_file], for the file at [relative_path]. *)
Definition scan_file (relative_path : string) : list violation :=
  match read_text relative_path with
  | inl e => [scan_failure relative_path e]
  | inr content =>
      flat_map (fun pattern_name =>
        flat_map (fun m =>
          let line_num := line_number content (fst m) in
          let line_content := line_at content line_num in
          if is_pattern_allowed pattern_name relative_path then []
          else [match_violation relative_path line_num pattern_name (snd m)
                  (strip line_content)])
          (finditer pattern_name content))
        prohibited_patterns
  end.

End Scan.

End DeterminismGuard.

(** ** The values of an events file *)

Module Json.
Import Py.
Local Open Scope string_scope.

(** A value returned by [json.load]: [None], a [bool], an [int], a [float],
    a [str], a [list], or a [dict] written as its items in order, with
    distinct keys (of a repeated key the parser keeps the last value). *)
#[warnings="-register-all"] Inductive json :=
  | JNull
  | JBool (b : bool)
  | JInt (n : Z)
  | JFloat (f : spec_float)
  | JStr (s : string)
  | JList (items : list json)
  | JDict (items : list (string * json)).

(** What a subscript that failed was: a key, or the slice [[:stop]]. *)
Inductive subscript :=
  | Key (k : json)
  | SliceTo (stop : Z).

Inductive exn :=
  | KeyError (key : subscript)
  | IndexError
  | TypeError
  | AttributeError.

Inductive result (A : Type) :=
  | Returns (a : A)
  | Raises (e : exn).
Arguments Returns {A} a.
Arguments Raises {A} e.

(** What the interpreter decides: the text of a finite non-zero [float],
    [repr(s)] of a [str], and whether a slice can be hashed (it can from
    Python 3.12 on, so that [d[:16]] on a [dict] is a [KeyError] there and a
    [TypeError] before). *)
Record runtime := Runtime
  { finite_repr : spec_float → string;
    str_repr : string → string;
    slice_hashable : bool }.

(** [d.get(key)] on the items of a [dict]. *)
Fixpoint item (key : string) (d : list (string * json)) : option json :=
  match d with
  | [] => None
  | (k, v) :: rest => if String.eqb k key then Some v else item key rest
  end.

Definition signed (s : bool) (m : positive) : Z :=
  if s then Z.neg m else Z.pos m.

(** [f <= n] and [f == n] for a [float] and an [int]: Python compares the
    two values exactly. *)
Definition float_le_int (f : spec_float) (n : Z) : bool :=
  match f with
  | S754_nan => false
  | S754_infinity s => s
  | S754_zero _ => (0 <=? n)%Z
  | S754_finite s m e =>
      if (0 <=? e)%Z then (signed s m * 2 ^ e <=? n)%Z
      else (signed s m <=? n * 2 ^ (- e))%Z
  end.

Definition float_eq_int (f : spec_float) (n : Z) : bool :=
  match f with
  | S754_nan | S754_infinity _ => false
  | S754_zero _ => (n =? 0)%Z
  | S754_finite s m e =>
      if (0 <=? e)%Z then (signed s m * 2 ^ e =? n)%Z
      else (signed s m =? n * 2 ^ (- e))%Z
  end.

(** [f == g] on two [float]s.  [nan] differs from itself, but an element of
    a container is first compared by identity, and every [NaN] of a JSON
    text is the same object. *)
Definition float_eq (same_object : bool) (f g : spec_float) : bool :=
  match f, g with
  | S754_nan, S754_nan => same_object
  | S754_infinity s, S754_infinity s' => Bool.eqb s s'
  | S754_zero _, S754_zero _ => true
  | S754_finite s m e, S754_finite s' m' e' =>
      (signed s m * 2 ^ (e - Z.min e e') =? signed s' m' * 2 ^ (e' - Z.min e e'))%Z
  | _, _ => false
  end.

(** The number that a [bool], an [int] or a [float] is. *)
Definition number (v : json) : option (Z + spec_float) :=
  match v with
  | JBool b => Some (inl (Z.b2z b))
  | JInt n => Some (inl n)
  | JFloat f => Some (inr f)
  | _ => None
  end.

Definition number_eq (same_object : bool) (x y : Z + spec_float) : bool :=
  match x, y with
  | inl m, inl n => (m =? n)%Z
  | inl m, inr f | inr f, inl m => float_eq_int f m
  | inr f, inr g => float_eq same_object f g
  end.

(** [a == b]; [inside] says that the two are elements of containers being
    compared. *)
Fixpoint eq (inside : bool) (a b : json) {struct a} : bool :=
  match a, b with
  | JNull, JNull => true
  | JStr s, JStr t => String.eqb s t
  | JList xs, JList ys =>
      (fix all (xs ys : list json) {struct xs} : bool :=
         match xs, ys with
         | [], [] => true
         | x :: xs', y :: ys' => eq true x y && all xs' ys'
         | _, _ => false
         end) xs ys
  | JDict xs, JDict ys =>
      Nat.eqb (length xs) (length ys) &&
      (fix all (xs : list (string * json)) {struct xs} : bool :=
         match xs with
         | [] => true
         | (k, v) :: xs' =>
             match item k ys with
             | Some v' => eq true v v'
             | None => false
             end && all xs'
         end) xs
  | _, _ =>
      match number a, number b with
      | Some x, Some y => number_eq inside x y
      | _, _ => false
      end
  end.

(** [a != b]. *)
Definition ne (a b : json) : bool := negb (eq false a b).

(** [bool(v)], the test of an [if] or an [and]. *)
Definition truthy (v : json) : bool :=
  match v with
  | JNull => false
  | JBool b => b
  | JInt n => negb (n =? 0)%Z
  | JFloat (S754_zero _) => false
  | JFloat _ => true
  | JStr s => negb (String.eqb s "")
  | JList xs => negb (Nat.eqb (length xs) 0)
  | JDict xs => negb (Nat.eqb (length xs) 0)
  end.

(** [type(v).__name__]. *)
Definition type_name (v : json) : string :=
  match v with
  | JNull => "NoneType"
  | JBool _ => "bool"
  | JInt _ => "int"
  | JFloat _ => "float"
  | JStr _ => "str"
  | JList _ => "list"
  | JDict _ => "dict"
  end.

(** [len(v)]. *)
Definition len (v : json) : result nat :=
  match v with
  | JStr s => Returns (Py.len s)
  | JList xs => Returns (length xs)
  | JDict xs => Returns (length xs)
  | _ => Raises TypeError
  end.

(** The text of the [TypeError] of [len(v)]. *)
Definition len_error (v : json) : string :=
  "object of type '" +:+ type_name v +:+ "' has no len()".

(** The elements that [for e in v] goes through. *)
Definition iter (v : json) : result (list json) :=
  match v with
  | JList xs => Returns xs
  | JStr s => Returns (map JStr (chars s))
  | JDict xs => Returns (map (fun kv => JStr (fst kv)) xs)
  | _ => Raises TypeError
  end.

(** [v[key]] for a [str] key. *)
Definition getitem (v : json) (key : string) : result json :=
  match v with
  | JDict d =>
      match item key d with
      | Some x => Returns x
      | None => Raises (KeyError (Key (JStr key)))
      end
  | _ => Raises TypeError
  end.

(** [v.get(key, default)]. *)
Definition get (v : json) (key : string) (default : json) : result json :=
  match v with
  | JDict d => Returns (from_option id default (item key d))
  | _ => Raises AttributeError
  end.

(** [v[0]] and [v[-1]]. *)
Definition first_item (v : json) : result json :=
  match v with
  | JList xs => from_option Returns (Raises IndexError) (head xs)
  | JStr s => from_option (fun c => Returns (JStr c)) (Raises IndexError) (head (chars s))
  | JDict _ => Raises (KeyError (Key (JInt 0)))
  | _ => Raises TypeError
  end.

Definition last_item (v : json) : result json :=
  match v with
  | JList xs => from_option Returns (Raises IndexError) (last xs)
  | JStr s => from_option (fun c => Returns (JStr c)) (Raises IndexError) (last (chars s))
  | JDict _ => Raises (KeyError (Key (JInt (-1))))
  | _ => Raises TypeError
  end.

(** [v <= n] for an [int] [n]. *)
Definition le_int (v : json) (n : Z) : result bool :=
  match v with
  | JBool b => Returns (Z.b2z b <=? n)%Z
  | JInt m => Returns (m <=? n)%Z
  | JFloat f => Returns (float_le_int f n)
  | _ => Raises TypeError
  end.

Section Runtime.
Variable py : runtime.

(** [v[:n]]. *)
Definition slice_to (n : nat) (v : json) : result json :=
  match v with
  | JStr s => Returns (JStr (Py.slice_to n s))
  | JList xs => Returns (JList (take n xs))
  | JDict _ =>
      Raises (if slice_hashable py then KeyError (SliceTo (Z.of_nat n)) else TypeError)
  | _ => Raises TypeError
  end.

(** [repr(f)] for a [float]. *)
Definition float_repr (f : spec_float) : string :=
  match f with
  | S754_nan => "nan"
  | S754_infinity s => if s then "-inf" else "inf"
  | S754_zero s => if s then "-0.0" else "0.0"
  | S754_finite _ _ _ => finite_repr py f
  end.

(** [repr(v)]. *)
Fixpoint repr (v : json) : string :=
  match v with
  | JNull => "None"
  | JBool b => if b then "True" else "False"
  | JInt n => str_int n
  | JFloat f => float_repr f
  | JStr s => str_repr py s
  | JList xs => "[" +:+ String.concat ", " (map repr xs) +:+ "]"
  | JDict xs =>
      "{" +:+
      String.concat ", "
        (map (fun kv => str_repr py (fst kv) +:+ ": " +:+ repr (snd kv)) xs) +:+
      "}"
  end.

(** [str(v)], which is what an f-string writes for [{v}]. *)
Definition str (v : json) : string :=
  match v with
  | JStr s => s
  | _ => repr v
  end.

End Runtime.

End Json.

(** ** replay_audit.py on any events file *)

Module Replay.
Import Py Json.

(** [self]; [events] is whatever the parser made of the file. *)
Record ReplayAudit := Audit
  { seed : Z;
    events_file : string;
    events : json;
    hash_trajectory : list (Z * string);
    divergence_point : option Z;
    audit_result : string }.

(** The methods change [self] and write lines to standard output, which
    takes any text. *)
Record world := World { self : ReplayAudit; stdout : list string }.

Definition M (A : Type) : Type := world → result A * world.

Definition ret {A} (a : A) : M A := fun w => (Returns a, w).
Definition raise {A} (e : exn) : M A := fun w => (Raises e, w).
Definition lift {A} (r : result A) : M A := fun w => (r, w).
Definition bind {A B} (m : M A) (k : A → M B) : M B :=
  fun w =>
    match m w with
    | (Returns a, w') => k a w'
    | (Raises e, w') => (Raises e, w')
    end.

Declare Scope replay_scope.
Delimit Scope replay_scope with replay.
Notation "x <- m ;; k" := (bind m (fun x => k))
  (at level 100, m at next level, k at level 200, right associativity) : replay_scope.
Notation "m ;; k" := (bind m (fun _ => k))
  (at level 100, k at level 200, right associativity) : replay_scope.
Local Open Scope replay_scope.

Definition get_self : M ReplayAudit := fun w => (Returns (self w), w).
Definition print (line : string) : M unit :=
  fun w => (Returns tt, World (self w) (stdout w ++ [line])).
Definition set_events (v : json) : M unit :=
  fun w =>
    let s := self w in
    (Returns tt,
     World (Audit (seed s) (events_file s) v (hash_trajectory s)
                  (divergence_point s) (audit_result s)) (stdout w)).
Definition set_divergence_point (i : Z) : M unit :=
  fun w =>
    let s := self w in
    (Returns tt,
     World (Audit (seed s) (events_file s) (events s) (hash_trajectory s)
                  (Some i) (audit_result s)) (stdout w)).
Definition set_audit_result (r : string) : M unit :=
  fun w =>
    let s := self w in
    (Returns tt,
     World (Audit (seed s) (events_file s) (events s) (hash_trajectory s)
                  (divergence_point s) r) (stdout w)).

(** [self.hash_trajectory.append({'tick': tick, 'hash': hash_value})]. *)
Definition append_hash_trajectory (entry : Z * string) : M unit :=
  fun w =>
    let s := self w in
    (Returns tt,
     World (Audit (seed s) (events_file s) (events s) (hash_trajectory s ++ [entry])
                  (divergence_point s) (audit_result s)) (stdout w)).

(** [for x in xs: acc = body(x, acc)]. *)
Fixpoint for_each {A B} (xs : list A) (body : A → B → M B) (acc : B) : M B :=
  match xs with
  | [] => ret acc
  | x :: rest => acc' <- body x acc ;; for_each rest body acc'
  end.

(** [[e for e in items if e['tick'] <= tick]]. *)
Fixpoint events_upto (tick : Z) (items : list json) : M (list json) :=
  match items with
  | [] => ret []
  | e :: rest =>
      value <- lift (getitem e "tick") ;;
      keep <- lift (le_int value tick) ;;
      selected <- events_upto tick rest ;;
      ret (if keep then e :: selected else selected)
  end.

(** [ReplayAudit.simulate_universe_state]. *)
Definition simulate_universe_state (tick : Z) : M string :=
  s <- get_self ;;
  items <- lift (iter (events s)) ;;
  selected <- events_upto tick items ;;
  let hash_input :=
    str_int (seed s) +:+ ":" +:+ str_int tick +:+ ":" +:+
    str_int (Z.of_nat (length selected)) in
  ret (hex (sha256 (encode hash_input))).

(** [ReplayAudit.run_replay]. *)
Definition run_replay : M bool :=
  print "🔄 Starting deterministic replay..." ;;
  for_each (ReplayAudit.range 0 101) (fun tick (_ : unit) =>
      hash_value <- simulate_universe_state tick ;;
      append_hash_trajectory (tick, hash_value) ;;
      if (tick mod 10 =? 0)%Z
      then print ("  Tick " +:+ ReplayRun.format_3d tick +:+ ": hash=" +:+
                  Py.slice_to 16 hash_value +:+ "...")
      else ret tt) tt ;;
  print "✅ Replay completed" ;;
  ret true.

(** The comparison loop of [verify_hash_stability], from index [i] on. *)
Fixpoint compare_trajectories (i : Z) (pairs : list (string * string)) : M bool :=
  match pairs with
  | [] => print "✅ Hash stability verified" ;; ret true
  | (h1, h2) :: rest =>
      if negb (String.eqb h1 h2) then
        set_divergence_point i ;;
        set_audit_result "FAIL" ;;
        print ("❌ Hash divergence at tick " +:+ str_int i +:+ ": " +:+
               Py.slice_to 16 h1 +:+ " != " +:+ Py.slice_to 16 h2) ;;
        ret false
      else compare_trajectories (i + 1) rest
  end.

(** The two runs of [verify_hash_stability]. *)
Definition replay_twice : M (list string * list string) :=
  for_each [0; 1]%Z (fun run =>
    for_each (ReplayAudit.range 0 101) (fun tick '(hash_trajectory_1, hash_trajectory_2) =>
      hash_value <- simulate_universe_state tick ;;
      ret (if (run =? 0)%Z
           then (hash_trajectory_1 ++ [hash_value], hash_trajectory_2)
           else (hash_trajectory_1, hash_trajectory_2 ++ [hash_value]))))
    ([], []).

(** [ReplayAudit.verify_hash_stability]. *)
Definition verify_hash_stability : M bool :=
  print "🔍 Verifying hash stability..." ;;
  trajectories <- replay_twice ;;
  compare_trajectories 0 (zip (fst trajectories) (snd trajectories)).

Section Runtime.
Variable py : runtime.

(** The body of the [if] of [verify_hash_chain], for the event whose
    [prev_hash] is not the expected one. *)
Definition report_break (event prev_hash event_prev_hash : json) : M bool :=
  tick <- lift (get event "tick" (JStr "?")) ;;
  print ("❌ Hash chain broken at tick " +:+ str py tick) ;;
  expected <- lift (slice_to py 16 prev_hash) ;;
  print ("  Expected prev_hash: " +:+ str py expected) ;;
  found <- lift (slice_to py 16 event_prev_hash) ;;
  print ("  Found prev_hash: " +:+ str py found) ;;
  set_audit_result "FAIL" ;;
  ret false.

(** The loop of [verify_hash_chain]; [prev_hash] is the local variable. *)
Fixpoint chain_loop (prev_hash : json) (items : list json) : M bool :=
  match items with
  | [] => print "✅ Hash-chain integrity verified" ;; ret true
  | event :: rest =>
      event_hash <- lift (get event "hash" (JStr "")) ;;
      event_prev_hash <- lift (get event "prev_hash" (JStr "")) ;;
      if truthy event_prev_hash && ne event_prev_hash prev_hash
      then report_break event prev_hash event_prev_hash
      else chain_loop event_hash rest
  end.

(** [ReplayAudit.verify_hash_chain]. *)
Definition verify_hash_chain : M bool :=
  print "🔗 Verifying hash-chain integrity..." ;;
  s <- get_self ;;
  items <- lift (iter (events s)) ;;
  chain_loop (JStr (ReplayAudit.str_mul "0" 64)) items.

(** [ReplayAudit.generate_audit_report]. *)
Definition generate_audit_report : M ReplayRun.Report.t :=
  s <- get_self ;;
  event_count <- lift (len (events s)) ;;
  first <- (if truthy (events s)
            then e <- lift (first_item (events s)) ;; lift (getitem e "tick")
            else ret (JInt 0)) ;;
  final <- (if truthy (events s)
            then e <- lift (last_item (events s)) ;; lift (getitem e "tick")
            else ret (JInt 0)) ;;
  ret (ReplayRun.Report.Make
         (ReplayRun.AuditMetadata.Make (seed s) event_count
            (str py first +:+ "-" +:+ str py final)
            (audit_result s) (divergence_point s))
         (hash_trajectory s)
         (ReplayRun.VerificationResults.Make
            (String.eqb (audit_result s) "PASS")
            (String.eqb (audit_result s) "PASS")
            "NOT_TESTED_PHASE0")
         (ReplayRun.Compliance.Make true true true true true)).

Section Files.

(** The files and the command line: reading the events file gives the value
    parsed from it or, when it cannot be opened or parsed, the text of the
    exception; writing a file succeeds ([None]) or gives the text of the
    exception; [json_dumps] is [json.dumps(report, indent=2, default=str)];
    [parse_args] is the parser built by [main]. *)
Variable json_load : string → string + json.
Variable json_dumps : ReplayRun.Report.t → string.
Variable write_file : string → string → option string.

(** [ReplayAudit.load_events].  The value parsed is stored before its length
    is taken for the line printed, and a value without a length is caught
    like a file that cannot be read. *)
Definition load_events : M bool :=
  s <- get_self ;;
  match json_load (events_file s) with
  | inr value =>
      set_events value ;;
      match len value with
      | Returns n =>
          print ("✅ Loaded " +:+ str_int (Z.of_nat n) +:+
                 " events from " +:+ events_file s) ;;
          ret true
      | Raises _ =>
          print ("❌ Failed to load events: " +:+ len_error value) ;;
          ret false
      end
  | inl e =>
      print ("❌ Failed to load events: " +:+ e) ;;
      ret false
  end.

(** [ReplayAudit.save_report]. *)
Definition save_report (report : ReplayRun.Report.t) (output_file : string) : M unit :=
  match write_file output_file (json_dumps report) with
  | None => print ("✅ Audit report saved to " +:+ output_file)
  | Some e => print ("❌ Failed to save report: " +:+ e)
  end.

(** [ReplayAudit.run_audit]; [output_file] is [None] or a file name. *)
Definition run_audit (output_file : option string) : M bool :=
  s <- get_self ;;
  print "🚀 Starting Phase 0 Replay Audit" ;;
  print ("   Seed: " +:+ str_int (seed s)) ;;
  print ("   Events: " +:+ events_file s) ;;
  print "" ;;
  loaded <- load_events ;;
  if negb loaded then ret false else
  replayed <- run_replay ;;
  if negb replayed then ret false else
  stable <- verify_hash_stability ;;
  if negb stable then ret false else
  linked <- verify_hash_chain ;;
  if negb linked then ret false else
  report <- generate_audit_report ;;
  match output_file with
  | Some file =>
      if String.eqb file "" then print (json_dumps report)
      else save_report report file
  | None => print (json_dumps report)
  end ;;
  print "" ;;
  s' <- get_self ;;
  print ("🏁 Audit " +:+ audit_result s') ;;
  ret (String.eqb (audit_result s') "PASS").

(** What [parser.parse_args()] does with the command line: it returns the
    values of [--seed], [--events] and [--output], or ends the process with
    an exit code of its own. *)
Inductive parsed :=
  | Namespace (seed : Z) (events : string) (output : option string)
  | SystemExit (code : Z).

Variable parse_args : list string → parsed.

(** [main]: the exit code of the process; an exception that nothing catches
    ends it with code 1. *)
Definition main (argv : list string) : Z :=
  match parse_args argv with
  | SystemExit code => code
  | Namespace seed events output =>
      match run_audit output (World (Audit seed events (JList []) [] None "PASS") []) with
      | (Returns success, _) => if success then 0 else 1
      | (Raises _, _) => 1
      end
  end%Z.

End Files.

End Runtime.

(** *** The checks without their effects *)

(** The exception of [e['tick'] <= tick], which does not depend on [tick]. *)
Definition tick_error (e : json) : option exn :=
  match getitem e "tick" with
  | Raises x => Some x
  | Returns value =>
      match le_int value 0 with
      | Raises x => Some x
      | Returns _ => None
      end
  end.

(** An object whose ['tick'] is a [bool], an [int] or a [float]. *)
Definition has_number_tick (e : json) : bool :=
  match e with
  | JDict d =>
      match item "tick" d with
      | Some (JBool _ | JInt _ | JFloat _) => true
      | _ => false
      end
  | _ => false
  end.

(** An object without a ['tick']. *)
Definition lacks_tick (e : json) : bool :=
  match e with
  | JDict d => match item "tick" d with None => true | Some _ => false end
  | _ => false
  end.

(** The test of the comprehension, where it raises nothing. *)
Definition upto (tick : Z) (e : json) : bool :=
  match getitem e "tick" with
  | Returns value =>
      match le_int value tick with
      | Returns keep => keep
      | Raises _ => false
      end
  | Raises _ => false
  end.

(** The hash of [simulate_universe_state] over the [items] of the events. *)
Definition simulated_hash (seed tick : Z) (items : list json) : string :=
  hex (sha256 (encode
    (str_int seed +:+ ":" +:+ str_int tick +:+ ":" +:+
     str_int (Z.of_nat (length (List.filter (upto tick) items)))))).

(** What stops [simulate_universe_state], whatever the tick: events that
    cannot be gone through, or the first element whose test raises. *)
Definition replay_error (v : json) : option exn :=
  match iter v with
  | Raises x => Some x
  | Returns items => head (omap tick_error items)
  end.

(** The elements of the events, none when they cannot be gone through. *)
Definition items_of (v : json) : list json :=
  match iter v with
  | Returns items => items
  | Raises _ => []
  end.

(** The entries that [run_replay] appends and the lines that it prints for
    the given ticks. *)
Definition replayed (seed : Z) (items : list json) (ticks : list Z) : list (Z * string) :=
  map (fun tick => (tick, simulated_hash seed tick items)) ticks.

Definition progress_lines (seed : Z) (items : list json) (ticks : list Z) : list string :=
  flat_map (fun tick =>
              if (tick mod 10 =? 0)%Z
              then ["  Tick " +:+ ReplayRun.format_3d tick +:+ ": hash=" +:+
                    Py.slice_to 16 (simulated_hash seed tick items) +:+ "..."]
              else []) ticks.

(** [self] with other fields. *)
Definition with_events (v : json) (s : ReplayAudit) : ReplayAudit :=
  Audit (seed s) (events_file s) v (hash_trajectory s)
        (divergence_point s) (audit_result s).

Definition with_trajectory (t : list (Z * string)) (s : ReplayAudit) : ReplayAudit :=
  Audit (seed s) (events_file s) (events s) t (divergence_point s) (audit_result s).

Definition failed (s : ReplayAudit) : ReplayAudit :=
  Audit (seed s) (events_file s) (events s) (hash_trajectory s)
        (divergence_point s) "FAIL".

Definition diverged (i : Z) (s : ReplayAudit) : ReplayAudit :=
  Audit (seed s) (events_file s) (events s) (hash_trajectory s) (Some i) "FAIL".

(** [event.get('hash', '')], [event.get('prev_hash', '')] and
    [event.get('tick', '?')] of an object. *)
Definition field (key : string) (default : json) (e : json) : json :=
  match e with
  | JDict d => from_option id default (item key d)
  | _ => default
  end.

Definition hash_of : json → json := field "hash" (JStr "").
Definition prev_hash_of : json → json := field "prev_hash" (JStr "").
Definition tick_of : json → json := field "tick" (JStr "?").

Definition is_object (e : json) : bool :=
  match e with
  | JDict _ => true
  | _ => false
  end.

(** The test of [verify_hash_chain] on an object: its [prev_hash] is falsy
    or equal to the hash expected. *)
Definition links (expected e : json) : bool :=
  negb (truthy (prev_hash_of e) && ne (prev_hash_of e) expected).

(** The hash that the [prev_hash] of the element at position [i] is compared
    with: 64 zeros for the first one, the [hash] of the element before it
    otherwise. *)
Definition expected_before (items : list json) (i : nat) : json :=
  match i with
  | O => JStr (ReplayAudit.str_mul "0" 64)
  | S j => from_option hash_of (JStr "") (items !! j)
  end.

(** The first element that stops the scan of [verify_hash_chain], with the
    hash expected there: one that is not an object, or whose [prev_hash]
    does not link. *)
Fixpoint first_stop (prev : json) (items : list json) : option (json * json) :=
  match items with
  | [] => None
  | e :: rest =>
      if is_object e && links prev e then first_stop (hash_of e) rest
      else Some (e, prev)
  end.

(** A value that [[:16]] can be taken of. *)
Definition sliceable (v : json) : bool :=
  match v with
  | JStr _ | JList _ => true
  | _ => false
  end.

(** The exception of [v[:16]] for a value that is not sliceable. *)
Definition slice_error (py : runtime) (v : json) : exn :=
  match v with
  | JDict _ => if slice_hashable py then KeyError (SliceTo 16) else TypeError
  | _ => TypeError
  end.

(** [v[:16]] as the f-string writes it. *)
Definition sliced (py : runtime) (v : json) : string :=
  match v with
  | JStr s => Py.slice_to 16 s
  | JList xs => repr py (JList (take 16 xs))
  | _ => ""
  end.

(** The lines printed when the chain breaks at the object [e], [expected]
    being the hash before it, if both slices can be taken. *)
Definition break_report (py : runtime) (e expected : json) : list string :=
  [ "❌ Hash chain broken at tick " +:+ str py (tick_of e);
    "  Expected prev_hash: " +:+ sliced py expected;
    "  Found prev_hash: " +:+ sliced py (prev_hash_of e) ].

(** What [verify_hash_chain] does at the element [e] that stops its scan:
    [AttributeError] for an element that is not an object; otherwise the
    lines of the report up to the first slice that cannot be taken, and
    ['FAIL'] only after the last of them. *)
Definition stop_outcome (py : runtime) (e expected : json) (w : world)
    : result bool * world :=
  if negb (is_object e) then (Raises AttributeError, w)
  else if negb (sliceable expected) then
    (Raises (slice_error py expected),
     World (self w) (stdout w ++ take 1 (break_report py e expected)))
  else if negb (sliceable (prev_hash_of e)) then
    (Raises (slice_error py (prev_hash_of e)),
     World (self w) (stdout w ++ take 2 (break_report py e expected)))
  else
    (Returns false,
     World (failed (self w)) (stdout w ++ break_report py e expected)).

(** Its result alone. *)
Definition stop_result (py : runtime) (e expected : json) : result bool :=
  if negb (is_object e) then Raises AttributeError
  else if negb (sliceable expected) then Raises (slice_error py expected)
  else if negb (sliceable (prev_hash_of e)) then Raises (slice_error py (prev_hash_of e))
  else Returns false.

(** The lines of [run_audit] before the events are loaded. *)
Definition banner (s : ReplayAudit) : list string :=
  [ "🚀 Starting Phase 0 Replay Audit";
    "   Seed: " +:+ str_int (seed s);
    "   Events: " +:+ events_file s;
    "" ].

(** *** Objects of the expected types *)

(** The JSON object of a typed event. *)
Definition of_event (e : ReplayAudit.Event.t) : json :=
  JDict
    (from_option (fun t => [("tick", JInt t)]) [] (ReplayAudit.Event.tick e) ++
     from_option (fun h => [("hash", JStr h)]) [] (ReplayAudit.Event.hash e) ++
     from_option (fun h => [("prev_hash", JStr h)]) [] (ReplayAudit.Event.prev_hash e)).

Definition of_audit (s : ReplayAudit.ReplayAudit) : ReplayAudit :=
  Audit (ReplayAudit.seed s) (ReplayAudit.events_file s)
        (JList (map of_event (ReplayAudit.events s)))
        (ReplayAudit.hash_trajectory s) (ReplayAudit.divergence_point s)
        (ReplayAudit.audit_result s).

Definition of_world (w : ReplayAudit.world) : world :=
  World (of_audit (ReplayAudit.self w)) (ReplayAudit.stdout w).

Definition of_exn (e : ReplayAudit.exn) : exn :=
  match e with
  | ReplayAudit.KeyError key => KeyError (Key (JStr key))
  end.

Definition of_result {A} (r : ReplayAudit.result A) : result A :=
  match r with
  | ReplayAudit.Returns a => Returns a
  | ReplayAudit.Raises e => Raises (of_exn e)
  end.

Definition of_outcome {A} (o : ReplayAudit.result A * ReplayAudit.world)
    : result A * world :=
  (of_result (fst o), of_world (snd o)).

End Replay.

(** ** Equality of the events of the determinism audit *)

Module EventEq.

(** Two events are equal when their four fields are; this can be decided. *)
#[export] Instance event_eq_dec : EqDecision DeterminismAudit.Event.t.
Proof. solve_decision. Defined.

End EventEq.

(** ** Concrete events files *)

Module ReplaySamples.
Import Json Replay.
Local Open Scope Z_scope.

(** The event [Samples.spawn] with another time stamp. *)
Definition respawn : DeterminismAudit.Event.t :=
  DeterminismAudit.Event.Make 1 "spawn" "{}" "2026-03-05".

(** An events file of two chained objects; the tick of the second is the
    float 1.5. *)
Definition events : json :=
  JList
    [ JDict [("tick", JInt 0); ("hash", JStr "a0")];
      JDict [("tick", JFloat (S754_finite false 3 (-1))); ("hash", JStr "b1");
             ("prev_hash", JStr "a0")] ].

Definition audit : ReplayAudit := Audit 1337 "events.json" events [] None "PASS".

(** An events file whose only object has a [null] tick, and one whose first
    object has a [null] hash. *)
Definition null_tick : json := JList [JDict [("tick", JNull)]].

Definition null_hash : json :=
  JList [ JDict [("tick", JInt 0); ("hash", JNull)];
          JDict [("tick", JInt 1); ("prev_hash", JStr "a0")] ].

End ReplaySamples.

(** * Properties *)

(** ** The replay loop *)

Section ReplayLoop.
Import Py DeterminismAudit Closed.

Lemma hex_byte_unhex b s : unhex (hex_byte b +:+ s) = b :: unhex s.
Proof. destruct b; reflexivity. Qed.

Lemma unhex_hex bs : unhex (hex bs) = bs.
Proof.
  induction bs as [|b bs IH]; [reflexivity|].
  change (hex (b :: bs)) with (hex_byte b +:+ hex bs).
  rewrite hex_byte_unhex. by rewrite IH.
Qed.

Lemma hex_inj bs bs' : hex bs = hex bs' → bs = bs'.
Proof. intros E. rewrite <- (unhex_hex bs), <- (unhex_hex bs'). by rewrite E. Qed.

Lemma replay_body_hashes v event :
  Universe.rng_state (universe_state v) = rng_state v →
  replay_hashes (replay_body v event) =
    replay_hashes v ++ [(Event.tick event, hex (Design.event_digest event (rng_state v)))].
Proof. intros E. unfold replay_body, Design.event_digest. cbn. by rewrite E. Qed.

Lemma replay_body_rng v event :
  rng_state (replay_body v event) = sha256 (rng_state v ++ encode "tick") ∧
  Universe.rng_state (universe_state (replay_body v event)) =
    rng_state (replay_body v event).
Proof. done. Qed.

Lemma fold_replay_body events : ∀ v,
  Universe.rng_state (universe_state v) = rng_state v →
  replay_hashes (fold_left replay_body events v) =
    replay_hashes v ++
    imap (fun i e =>
            (Event.tick e,
             hex (Design.event_digest e
                    (Nat.iter i (fun r => sha256 (r ++ encode "tick")) (rng_state v)))))
         events.
Proof.
  induction events as [|e events IH]; intros v Hv.
  - cbn. by rewrite app_nil_r.
  - cbn [fold_left]. destruct (replay_body_rng v e) as [Hr Hu].
    rewrite (IH _ Hu), (replay_body_hashes _ _ Hv), Hr, <- app_assoc.
    f_equal. cbn [imap app Nat.iter]. f_equal.
    apply imap_ext. intros i x _. unfold compose. by rewrite Nat.iter_succ_r.
Qed.

Lemma replay_closed_form self events :
  replay_deterministically self events = imap (entry_at (seed self)) events.
Proof.
  unfold replay_deterministically. by rewrite fold_replay_body.
Qed.

Lemma replay_ticks self events :
  map fst (replay_deterministically self events) = map Event.tick events.
Proof.
  rewrite replay_closed_form. apply list_eq. intros i.
  rewrite !list_lookup_fmap, list_lookup_imap.
  by destruct (events !! i).
Qed.

Lemma replay_length self events :
  length (replay_deterministically self events) = length events.
Proof. by rewrite replay_closed_form, length_imap. Qed.

Lemma replay_lookup self events i :
  replay_deterministically self events !! i = entry_at (seed self) i <$> events !! i.
Proof. by rewrite replay_closed_form, list_lookup_imap. Qed.

End ReplayLoop.

(** ** The comparator *)

Section Comparator.
Import Py DeterminismAudit Closed.

Lemma replay_hash_dict_snoc l th :
  replay_hash_dict (l ++ [th]) = <[fst th := snd th]> (replay_hash_dict l).
Proof. unfold replay_hash_dict. by rewrite fold_left_app. Qed.

(** The lookup table holds, for each tick, the last digest listed for it. *)
Lemma replay_hash_dict_lookup l t : replay_hash_dict l !! t = last_for t l.
Proof.
  unfold last_for. induction l as [|th l IH] using rev_ind; [done|].
  rewrite replay_hash_dict_snoc, filter_app, lookup_insert.
  rewrite filter_cons, filter_nil. cbn. case_decide as Ht.
  - by rewrite last_snoc.
  - by rewrite app_nil_r.
Qed.

Lemma verify_body_app d acc c : verify_body d acc c = acc ++ verify_body d [] c.
Proof.
  unfold verify_body. destruct (d !! Checkpoint.tick c); [|done].
  case_decide; [done|]. by rewrite app_nil_r.
Qed.

Lemma fold_verify_body d cps : ∀ acc,
  fold_left (verify_body d) cps acc = acc ++ (cps ≫= verify_body d []).
Proof.
  induction cps as [|c cps IH]; intros acc; cbn [fold_left].
  - by rewrite app_nil_r.
  - rewrite IH, bind_cons, verify_body_app. by rewrite <- app_assoc.
Qed.

(** The result of the comparator in terms of the list of divergences. *)
Lemma verify_hash_chain_divergences self cps hashes :
  snd (verify_hash_chain self cps hashes) = cps ≫= verify_body (replay_hash_dict hashes) [] ∧
  fst (verify_hash_chain self cps hashes) =
    bool_decide (cps ≫= verify_body (replay_hash_dict hashes) [] = []).
Proof.
  unfold verify_hash_chain. rewrite fold_verify_body. cbn [app].
  by destruct (cps ≫= _).
Qed.

Lemma verify_hash_chain_eq self cps hashes hashes' :
  (∀ c, c ∈ cps →
        replay_hash_dict hashes !! Checkpoint.tick c =
        replay_hash_dict hashes' !! Checkpoint.tick c) →
  verify_hash_chain self cps hashes = verify_hash_chain self cps hashes'.
Proof.
  intros H. unfold verify_hash_chain. rewrite !fold_verify_body. cbn [app].
  assert (cps ≫= verify_body (replay_hash_dict hashes) [] =
          cps ≫= verify_body (replay_hash_dict hashes') []) as ->; [|done].
  induction cps as [|c cps IH]; [done|].
  rewrite !bind_cons. rewrite IH by (intros; apply H; by right).
  f_equal. unfold verify_body. by rewrite H by left.
Qed.

Lemma verify_body_tick d c x : x ∈ verify_body d [] c → Divergence.tick x = Checkpoint.tick c.
Proof.
  unfold verify_body. destruct (d !! Checkpoint.tick c); [case_decide|];
    cbn [app]; intros Hx.
  - apply list_elem_of_singleton in Hx. by subst.
  - by apply not_elem_of_nil in Hx.
  - apply list_elem_of_singleton in Hx. by subst.
Qed.

End Comparator.

(** ** The Phase 0 replay audit *)

Section ReplayAuditFacts.
Import Py ReplayAudit Chain.
Local Open Scope py_scope.

Lemma bind_returns {A B} (m : M A) (k : A → M B) w a w' :
  m w = (Returns a, w') → bind m k w = k a w'.
Proof. unfold bind. by intros ->. Qed.

Lemma bind_raises {A B} (m : M A) (k : A → M B) w e w' :
  m w = (Raises e, w') → bind m k w = (Raises e, w').
Proof. unfold bind. by intros ->. Qed.

Lemma events_upto_spec tick evs w :
  events_upto tick evs w =
    (if forallb has_tick evs then Returns (List.filter (upto tick) evs)
     else Raises (KeyError "tick"), w).
Proof.
  induction evs as [|e evs IH]; [done|].
  cbn [events_upto forallb List.filter]. unfold has_tick at 1, upto at 1.
  destruct (Event.tick e) as [t|]; [|done].
  unfold bind. rewrite IH. cbn. by destruct (forallb has_tick evs).
Qed.

Lemma simulate_universe_state_spec tick w :
  simulate_universe_state tick w =
    (if forallb has_tick (events (self w)) then Returns (simulated_hash (self w) tick)
     else Raises (KeyError "tick"), w).
Proof.
  unfold simulate_universe_state, bind, get_self. rewrite events_upto_spec.
  by destruct (forallb has_tick (events (self w))).
Qed.

Lemma filter_length_permutation {A} (f : A → bool) l l' :
  l ≡ₚ l' → length (List.filter f l) = length (List.filter f l').
Proof.
  induction 1 as [|x l l' _ IH|x y l|l l' l'' _ IH1 _ IH2]; cbn;
    [done| |by destruct (f x), (f y)|congruence].
  destruct (f x); cbn; congruence.
Qed.

Lemma forallb_permutation {A} (f : A → bool) l l' :
  l ≡ₚ l' → forallb f l = forallb f l'.
Proof.
  induction 1 as [|x l l' _ IH|x y l|l l' l'' _ IH1 _ IH2]; cbn;
    [done|congruence| |congruence].
  by destruct (f x), (f y).
Qed.

Lemma stability_run (run : Z) ticks : ∀ t1 t2 w,
  forallb has_tick (events (self w)) = true →
  for_each ticks (fun tick '(hash_trajectory_1, hash_trajectory_2) =>
      hash_value <- simulate_universe_state tick ;;
      ret (if (run =? 0)%Z
           then (hash_trajectory_1 ++ [hash_value], hash_trajectory_2)
           else (hash_trajectory_1, hash_trajectory_2 ++ [hash_value])))
    (t1, t2) w =
  (Returns (if (run =? 0)%Z
            then (t1 ++ map (simulated_hash (self w)) ticks, t2)
            else (t1, t2 ++ map (simulated_hash (self w)) ticks)), w).
Proof.
  induction ticks as [|tick ticks IH]; intros t1 t2 w Hw.
  - cbn. rewrite !app_nil_r. by destruct (run =? 0)%Z.
  - cbn [for_each map]. unfold bind at 1 2.
    rewrite simulate_universe_state_spec, Hw. cbn [ret].
    destruct (run =? 0)%Z eqn:Hrun.
    + rewrite (IH _ _ _ Hw). by rewrite <- app_assoc.
    + rewrite (IH _ _ _ Hw). by rewrite <- app_assoc.
Qed.

Lemma stability_run_raises (run : Z) tick ticks t1 t2 w :
  forallb has_tick (events (self w)) = false →
  for_each (tick :: ticks) (fun tick '(hash_trajectory_1, hash_trajectory_2) =>
      hash_value <- simulate_universe_state tick ;;
      ret (if (run =? 0)%Z
           then (hash_trajectory_1 ++ [hash_value], hash_trajectory_2)
           else (hash_trajectory_1, hash_trajectory_2 ++ [hash_value])))
    (t1, t2) w =
  (Raises (KeyError "tick"), w).
Proof.
  intros Hw. cbn [for_each]. unfold bind at 1 2.
  by rewrite simulate_universe_state_spec, Hw.
Qed.

Lemma compare_trajectories_same l : ∀ i w,
  compare_trajectories i (zip l l) w =
    (Returns true, World (self w) (stdout w ++ ["✅ Hash stability verified"])).
Proof.
  induction l as [|h l IH]; intros i w; [done|].
  cbn [zip zip_with compare_trajectories]. rewrite decide_False by naive_solver.
  apply IH.
Qed.

(** The self-check replays twice and compares: it finds no divergence, and
    leaves [self] as it was. *)
Lemma verify_hash_stability_spec w :
  verify_hash_stability w =
    if forallb has_tick (events (self w))
    then (Returns true,
          World (self w)
                (stdout w ++ ["🔍 Verifying hash stability..."; "✅ Hash stability verified"]))
    else (Raises (KeyError "tick"),
          World (self w) (stdout w ++ ["🔍 Verifying hash stability..."])).
Proof.
  unfold verify_hash_stability. unfold bind at 1, print at 1.
  set (w1 := World (self w) (stdout w ++ [_])).
  destruct (forallb has_tick (events (self w))) eqn:Hw.
  - unfold bind at 1. cbn [for_each]. unfold bind at 1.
    rewrite (stability_run 0 _ [] [] w1 Hw). cbn [Z.eqb app].
    unfold bind at 1.
    rewrite (stability_run 1 _ _ [] w1 Hw). cbn [Z.eqb app ret fst snd].
    rewrite compare_trajectories_same. cbn. by rewrite <- app_assoc.
  - unfold bind at 1. cbn [for_each]. unfold bind at 1.
    change (range 0 101) with (0%Z :: range 1 100).
    by rewrite (stability_run_raises 0 _ _ [] [] w1 Hw).
Qed.

Lemma chain_loop_spec evs : ∀ prev w,
  chain_loop prev evs w =
    match first_break prev evs with
    | None =>
        (Returns true,
         World (self w) (stdout w ++ ["✅ Hash-chain integrity verified"]))
    | Some (e, expected) =>
        (Returns false,
         World (failed (self w)) (stdout w ++ break_report e expected))
    end.
Proof.
  induction evs as [|e evs IH]; intros prev w; [done|].
  cbn [chain_loop first_break]. fold (prev_hash_of e). fold (hash_of e).
  destruct (bool_decide (prev_hash_of e ≠ "") && bool_decide (prev_hash_of e ≠ prev)).
  - unfold break_report, tick_text, failed. cbn. by rewrite <- !app_assoc.
  - apply IH.
Qed.

Lemma verify_hash_chain_spec w :
  verify_hash_chain w =
    match first_break (str_mul "0" 64) (events (self w)) with
    | None =>
        (Returns true,
         World (self w)
               (stdout w ++ ["🔗 Verifying hash-chain integrity...";
                             "✅ Hash-chain integrity verified"]))
    | Some (e, expected) =>
        (Returns false,
         World (failed (self w))
               (stdout w ++ "🔗 Verifying hash-chain integrity..." :: break_report e expected))
    end.
Proof.
  unfold verify_hash_chain. unfold bind at 1, print at 1.
  unfold bind at 1, get_self at 1. cbn [self].
  rewrite chain_loop_spec. cbn [self stdout].
  destruct (first_break _ _) as [[e expected]|]; by rewrite <- app_assoc.
Qed.

Lemma first_break_app pre : ∀ prev rest,
  first_break prev pre = None →
  first_break prev (pre ++ rest) = first_break (expected_after prev pre) rest.
Proof.
  induction pre as [|e pre IH]; intros prev rest; [done|].
  cbn [first_break app].
  destruct (bool_decide _ && bool_decide _); [done|].
  intros H. rewrite (IH _ _ H). f_equal. unfold expected_after.
  rewrite last_cons. by destruct (last pre).
Qed.

Lemma first_break_prefix pre : ∀ prev rest,
  first_break prev (pre ++ rest) = None → first_break prev pre = None.
Proof.
  induction pre as [|e pre IH]; intros prev rest; [done|].
  cbn [first_break app].
  destruct (bool_decide _ && bool_decide _); [done|]. apply IH.
Qed.

Lemma first_break_linked evs : ∀ prev,
  (∀ e, evs !! 0%nat = Some e → prev_hash_of e = "" ∨ prev_hash_of e = prev) →
  (∀ i e e', evs !! i = Some e → evs !! S i = Some e' → prev_hash_of e' = hash_of e) →
  first_break prev evs = None.
Proof.
  induction evs as [|e evs IH]; intros prev H0 H1; [done|].
  cbn [first_break].
  assert (bool_decide (prev_hash_of e ≠ "") && bool_decide (prev_hash_of e ≠ prev)
          = false) as ->.
  { destruct (H0 e eq_refl) as [E|E].
    - by rewrite bool_decide_false by naive_solver.
    - rewrite (bool_decide_false (_ ≠ prev)) by naive_solver.
      apply andb_false_r. }
  apply IH; [|intros i a b; apply (H1 (S i))].
  intros e' He'. right. by apply (H1 0%nat e e').
Qed.

End ReplayAuditFacts.

(** ** The replay audit on any events file *)

Section ReplayValueFacts.
Import Py Json Replay.
Local Open Scope replay_scope.

Lemma replay_bind_returns {A B} (m : M A) (k : A → M B) w a w' :
  m w = (Returns a, w') → bind m k w = k a w'.
Proof. unfold bind. by intros ->. Qed.

Lemma replay_bind_raises {A B} (m : M A) (k : A → M B) w e w' :
  m w = (Raises e, w') → bind m k w = (Raises e, w').
Proof. unfold bind. by intros ->. Qed.

Lemma tick_error_cases e :
  match tick_error e with
  | None => has_number_tick e = true ∧ lacks_tick e = false
  | Some x =>
      has_number_tick e = false ∧
      (x = KeyError (Key (JStr "tick")) ∧ lacks_tick e = true ∨
       x = TypeError ∧ lacks_tick e = false)
  end.
Proof.
  unfold tick_error, has_number_tick, lacks_tick, getitem.
  destruct e as [| | | | |xs|d]; try (split; [done|by right]).
  destruct (item "tick" d) as [value|]; [|split; [done|by left]].
  destruct value; cbn; try done; split; try done; by right.
Qed.

Lemma events_upto_json tick items w :
  events_upto tick items w =
    (match head (omap tick_error items) with
     | Some x => Raises x
     | None => Returns (List.filter (upto tick) items)
     end, w).
Proof.
  induction items as [|e items IH]; [done|].
  cbn [events_upto omap list_omap List.filter]. unfold bind at 1, lift at 1.
  unfold tick_error at 1, upto at 1.
  destruct (getitem e "tick") as [value|x]; [|done].
  unfold bind at 1, lift at 1.
  destruct value; cbn [le_int]; try done;
    unfold bind at 1; rewrite IH; cbn.
  all: by destruct (head (omap tick_error items)).
Qed.

Lemma simulate_universe_state_json tick w :
  simulate_universe_state tick w =
    (match replay_error (events (self w)) with
     | Some x => Raises x
     | None =>
         Returns (simulated_hash (seed (self w)) tick (items_of (events (self w))))
     end, w).
Proof.
  unfold simulate_universe_state, replay_error, items_of.
  unfold bind at 1, get_self at 1. unfold bind at 1, lift at 1.
  destruct (iter (events (self w))) as [items|x]; [|done].
  unfold bind at 1. rewrite events_upto_json.
  by destruct (head (omap tick_error items)).
Qed.

Lemma first_tick_error_None items :
  head (omap tick_error items) = None ↔ forallb has_number_tick items = true.
Proof.
  induction items as [|e items IH]; [done|].
  cbn [omap list_omap forallb]. pose proof (tick_error_cases e) as He.
  destruct (tick_error e) as [x|].
  - destruct He as [-> _]. by cbn.
  - destruct He as [-> _]. by rewrite IH.
Qed.

Lemma first_tick_error_Some items x :
  head (omap tick_error items) = Some x ↔
  ∃ pre e post, items = pre ++ e :: post ∧
    forallb has_number_tick pre = true ∧ tick_error e = Some x.
Proof.
  induction items as [|e items IH].
  - split; [done|]. intros (pre & e & post & H & _). by destruct pre.
  - cbn [omap list_omap]. pose proof (tick_error_cases e) as He.
    destruct (tick_error e) as [y|] eqn:Hy.
    + cbn. split.
      * intros [= ->]. by exists [], e, items.
      * intros (pre & e' & post & H & Hpre & He').
        destruct pre as [|a pre]; cbn in H; simplify_eq; [congruence|].
        cbn in Hpre. destruct He as [He _]. by rewrite He in Hpre.
    + rewrite IH. split.
      * intros (pre & e' & post & -> & Hpre & He').
        exists (e :: pre), e', post. cbn. destruct He as [-> _]. done.
      * intros (pre & e' & post & H & Hpre & He').
        destruct pre as [|a pre]; cbn in H; simplify_eq.
        cbn in Hpre. apply andb_prop in Hpre as [_ Hpre].
        by exists pre, e', post.
Qed.

Lemma replay_loop_json ticks : ∀ w,
  replay_error (events (self w)) = None →
  for_each ticks (fun tick (_ : unit) =>
      hash_value <- simulate_universe_state tick ;;
      append_hash_trajectory (tick, hash_value) ;;
      if (tick mod 10 =? 0)%Z
      then print ("  Tick " +:+ ReplayRun.format_3d tick +:+ ": hash=" +:+
                  Py.slice_to 16 hash_value +:+ "...")
      else ret tt) tt w =
  (Returns tt,
   World (with_trajectory
            (hash_trajectory (self w) ++
             replayed (seed (self w)) (items_of (events (self w))) ticks) (self w))
         (stdout w ++ progress_lines (seed (self w)) (items_of (events (self w))) ticks)).
Proof.
  induction ticks as [|tick ticks IH]; intros w Hw.
  - cbn. rewrite !app_nil_r. by destruct w as [[]].
  - cbn [for_each]. unfold bind at 1 2.
    rewrite simulate_universe_state_json, Hw.
    unfold bind at 1, append_hash_trajectory at 1.
    cbn [replayed map progress_lines flat_map].
    destruct (tick mod 10 =? 0)%Z.
    + unfold print at 1. rewrite IH by done. cbn.
      unfold with_trajectory. cbn. by rewrite <- !app_assoc.
    + unfold ret at 1. rewrite IH by done. cbn.
      unfold with_trajectory. cbn. by rewrite <- !app_assoc.
Qed.

Lemma run_replay_json w :
  run_replay w =
    match replay_error (events (self w)) with
    | None =>
        (Returns true,
         World (with_trajectory
                  (hash_trajectory (self w) ++
                   replayed (seed (self w)) (items_of (events (self w)))
                     (ReplayAudit.range 0 101)) (self w))
               (stdout w ++ "🔄 Starting deterministic replay..." ::
                progress_lines (seed (self w)) (items_of (events (self w)))
                  (ReplayAudit.range 0 101) ++
                ["✅ Replay completed"]))
    | Some x =>
        (Raises x, World (self w) (stdout w ++ ["🔄 Starting deterministic replay..."]))
    end.
Proof.
  unfold run_replay. unfold bind at 1, print at 1.
  set (w1 := World (self w) (stdout w ++ [_])).
  destruct (replay_error (events (self w))) as [x|] eqn:Hw.
  - unfold bind at 1.
    change (ReplayAudit.range 0 101) with (0%Z :: ReplayAudit.range 1 100).
    cbn [for_each]. unfold bind at 1 2.
    rewrite simulate_universe_state_json. unfold w1. cbn [self]. by rewrite Hw.
  - unfold bind at 1. rewrite (replay_loop_json _ w1) by done.
    cbn. by rewrite <- !app_assoc.
Qed.


Lemma stability_loop_json (run : Z) ticks : ∀ t1 t2 w,
  replay_error (events (self w)) = None →
  for_each ticks (fun tick '(hash_trajectory_1, hash_trajectory_2) =>
      hash_value <- simulate_universe_state tick ;;
      ret (if (run =? 0)%Z
           then (hash_trajectory_1 ++ [hash_value], hash_trajectory_2)
           else (hash_trajectory_1, hash_trajectory_2 ++ [hash_value])))
    (t1, t2) w =
  (Returns (let hashes :=
              map (fun tick => simulated_hash (seed (self w)) tick
                                 (items_of (events (self w)))) ticks in
            if (run =? 0)%Z then (t1 ++ hashes, t2) else (t1, t2 ++ hashes)), w).
Proof.
  induction ticks as [|tick ticks IH]; intros t1 t2 w Hw.
  - cbn. rewrite !app_nil_r. by destruct (run =? 0)%Z.
  - cbn [for_each map]. unfold bind at 1 2.
    rewrite simulate_universe_state_json, Hw. cbn [ret].
    destruct (run =? 0)%Z eqn:Hrun.
    + rewrite (IH _ _ _ Hw). cbn zeta. by rewrite <- app_assoc.
    + rewrite (IH _ _ _ Hw). cbn zeta. by rewrite <- app_assoc.
Qed.

Lemma replay_twice_json w :
  replay_twice w =
    (match replay_error (events (self w)) with
     | Some x => Raises x
     | None =>
         let hashes :=
           map (fun tick => simulated_hash (seed (self w)) tick
                              (items_of (events (self w))))
               (ReplayAudit.range 0 101) in
         Returns (hashes, hashes)
     end, w).
Proof.
  unfold replay_twice. cbn [for_each].
  destruct (replay_error (events (self w))) as [x|] eqn:Hw.
  - unfold bind at 1.
    change (ReplayAudit.range 0 101) with (0%Z :: ReplayAudit.range 1 100).
    cbn [for_each]. unfold bind at 1 2.
    by rewrite simulate_universe_state_json, Hw.
  - unfold bind at 1. rewrite (stability_loop_json 0 _ [] [] w Hw). cbn [Z.eqb app].
    unfold bind at 1. rewrite (stability_loop_json 1 _ _ [] w Hw). by cbn.
Qed.

Lemma compare_trajectories_returns pairs : ∀ i w,
  ∃ b w', compare_trajectories i pairs w = (Returns b, w').
Proof.
  induction pairs as [|[h1 h2] pairs IH]; intros i w; [by eexists _, _|].
  cbn [compare_trajectories]. destruct (negb (h1 =? h2)%string); [|apply IH].
  by eexists _, _.
Qed.

Lemma compare_trajectories_true t1 : ∀ t2 i w,
  (∀ k h1 h2, t1 !! k = Some h1 → t2 !! k = Some h2 → h1 = h2) →
  compare_trajectories i (zip t1 t2) w =
    (Returns true, World (self w) (stdout w ++ ["✅ Hash stability verified"])).
Proof.
  induction t1 as [|a t1 IH]; intros t2 i w H; [done|].
  destruct t2 as [|b t2]; [done|].
  cbn [zip zip_with compare_trajectories].
  rewrite (H 0%nat a b eq_refl eq_refl), String.eqb_refl. cbn [negb].
  apply IH. intros k. apply (H (S k)).
Qed.

Lemma compare_trajectories_false t1 : ∀ t2 k h1 h2 i w,
  t1 !! k = Some h1 → t2 !! k = Some h2 → h1 ≠ h2 → take k t1 = take k t2 →
  compare_trajectories i (zip t1 t2) w =
    (Returns false,
     World (diverged (i + Z.of_nat k) (self w))
           (stdout w ++
            ["❌ Hash divergence at tick " +:+ str_int (i + Z.of_nat k) +:+ ": " +:+
             Py.slice_to 16 h1 +:+ " != " +:+ Py.slice_to 16 h2])).
Proof.
  induction t1 as [|a t1 IH]; intros t2 k h1 h2 i w H1 H2 Hne Htake; [done|].
  destruct t2 as [|b t2]; [done|].
  cbn [zip zip_with compare_trajectories].
  destruct k as [|k].
  - cbn in H1, H2. simplify_eq.
    apply String.eqb_neq in Hne. rewrite Hne. cbn [negb].
    by rewrite Z.add_0_r.
  - cbn in H1, H2, Htake. simplify_eq. rewrite String.eqb_refl. cbn [negb].
    rewrite (IH t2 k h1 h2) by done.
    by replace (i + 1 + Z.of_nat k)%Z with (i + Z.of_nat (S k))%Z by lia.
Qed.

Lemma compare_trajectories_true_inv t1 : ∀ t2 i w,
  fst (compare_trajectories i (zip t1 t2) w) = Returns true →
  ∀ k h1 h2, t1 !! k = Some h1 → t2 !! k = Some h2 → h1 = h2.
Proof.
  induction t1 as [|a t1 IH]; intros t2 i w H k h1 h2 H1 H2; [done|].
  destruct t2 as [|b t2]; [done|].
  cbn [zip zip_with compare_trajectories] in H.
  destruct (String.eqb_spec a b) as [->|Hab]; cbn [negb] in H; [|done].
  destruct k as [|k]; cbn in H1, H2; [congruence|].
  by apply (IH t2 (i + 1)%Z w H k).
Qed.

Lemma verify_hash_stability_json w :
  verify_hash_stability w =
    match replay_error (events (self w)) with
    | None =>
        (Returns true,
         World (self w)
               (stdout w ++ ["🔍 Verifying hash stability..."; "✅ Hash stability verified"]))
    | Some x =>
        (Raises x, World (self w) (stdout w ++ ["🔍 Verifying hash stability..."]))
    end.
Proof.
  unfold verify_hash_stability. unfold bind at 1, print at 1.
  set (w1 := World (self w) (stdout w ++ [_])).
  unfold bind at 1. rewrite replay_twice_json. unfold w1 at 1. cbn [self].
  destruct (replay_error (events (self w))) as [x|]; [done|].
  cbn zeta. cbn [fst snd].
  rewrite compare_trajectories_true by congruence.
  unfold w1. cbn. by rewrite <- app_assoc.
Qed.


Section Runtime.
Variable py : runtime.

Lemma report_break_json d expected w :
  report_break py (JDict d) expected (prev_hash_of (JDict d)) w =
    stop_outcome py (JDict d) expected w.
Proof.
  unfold report_break, stop_outcome, break_report.
  cbn [is_object negb get lift take].
  change (from_option id (JStr "?") (item "tick" d)) with (tick_of (JDict d)).
  generalize (prev_hash_of (JDict d)) (tick_of (JDict d)). intros found tick.
  unfold bind at 1, lift at 1. unfold bind at 1, print at 1.
  unfold bind at 1, lift at 1.
  destruct expected as [| | | |s|xs|d']; cbn [slice_to sliceable negb slice_error];
    try done.
  - unfold bind at 1, print at 1. unfold bind at 1, lift at 1.
    destruct found as [| | | |s'|xs'|d''];
      cbn [slice_to sliceable negb slice_error self stdout sliced str];
      try (by rewrite <- app_assoc).
    + unfold bind at 1, print at 1. unfold bind at 1, set_audit_result at 1.
      cbn. by rewrite <- !app_assoc.
    + unfold bind at 1, print at 1. unfold bind at 1, set_audit_result at 1.
      cbn. by rewrite <- !app_assoc.
  - unfold bind at 1, print at 1. unfold bind at 1, lift at 1.
    destruct found as [| | | |s'|xs'|d''];
      cbn [slice_to sliceable negb slice_error self stdout sliced str];
      try (by rewrite <- app_assoc).
    + unfold bind at 1, print at 1. unfold bind at 1, set_audit_result at 1.
      cbn. by rewrite <- !app_assoc.
    + unfold bind at 1, print at 1. unfold bind at 1, set_audit_result at 1.
      cbn. by rewrite <- !app_assoc.
Qed.

Lemma chain_loop_json items : ∀ prev w,
  chain_loop py prev items w =
    match first_stop prev items with
    | None =>
        (Returns true,
         World (self w) (stdout w ++ ["✅ Hash-chain integrity verified"]))
    | Some (e, expected) => stop_outcome py e expected w
    end.
Proof.
  induction items as [|e items IH]; intros prev w; [done|].
  cbn [chain_loop first_stop].
  destruct e as [| | | | | |d]; try done.
  cbn [is_object andb get lift]. unfold bind at 1, lift at 1.
  unfold bind at 1, lift at 1. unfold links.
  change (from_option id (JStr "") (item "prev_hash" d)) with (prev_hash_of (JDict d)).
  change (from_option id (JStr "") (item "hash" d)) with (hash_of (JDict d)).
  destruct (truthy (prev_hash_of (JDict d)) && ne (prev_hash_of (JDict d)) prev).
  - apply report_break_json.
  - apply IH.
Qed.

Lemma verify_hash_chain_json w :
  verify_hash_chain py w =
    let w1 := World (self w) (stdout w ++ ["🔗 Verifying hash-chain integrity..."]) in
    match iter (events (self w)) with
    | Raises x => (Raises x, w1)
    | Returns items =>
        match first_stop (JStr (ReplayAudit.str_mul "0" 64)) items with
        | None =>
            (Returns true,
             World (self w)
                   (stdout w ++ ["🔗 Verifying hash-chain integrity...";
                                 "✅ Hash-chain integrity verified"]))
        | Some (e, expected) => stop_outcome py e expected w1
        end
    end.
Proof.
  unfold verify_hash_chain. unfold bind at 1, print at 1.
  unfold bind at 1, get_self at 1. cbn [self]. unfold bind at 1, lift at 1.
  destruct (iter (events (self w))) as [items|x]; [|done].
  rewrite chain_loop_json. cbn [self stdout].
  destruct (first_stop _ _) as [[e expected]|]; [done|]. by rewrite <- app_assoc.
Qed.

End Runtime.

(** The value that the element at position [i] is compared with, in a scan
    that starts with [prev]. *)
Lemma first_stop_None items : ∀ prev,
  first_stop prev items = None ↔
  ∀ i e, items !! i = Some e →
    is_object e = true ∧
    links (match i with
           | O => prev
           | S j => from_option hash_of (JStr "") (items !! j)
           end) e = true.
Proof.
  induction items as [|a items IH]; intros prev; [done|].
  cbn [first_stop]. destruct (is_object a && links prev a) eqn:Ha.
  - rewrite IH. apply andb_prop in Ha as [Ha1 Ha2]. split.
    + intros H [|i] e He; cbn in He; simplify_eq; [done|].
      destruct (H i e He) as [H1 H2]. split; [done|].
      destruct i as [|j]; [done|]. by cbn.
    + intros H i e He. destruct (H (S i) e He) as [H1 H2]. split; [done|].
      destruct i as [|j]; [done|]. by cbn in H2.
  - split; [done|]. intros H. destruct (H 0%nat a eq_refl) as [H1 H2].
    by rewrite H1, H2 in Ha.
Qed.


End ReplayValueFacts.

Section ReplayAuditRun.
Import Py Json Replay.
Local Open Scope replay_scope.

Lemma chars_nil s : chars s = [] → s = EmptyString.
Proof.
  destruct s as [|c rest]; [done|]. cbn [chars].
  destruct (chars rest); [done|]. by destruct (continues rest).
Qed.

Lemma has_number_tick_getitem e :
  has_number_tick e = true → ∃ value, getitem e "tick" = Returns value.
Proof.
  destruct e as [| | | | | |d]; try done. cbn.
  destruct (item "tick" d); [by eexists|done].
Qed.

(** The events that a replay goes through: a list of objects with number
    ticks, or an empty [str] or [dict]. *)
Lemma replay_error_None v :
  replay_error v = None →
  (∃ items, v = JList items ∧ forallb has_number_tick items = true) ∨
  v = JStr EmptyString ∨ v = JDict [].
Proof.
  unfold replay_error. destruct v as [| | | |s|xs|d]; try done; cbn [iter].
  - destruct (chars s) as [|c cs] eqn:Hs; [|done].
    intros _. right. left. by rewrite (chars_nil s Hs).
  - intros H%first_tick_error_None. left. by exists xs.
  - destruct d as [|[k x] d]; [|done]. intros _. by right; right.
Qed.

Lemma generate_audit_report_returns_json py w :
  replay_error (events (self w)) = None →
  ∃ r, generate_audit_report py w = (Returns r, w) ∧
       ReplayRun.AuditMetadata.audit_result (ReplayRun.Report.audit_metadata r) =
         audit_result (self w).
Proof.
  intros Hw. unfold generate_audit_report. unfold bind at 1, get_self at 1.
  destruct (replay_error_None _ Hw) as [(items & -> & Hticks)|[->| ->]];
    [|by eexists..].
  unfold bind at 1, lift at 1. cbn [len truthy].
  destruct items as [|e items]; [by eexists|].
  cbn [length Nat.eqb negb first_item last_item head from_option].
  assert (∀ a, a ∈ e :: items → ∃ value, getitem a "tick" = Returns value) as Hall.
  { intros a Ha. apply has_number_tick_getitem.
    rewrite forallb_forall in Hticks. by apply Hticks, list_elem_of_In. }
  destruct (Hall e) as [first Hfirst]; [left|].
  destruct (last (e :: items)) as [l|] eqn:Hl; [|by rewrite last_cons in Hl; destruct (last items)].
  destruct (Hall l) as [final Hfinal]; [by apply last_Some_elem_of|].
  unfold bind at 1. unfold bind at 1, lift at 1. unfold lift at 1. rewrite Hfirst.
  unfold bind at 1. unfold bind at 1, lift at 1. cbn [from_option].
  unfold lift at 1. rewrite Hfinal. by eexists.
Qed.


Lemma stop_outcome_result py e expected w :
  fst (stop_outcome py e expected w) = stop_result py e expected.
Proof.
  unfold stop_outcome, stop_result.
  destruct (is_object e); [|done]. cbn [negb].
  destruct (sliceable expected); [|done]. cbn [negb].
  by destruct (sliceable (prev_hash_of e)).
Qed.

Lemma replay_print line w :
  print line w = (Returns tt, World (self w) (stdout w ++ [line])).
Proof. done. Qed.

Lemma replay_error_iter v :
  replay_error v = None → iter v = Returns (items_of v).
Proof. unfold replay_error, items_of. by destruct (iter v). Qed.

Lemma load_events_json json_load s out :
  load_events json_load (World s out) =
    match json_load (events_file s) with
    | inl e =>
        (Returns false, World s (out ++ ["❌ Failed to load events: " +:+ e]))
    | inr value =>
        match len value with
        | Returns n =>
            (Returns true,
             World (with_events value s)
                   (out ++ ["✅ Loaded " +:+ str_int (Z.of_nat n) +:+
                            " events from " +:+ events_file s]))
        | Raises _ =>
            (Returns false,
             World (with_events value s)
                   (out ++ ["❌ Failed to load events: " +:+ len_error value]))
        end
    end.
Proof.
  unfold load_events. unfold bind at 1, get_self at 1. cbn [self].
  destruct (json_load (events_file s)) as [e|value]; [done|].
  unfold bind at 1, set_events at 1. cbn [self stdout].
  by destruct (len value).
Qed.

Lemma run_audit_result_json py json_load json_dumps write_file output
    (s : ReplayAudit) (out : list string) :
  fst (run_audit py json_load json_dumps write_file output (World s out)) =
    match json_load (events_file s) with
    | inl _ => Returns false
    | inr value =>
        match len value with
        | Raises _ => Returns false
        | Returns _ =>
            match replay_error value with
            | Some x => Raises x
            | None =>
                match first_stop (JStr (ReplayAudit.str_mul "0" 64)) (items_of value) with
                | Some (e, expected) => stop_result py e expected
                | None => Returns (String.eqb (audit_result s) "PASS")
                end
            end
        end
    end.
Proof.
  unfold run_audit. unfold bind at 1, get_self at 1. cbn [self].
  do 4 (unfold bind at 1, print at 1; cbn [self stdout]).
  unfold bind at 1. rewrite load_events_json.
  destruct (json_load (events_file s)) as [err|value]; [done|].
  destruct (len value) as [n|x]; [|done]. cbn [negb].
  unfold bind at 1. rewrite run_replay_json. cbn [self events with_events].
  destruct (replay_error value) as [x|] eqn:Hvalue; [done|].
  cbn [negb]. unfold bind at 1. rewrite verify_hash_stability_json.
  cbn [self with_trajectory events with_events]. rewrite Hvalue. cbn [negb].
  unfold bind at 1. rewrite verify_hash_chain_json.
  cbn [self with_trajectory events with_events]. cbn zeta.
  rewrite (replay_error_iter _ Hvalue).
  destruct (first_stop _ (items_of value)) as [[e expected]|].
  { pose proof (stop_outcome_result py e expected) as Hstop.
    match goal with
    | |- context [stop_outcome py e expected ?w] =>
        specialize (Hstop w); destruct (stop_outcome py e expected w) as [[[|]|x] w']
    end; cbn [fst] in Hstop; [|by rewrite <- Hstop..].
    unfold stop_result in Hstop.
    by destruct (is_object e), (sliceable expected), (sliceable (prev_hash_of e)). }
  cbn [negb]. unfold bind at 1.
  match goal with
  | |- context [generate_audit_report py ?w] =>
      destruct (generate_audit_report_returns_json py w) as (r & -> & Hr);
        [exact Hvalue|]
  end.
  assert (∀ w, ∃ lines,
            match output with
            | Some file =>
                if String.eqb file "" then print (json_dumps r)
                else save_report json_dumps write_file r file
            | None => print (json_dumps r)
            end w = (Returns tt, World (self w) (stdout w ++ lines))) as Hemit.
  { intros w. unfold save_report.
    destruct output as [file|]; [destruct (String.eqb file "")|];
      [| destruct (write_file file (json_dumps r)) |]; by eexists. }
  unfold bind at 1.
  match goal with
  | |- context [match output with _ => _ end ?w] =>
      destruct (Hemit w) as [lines ->]
  end.
  unfold bind at 1. rewrite replay_print.
  unfold bind at 1, get_self at 1.
  unfold bind at 1. rewrite replay_print. done.
Qed.

End ReplayAuditRun.

Section ReplayConditions.
Import Py Json Replay.

Lemma iter_raises v x : iter v = Raises x → x = TypeError.
Proof. destruct v; cbn; congruence. Qed.

Lemma tick_error_Some e x :
  tick_error e = Some x ↔
  has_number_tick e = false ∧
  x = (if lacks_tick e then KeyError (Key (JStr "tick")) else TypeError).
Proof.
  pose proof (tick_error_cases e) as H.
  destruct (tick_error e) as [y|].
  - destruct H as [H1 [[-> ->]|[-> ->]]]; split; try (intros [= <-]); try done;
      by intros [_ ->].
  - destruct H as [-> _]. by split; [|intros [? _]].
Qed.

Lemma replay_error_None_iff v :
  replay_error v = None ↔
  ∃ items, iter v = Returns items ∧ forallb has_number_tick items = true.
Proof.
  unfold replay_error. destruct (iter v) as [items|x].
  - rewrite first_tick_error_None. split; [by exists items|].
    by intros (items' & [= <-] & ?).
  - split; [done|]. by intros (items & ? & _).
Qed.

Lemma replay_error_Some v x :
  replay_error v = Some x ↔
  iter v = Raises TypeError ∧ x = TypeError ∨
  ∃ pre e post,
    iter v = Returns (pre ++ e :: post) ∧
    forallb has_number_tick pre = true ∧ has_number_tick e = false ∧
    x = (if lacks_tick e then KeyError (Key (JStr "tick")) else TypeError).
Proof.
  unfold replay_error. destruct (iter v) as [items|y] eqn:Hv.
  - rewrite first_tick_error_Some. split.
    + intros (pre & e & post & -> & Hpre & [He ->]%tick_error_Some).
      right. by exists pre, e, post.
    + intros [[? _]|(pre & e & post & [= ->] & Hpre & He & ->)]; [done|].
      exists pre, e, post. split; [done|]. split; [done|]. by apply tick_error_Some.
  - rewrite (iter_raises _ _ Hv). split.
    + intros [= <-]. by left.
    + intros [[_ ->]|(pre & e & post & ? & _)]; done.
Qed.

Lemma first_stop_None_before items :
  first_stop (JStr (ReplayAudit.str_mul "0" 64)) items = None ↔
  ∀ i e, items !! i = Some e →
    is_object e = true ∧ links (expected_before items i) e = true.
Proof. apply first_stop_None. Qed.


Lemma has_number_tick_object e : has_number_tick e = true → is_object e = true.
Proof. by destruct e. Qed.

End ReplayConditions.

(** ** Events of the expected types *)

Section TypedEvents.
Import Py Json Replay.

Lemma hash_of_event e : hash_of (of_event e) = JStr (Chain.hash_of e).
Proof. by destruct e as [[t|] [h|] [p|]]. Qed.

Lemma prev_hash_of_event e : prev_hash_of (of_event e) = JStr (Chain.prev_hash_of e).
Proof. by destruct e as [[t|] [h|] [p|]]. Qed.

Lemma tick_of_event py e : str py (tick_of (of_event e)) = Chain.tick_text e.
Proof. by destruct e as [[t|] [h|] [p|]]. Qed.

Lemma tick_error_of_event e :
  tick_error (of_event e) =
    if Chain.has_tick e then None else Some (KeyError (Key (JStr "tick"))).
Proof. by destruct e as [[t|] [h|] [p|]]. Qed.

Lemma upto_of_event tick e : upto tick (of_event e) = Chain.upto tick e.
Proof. by destruct e as [[t|] [h|] [p|]]. Qed.

Lemma replay_error_of_events evs :
  replay_error (JList (map of_event evs)) =
    if forallb Chain.has_tick evs then None else Some (KeyError (Key (JStr "tick"))).
Proof.
  unfold replay_error. cbn [iter].
  induction evs as [|e evs IH]; [done|].
  cbn [map omap list_omap forallb]. rewrite tick_error_of_event.
  destruct (Chain.has_tick e); [|done]. by cbn.
Qed.

Lemma filter_of_events tick evs :
  length (List.filter (upto tick) (map of_event evs)) =
    length (List.filter (Chain.upto tick) evs).
Proof.
  induction evs as [|e evs IH]; [done|].
  cbn [map List.filter]. rewrite upto_of_event.
  destruct (Chain.upto tick e); cbn; by rewrite IH.
Qed.

(** On objects of the expected types the two embeddings agree. *)
Lemma simulate_universe_state_of_world tick w :
  simulate_universe_state tick (of_world w) =
    of_outcome (ReplayAudit.simulate_universe_state tick w).
Proof.
  rewrite simulate_universe_state_json, simulate_universe_state_spec.
  unfold of_outcome, of_world at 1 2 3 4, of_audit. cbn [self events seed fst snd].
  rewrite replay_error_of_events.
  destruct (forallb Chain.has_tick _); [|done]. cbn [of_result].
  unfold simulated_hash, Chain.simulated_hash, items_of. cbn [iter].
  by rewrite filter_of_events.
Qed.

Lemma verify_hash_stability_of_world w :
  verify_hash_stability (of_world w) =
    of_outcome (ReplayAudit.verify_hash_stability w).
Proof.
  rewrite verify_hash_stability_json, verify_hash_stability_spec.
  unfold of_world at 1, of_audit. cbn [self events].
  rewrite replay_error_of_events.
  by destruct (forallb Chain.has_tick _).
Qed.

Lemma first_stop_of_events evs : ∀ prev,
  first_stop (JStr prev) (map of_event evs) =
    (fun '(e, expected) => (of_event e, JStr expected)) <$> Chain.first_break prev evs.
Proof.
  induction evs as [|e evs IH]; intros prev; [done|].
  cbn [map first_stop Chain.first_break]. unfold links.
  rewrite prev_hash_of_event, hash_of_event. cbn [is_object of_event andb truthy].
  unfold ne. cbn [eq].
  assert (negb (negb (Chain.prev_hash_of e =? "")%string &&
                negb (Chain.prev_hash_of e =? prev)%string) =
          negb (bool_decide (Chain.prev_hash_of e ≠ "") &&
                bool_decide (Chain.prev_hash_of e ≠ prev))) as ->.
  { do 2 f_equal.
    - destruct (String.eqb_spec (Chain.prev_hash_of e) "");
        [by rewrite bool_decide_false by naive_solver|by rewrite bool_decide_true].
    - destruct (String.eqb_spec (Chain.prev_hash_of e) prev);
        [by rewrite bool_decide_false by naive_solver|by rewrite bool_decide_true]. }
  destruct (bool_decide _ && bool_decide _); [done|]. apply IH.
Qed.

Lemma verify_hash_chain_of_world py w :
  verify_hash_chain py (of_world w) =
    of_outcome (ReplayAudit.verify_hash_chain w).
Proof.
  rewrite verify_hash_chain_json, verify_hash_chain_spec.
  destruct w as [s out]. unfold of_world, of_audit.
  cbn [ReplayAudit.self ReplayAudit.stdout self events iter stdout]. cbn zeta.
  rewrite first_stop_of_events.
  destruct (Chain.first_break _ _) as [[e expected]|]; [|done].
  cbn [fmap option_fmap option_map]. unfold stop_outcome, break_report.
  rewrite prev_hash_of_event, tick_of_event. cbn. by rewrite <- app_assoc.
Qed.

End TypedEvents.

(** ** The trajectory builder *)

Section Builder.
Import Py DeterminismAudit Closed.

(** C1, as the code has it.  The entry emitted for the event at position
    [i] is its tick with the digest of tick, event type, payload and the
    chained state [rng_at seed i], where the chained state starts as the
    digest of the seed and is folded with [b'tick'] once per event: it is
    the auxiliary generator state, not the digest emitted for the event
    before.  The first entry is the one of the design's recurrence. *)
Theorem replay_chains_rng_state self events :
  rng_at (seed self) 0 = sha256 (encode (str_int (seed self))) ∧
  (∀ i, rng_at (seed self) (S i) = sha256 (rng_at (seed self) i ++ encode "tick")) ∧
  length (replay_deterministically self events) = length events ∧
  (∀ i, replay_deterministically self events !! i =
        (fun e =>
           (Event.tick e,
            hex (sha256 (encode (str_int (Event.tick e) +:+ Event.event_type e +:+
                                 Event.payload e +:+
                                 bytes_repr (rng_at (seed self) i))))))
        <$> events !! i) ∧
  head (replay_deterministically self events) =
    head (Design.build_trajectory (seed self) events).
Proof.
  repeat split.
  - apply replay_length.
  - intros i. apply replay_lookup.
  - rewrite replay_closed_form. by destruct events.
Qed.

(** C1, as stated, fails from the second event on: with seed 1337 and two
    events the builder's trajectory is not the one of the recurrence that
    chains the previous digest. *)
Lemma replay_is_not_digest_chain :
  replay_deterministically Samples.auditor [Samples.spawn; Samples.move] =
    [ (1%Z, "41ed10b00dcab239c2f50c60e487b7fe3d34680ce6e6896cc4f22b1fa48fa0a7");
      (2%Z, "3aaa828452d159ef9e10497caec3ce403602572f4dacbeb39058f2a0b90a1776") ] ∧
  Design.build_trajectory 1337 [Samples.spawn; Samples.move] =
    [ (1%Z, "41ed10b00dcab239c2f50c60e487b7fe3d34680ce6e6896cc4f22b1fa48fa0a7");
      (2%Z, "7f78254849cfeec015f4f566dedf62f83e58d1798d0425b761a7719009c16b18") ] ∧
  replay_deterministically Samples.auditor [Samples.spawn; Samples.move] ≠
    Design.build_trajectory 1337 [Samples.spawn; Samples.move].
Proof.
  split; [vm_compute; reflexivity|]. split; [vm_compute; reflexivity|].
  vm_compute. discriminate.
Qed.

End Builder.

(** ** Determinism *)

Section Determinism.
Import Py.

Lemma entry_at_fields seed i (e e' : DeterminismAudit.Event.t) :
  (DeterminismAudit.Event.tick e, DeterminismAudit.Event.event_type e,
   DeterminismAudit.Event.payload e) =
  (DeterminismAudit.Event.tick e', DeterminismAudit.Event.event_type e',
   DeterminismAudit.Event.payload e') →
  Closed.entry_at seed i e = Closed.entry_at seed i e'.
Proof.
  intros [= Ht Hty Hp]. unfold Closed.entry_at, Design.event_digest.
  by rewrite Ht, Hty, Hp.
Qed.

(** C2.  Two invocations on the same seed and events give the same
    trajectory, entry by entry.

    The builder of the determinism audit reads nothing but the seed and the
    tick, event type and payload of each event: the database URL, the
    connection and the time stamps of the events have no influence.

    [run_replay] of the replay audit, which appends to
    [self.hash_trajectory], returns from a state of the audit exactly when
    its events can be replayed, and from any two states with the same seed
    and events it appends the same 101 entries, whatever was recorded or
    printed before.

    The stability check replays twice and compares.  Its comparison returns
    [True] exactly when no index holds two different hashes, and at the
    first index that does it records that index, fails the audit, prints
    the two hashes and returns [False].  The two runs of the code are equal,
    101 hashes each, so that the check never returns [False], changes
    nothing of the audit, and returns [True] exactly when the events can be
    replayed; it raises otherwise. *)
Theorem replay_deterministic :
  (∀ (self1 self2 : DeterminismAudit.DeterminismAuditor)
     (events1 events2 : list DeterminismAudit.Event.t),
     DeterminismAudit.seed self1 = DeterminismAudit.seed self2 →
     map (fun e => (DeterminismAudit.Event.tick e, DeterminismAudit.Event.event_type e,
                    DeterminismAudit.Event.payload e)) events1 =
     map (fun e => (DeterminismAudit.Event.tick e, DeterminismAudit.Event.event_type e,
                    DeterminismAudit.Event.payload e)) events2 →
     DeterminismAudit.replay_deterministically self1 events1 =
     DeterminismAudit.replay_deterministically self2 events2) ∧
  (∀ w w' : Replay.world,
     Replay.seed (Replay.self w) = Replay.seed (Replay.self w') →
     Replay.events (Replay.self w) = Replay.events (Replay.self w') →
     fst (Replay.run_replay w') = fst (Replay.run_replay w) ∧
     (fst (Replay.run_replay w) = Json.Returns true ↔
      Replay.replay_error (Replay.events (Replay.self w)) = None) ∧
     (fst (Replay.run_replay w) = Json.Returns true →
      ∃ entries,
        length entries = 101%nat ∧
        Replay.hash_trajectory (Replay.self (snd (Replay.run_replay w))) =
          Replay.hash_trajectory (Replay.self w) ++ entries ∧
        Replay.hash_trajectory (Replay.self (snd (Replay.run_replay w'))) =
          Replay.hash_trajectory (Replay.self w') ++ entries)) ∧
  (∀ (t1 t2 : list string) (w : Replay.world),
     (fst (Replay.compare_trajectories 0 (zip t1 t2) w) = Json.Returns true ↔
      ∀ k h1 h2, t1 !! k = Some h1 → t2 !! k = Some h2 → h1 = h2) ∧
     (∀ k h1 h2,
        t1 !! k = Some h1 → t2 !! k = Some h2 → h1 ≠ h2 → take k t1 = take k t2 →
        Replay.compare_trajectories 0 (zip t1 t2) w =
          (Json.Returns false,
           Replay.World (Replay.diverged (Z.of_nat k) (Replay.self w))
             (Replay.stdout w ++
              ["❌ Hash divergence at tick " +:+ str_int (Z.of_nat k) +:+ ": " +:+
               slice_to 16 h1 +:+ " != " +:+ slice_to 16 h2])))) ∧
  (∀ w : Replay.world,
     (∀ t1 t2 w', Replay.replay_twice w = (Json.Returns (t1, t2), w') →
                  t1 = t2 ∧ length t1 = 101%nat ∧ w' = w) ∧
     fst (Replay.verify_hash_stability w) ≠ Json.Returns false ∧
     Replay.self (snd (Replay.verify_hash_stability w)) = Replay.self w ∧
     (fst (Replay.verify_hash_stability w) = Json.Returns true ↔
      Replay.replay_error (Replay.events (Replay.self w)) = None)).
Proof.
  split; [|split; [|split]].
  - intros self1 self2 events1 events2 Hseed Hevents.
    apply list_eq. intros i. rewrite !replay_lookup, Hseed.
    apply (f_equal (fun l => l !! i)) in Hevents.
    rewrite !list_lookup_fmap in Hevents.
    destruct (events1 !! i) as [e|], (events2 !! i) as [e'|]; try done.
    cbn in *. f_equal. apply entry_at_fields. congruence.
  - intros w w' Hseed Hevents. rewrite !run_replay_json, <- Hevents, <- Hseed.
    destruct (Replay.replay_error _) as [x|]; [done|].
    split; [done|]. split; [done|]. intros _. eexists. split; [|done].
    unfold Replay.replayed. by rewrite length_map.
  - intros t1 t2 w. split.
    + split; [apply compare_trajectories_true_inv|].
      intros H. by rewrite compare_trajectories_true.
    + intros k h1 h2 H1 H2 Hne Htake.
      by rewrite (compare_trajectories_false t1 t2 k h1 h2).
  - intros w. split.
    + intros t1 t2 w'. rewrite replay_twice_json.
      destruct (Replay.replay_error _); [done|]. cbn zeta.
      set (hashes := map _ _). intros H.
      assert (t1 = hashes ∧ t2 = hashes ∧ w' = w) as (-> & -> & ->)
        by (repeat split; congruence).
      split; [done|]. split; [|done]. unfold hashes. by rewrite length_map.
    + rewrite verify_hash_stability_json.
      by destruct (Replay.replay_error _).
Qed.

Lemma replay_deterministic_witness :
  DeterminismAudit.replay_deterministically Samples.auditor
    [Samples.spawn; Samples.move] =
  DeterminismAudit.replay_deterministically Samples.auditor'
    [ReplaySamples.respawn; Samples.move] ∧
  Replay.compare_trajectories 0 (zip ["aa"; "bb"] ["aa"; "cc"])
    (Replay.World ReplaySamples.audit []) =
    (Json.Returns false,
     Replay.World (Replay.diverged 1 ReplaySamples.audit)
       ["❌ Hash divergence at tick 1: bb != cc"]) ∧
  fst (Replay.verify_hash_stability (Replay.World ReplaySamples.audit [])) =
    Json.Returns true.
Proof.
  destruct replay_deterministic as (Hbuilder & _ & Hcompare & Hstable).
  split; [apply Hbuilder; reflexivity|].
  split.
  - exact (proj2 (Hcompare ["aa"; "bb"] ["aa"; "cc"]
                    (Replay.World ReplaySamples.audit []))
             1%nat "bb" "cc" eq_refl eq_refl ltac:(discriminate) eq_refl).
  - destruct (Hstable (Replay.World ReplaySamples.audit [])) as (_ & _ & _ & Hiff).
    apply Hiff. reflexivity.
Defined.

End Determinism.

(** ** The chain verifier *)

Section ChainVerifier.
Import Py ReplayAudit Chain.

Lemma linked_first_break evs :
  linked evs → first_break (str_mul "0" 64) evs = None.
Proof.
  intros [H0 H1]. apply first_break_linked; [|done].
  intros e He. left. by apply H0.
Qed.

(** C3, as the code has it.  On a sequence built with
    [prev_hash[i] = hash[i-1]] and an empty genesis [prev_hash] the verifier
    returns [True].  Replacing the [prev_hash] of one non-genesis checkpoint
    by a non-empty value other than the hash before it makes the verifier
    return [False], set the result to FAIL and print one break, at that
    checkpoint's tick. *)
Theorem verify_hash_chain_linked (s : ReplayAudit) (out : list string) :
  linked (events s) →
  verify_hash_chain (World s out) =
    (Returns true,
     World s (out ++ ["🔗 Verifying hash-chain integrity...";
                      "✅ Hash-chain integrity verified"])) ∧
  ∀ (i : nat) (e0 e : Event.t) (v : string),
    events s !! i = Some e0 → events s !! S i = Some e →
    v ≠ "" → v ≠ hash_of e0 →
    verify_hash_chain
      (World (with_events (<[S i := with_prev_hash v e]> (events s)) s) out) =
    (Returns false,
     World (failed (with_events (<[S i := with_prev_hash v e]> (events s)) s))
       (out ++ ["🔗 Verifying hash-chain integrity...";
                "❌ Hash chain broken at tick " +:+ tick_text e;
                "  Expected prev_hash: " +:+ slice_to 16 (hash_of e0);
                "  Found prev_hash: " +:+ slice_to 16 v])).
Proof.
  intros Hl. split.
  - rewrite verify_hash_chain_spec. cbn [self stdout].
    by rewrite (linked_first_break _ Hl).
  - intros i e0 e v Hi HSi Hv Hne.
    rewrite verify_hash_chain_spec. cbn [self stdout with_events events].
    assert (S i < length (events s)) as Hlt by (by eapply lookup_lt_Some).
    rewrite insert_take_drop by done.
    pose proof (linked_first_break _ Hl) as Hnone.
    rewrite <- (take_drop (S i) (events s)) in Hnone.
    apply first_break_prefix in Hnone.
    rewrite (first_break_app _ _ _ Hnone).
    assert (expected_after (str_mul "0" 64) (take (S i) (events s)) = hash_of e0) as ->.
    { unfold expected_after. rewrite last_lookup, length_take, Nat.min_l by lia.
      cbn [pred]. rewrite lookup_take_lt by lia. by rewrite Hi. }
    cbn [first_break]. unfold prev_hash_of at 1 2. cbn [with_prev_hash Event.prev_hash default].
    rewrite !bool_decide_true by done. cbn [andb].
    unfold break_report, prev_hash_of, tick_text. done.
Qed.

Lemma sample_chain_linked : linked (events ChainSamples.audit).
Proof.
  split.
  - intros e He. by simplify_eq/=.
  - intros [|[|[|i]]] e e' He He'; by simplify_eq/=.
Qed.

Lemma verify_hash_chain_linked_witness :
  linked (events ChainSamples.audit) ∧
  verify_hash_chain (World ChainSamples.audit []) =
    (Returns true,
     World ChainSamples.audit
       ["🔗 Verifying hash-chain integrity..."; "✅ Hash-chain integrity verified"]) ∧
  verify_hash_chain
    (World (with_events
              (<[2%nat := with_prev_hash "ff" ChainSamples.third]> (events ChainSamples.audit))
              ChainSamples.audit) []) =
    (Returns false,
     World (failed (with_events
              (<[2%nat := with_prev_hash "ff" ChainSamples.third]> (events ChainSamples.audit))
              ChainSamples.audit))
       ["🔗 Verifying hash-chain integrity...";
        "❌ Hash chain broken at tick 2";
        "  Expected prev_hash: b1";
        "  Found prev_hash: ff"]).
Proof.
  split; [exact sample_chain_linked|].
  destruct (verify_hash_chain_linked ChainSamples.audit [] sample_chain_linked)
    as [Hok Hbreak].
  split; [exact Hok|].
  exact (Hbreak 1%nat ChainSamples.second ChainSamples.third "ff"
           eq_refl eq_refl ltac:(discriminate) ltac:(discriminate)).
Defined.

(** C3, as stated, fails for the empty value: with the third checkpoint's
    [prev_hash] replaced by the empty string the link is not checked and the
    verifier returns [True]. *)
Lemma emptied_prev_hash_passes :
  linked (events ChainSamples.audit) ∧
  verify_hash_chain
    (World (with_events
              (<[2%nat := with_prev_hash "" ChainSamples.third]> (events ChainSamples.audit))
              ChainSamples.audit) []) =
    (Returns true,
     World (with_events
              (<[2%nat := with_prev_hash "" ChainSamples.third]> (events ChainSamples.audit))
              ChainSamples.audit)
       ["🔗 Verifying hash-chain integrity..."; "✅ Hash-chain integrity verified"]).
Proof. split; [exact sample_chain_linked|reflexivity]. Qed.

End ChainVerifier.

(** ** The comparator on given trajectories *)

Section ComparatorClaims.
Import Py DeterminismAudit Closed.
Local Open Scope Z_scope.

(** C4.  For the recorded checkpoints (0,A), (1,B), (2,C) and the replayed
    hashes (0,A), (1,X), (3,D), with five distinct digests, the comparator
    fails with exactly two divergences, in this order: a hash mismatch at
    tick 1 holding B and X, then a missing hash at tick 2 with no replay
    hash. *)
Theorem comparator_example self (A B C X D p0 p1 p2 : list byte)
    (v0 v1 v2 : bool) (c0 c1 c2 : string) :
  NoDup [A; B; C; X; D] →
  verify_hash_chain self
    [ Checkpoint.Make 0 A p0 v0 c0; Checkpoint.Make 1 B p1 v1 c1;
      Checkpoint.Make 2 C p2 v2 c2 ]
    [ (0, hex A); (1, hex X); (3, hex D) ] =
  (false,
   [ Divergence.Make 1 (hex B) (Some (hex X)) hash_mismatch;
     Divergence.Make 2 (hex C) None missing_hash ]).
Proof.
  intros Hnd.
  assert (hex B ≠ hex X) as HBX.
  { intros E%hex_inj. apply NoDup_cons in Hnd as [_ Hnd].
    apply NoDup_cons in Hnd as [HB _]. apply HB. rewrite E.
    right. left. }
  unfold verify_hash_chain. rewrite fold_verify_body. cbn [app].
  set (d := replay_hash_dict _).
  assert (d !! 0 = Some (hex A)) as H0
    by (unfold d; by rewrite replay_hash_dict_lookup).
  assert (d !! 1 = Some (hex X)) as H1
    by (unfold d; by rewrite replay_hash_dict_lookup).
  assert (d !! 2 = None) as H2
    by (unfold d; by rewrite replay_hash_dict_lookup).
  rewrite !bind_cons. unfold verify_body.
  cbn [Checkpoint.tick Checkpoint.world_hash]. rewrite H0, H1, H2.
  rewrite decide_False by naive_solver. by rewrite decide_True by done.
Qed.

Lemma comparator_example_witness :
  NoDup [ComparatorSamples.A; ComparatorSamples.B; ComparatorSamples.C;
         ComparatorSamples.X; ComparatorSamples.D] ∧
  verify_hash_chain Samples.auditor ComparatorSamples.three
    [ (0, hex ComparatorSamples.A); (1, hex ComparatorSamples.X);
      (3, hex ComparatorSamples.D) ] =
  (false,
   [ Divergence.Make 1 (hex ComparatorSamples.B) (Some (hex ComparatorSamples.X))
       hash_mismatch;
     Divergence.Make 2 (hex ComparatorSamples.C) None missing_hash ]).
Proof.
  assert (NoDup [ComparatorSamples.A; ComparatorSamples.B; ComparatorSamples.C;
                 ComparatorSamples.X; ComparatorSamples.D]) as Hnd.
  { repeat (apply NoDup_cons; split;
              [rewrite ?not_elem_of_cons; repeat split;
               try discriminate; apply not_elem_of_nil|]).
    apply NoDup_nil_2. }
  split; [exact Hnd|].
  exact (comparator_example Samples.auditor _ _ _ _ _ _ _ _ _ _ _ _ _ _ Hnd).
Defined.

Lemma bind_all_nil {A B} (f : A → list B) (l : list A) :
  (∀ x, x ∈ l → f x = []) → l ≫= f = [].
Proof.
  induction l as [|x l IH]; intros H; [done|].
  rewrite bind_cons, (H x) by left. apply IH. intros y Hy. apply H. by right.
Qed.

(** C9, as the code has it.  When the replayed trajectory equals the
    recorded one and no tick is recorded with two different digests (as
    when ticks are unique), the comparator passes with no divergence, the
    report's status is PASS and its first divergence tick is absent. *)
Theorem equal_trajectories_pass self (cps : list Checkpoint.t) :
  (∀ c c', c ∈ cps → c' ∈ cps → Checkpoint.tick c = Checkpoint.tick c' →
           Checkpoint.world_hash c = Checkpoint.world_hash c') →
  verify_hash_chain self cps (checkpoint_trajectory cps) = (true, []) ∧
  generate_report self
    (fst (verify_hash_chain self cps (checkpoint_trajectory cps)))
    (snd (verify_hash_chain self cps (checkpoint_trajectory cps))) =
  Report (VerificationResult.Make "PASS" 0 None) [].
Proof.
  intros Hfun.
  assert (verify_hash_chain self cps (checkpoint_trajectory cps) = (true, [])) as E;
    [|by rewrite E].
  unfold verify_hash_chain. rewrite fold_verify_body. cbn [app].
  rewrite bind_all_nil; [done|].
  intros c Hc. unfold verify_body. rewrite replay_hash_dict_lookup. unfold last_for.
  destruct (last (filter _ _)) as [[t h]|] eqn:Hlast; cbn.
  - apply last_Some_elem_of, list_elem_of_filter in Hlast as [Ht Hin].
    cbn in Ht. subst t. unfold checkpoint_trajectory in Hin.
    apply list_elem_of_fmap in Hin as (c' & [= Ht ->] & Hc').
    rewrite (Hfun c' c Hc' Hc) by done. by rewrite decide_False by naive_solver.
  - apply last_None in Hlast. exfalso.
    eapply (filter_nil_not_elem_of _ _ (Checkpoint.tick c, hex (Checkpoint.world_hash c)));
      [exact Hlast|done|].
    unfold checkpoint_trajectory.
    by apply (list_elem_of_fmap_2
                (fun c => (Checkpoint.tick c, hex (Checkpoint.world_hash c)))).
Qed.

Lemma equal_trajectories_pass_witness :
  (∀ c c', c ∈ ComparatorSamples.three → c' ∈ ComparatorSamples.three →
           Checkpoint.tick c = Checkpoint.tick c' →
           Checkpoint.world_hash c = Checkpoint.world_hash c') ∧
  verify_hash_chain Samples.auditor ComparatorSamples.three
    (checkpoint_trajectory ComparatorSamples.three) = (true, []) ∧
  generate_report Samples.auditor
    (fst (verify_hash_chain Samples.auditor ComparatorSamples.three
            (checkpoint_trajectory ComparatorSamples.three)))
    (snd (verify_hash_chain Samples.auditor ComparatorSamples.three
            (checkpoint_trajectory ComparatorSamples.three))) =
  Report (VerificationResult.Make "PASS" 0 None) [].
Proof.
  assert (∀ c c', c ∈ ComparatorSamples.three → c' ∈ ComparatorSamples.three →
                  Checkpoint.tick c = Checkpoint.tick c' →
                  Checkpoint.world_hash c = Checkpoint.world_hash c') as Hfun.
  { intros c c' Hc Hc' Ht. unfold ComparatorSamples.three in Hc, Hc'.
    rewrite !elem_of_cons, elem_of_nil in Hc, Hc'.
    destruct Hc as [->|[->|[->|[]]]], Hc' as [->|[->|[->|[]]]];
      cbn in Ht; (done || lia). }
  split; [exact Hfun|].
  exact (equal_trajectories_pass Samples.auditor ComparatorSamples.three Hfun).
Defined.

(** C9, as stated, fails when a tick is recorded twice: the replayed
    trajectory equal to two checkpoints of tick 1 with the digests 0a and
    0b is reported as a mismatch at tick 1, since the lookup by tick keeps
    the later digest only. *)
Lemma equal_trajectories_with_repeated_tick_fail :
  verify_hash_chain Samples.auditor ComparatorSamples.twice
    (checkpoint_trajectory ComparatorSamples.twice) =
  (false, [Divergence.Make 1 "0a" (Some "0b") hash_mismatch]) ∧
  VerificationResult.status
    (verification_result
       (generate_report Samples.auditor false
          [Divergence.Make 1 "0a" (Some "0b") hash_mismatch])) = "FAIL".
Proof. split; [vm_compute; reflexivity | reflexivity]. Qed.

(** C10.  Every divergence is at a tick of the recorded checkpoints;
    replayed entries at other ticks do not change the result; with no
    checkpoint the comparator passes whatever was replayed. *)
Theorem comparator_reads_reference_ticks self (cps : list Checkpoint.t)
    (hashes : list (Z * string)) :
  Forall (fun d => Divergence.tick d ∈ map Checkpoint.tick cps)
         (snd (verify_hash_chain self cps hashes)) ∧
  verify_hash_chain self cps
    (filter (fun th => fst th ∈ map Checkpoint.tick cps) hashes) =
    verify_hash_chain self cps hashes ∧
  verify_hash_chain self [] hashes = (true, []).
Proof.
  split; [|split; [|done]].
  - destruct (verify_hash_chain_divergences self cps hashes) as [-> _].
    apply Forall_forall. intros d Hd.
    apply list_elem_of_bind in Hd as (c & Hd & Hc).
    rewrite (verify_body_tick _ _ _ Hd).
    by apply (list_elem_of_fmap_2 Checkpoint.tick).
  - apply verify_hash_chain_eq. intros c Hc.
    rewrite !replay_hash_dict_lookup. unfold last_for.
    rewrite list_filter_filter. f_equal. f_equal.
    apply list_filter_iff. intros [t h]. cbn. split; [by intros [? _]|].
    intros ->. split; [done|].
    by apply (list_elem_of_fmap_2 Checkpoint.tick).
Qed.

End ComparatorClaims.

(** ** Order, duplicates and empty inputs in the builder *)

Section BuilderInputs.
Import Py DeterminismAudit Closed.
Local Open Scope Z_scope.

(** C5.  With no event the builder returns the empty trajectory (the genesis
    hash is computed but no entry is emitted for it), and with no checkpoint
    the chain verifier returns [True] and reports no break. *)
Theorem empty_inputs self (seed : Z) (file : string) (trajectory : list (Z * string))
    (point : option Z) (result : string) (out : list string) :
  replay_deterministically self [] = [] ∧
  ReplayAudit.verify_hash_chain
    (ReplayAudit.World (ReplayAudit.Audit seed file [] trajectory point result) out) =
  (ReplayAudit.Returns true,
   ReplayAudit.World (ReplayAudit.Audit seed file [] trajectory point result)
     (out ++ ["🔗 Verifying hash-chain integrity..."; "✅ Hash-chain integrity verified"])).
Proof.
  split; [done|]. by rewrite verify_hash_chain_spec.
Qed.

Lemma length_filter_fmap `{EqDecision B} {A} (f : A → B) (t : B) (l : list A) :
  length (filter (fun x => f x = t) l) = length (filter (fun y => y = t) (f <$> l)).
Proof.
  induction l as [|x l IH]; [done|].
  rewrite fmap_cons, !filter_cons. case_decide; cbn; by rewrite IH.
Qed.

Lemma filter_none {A} (P : A → Prop) `{!∀ x, Decision (P x)} (l : list A) :
  (∀ x, x ∈ l → ¬ P x) → filter P l = [].
Proof.
  induction l as [|x l IH]; intros Hl; [done|].
  rewrite filter_cons_False by (apply Hl; left). apply IH.
  intros y Hy. apply Hl. by right.
Qed.

(** C7, as the code has it.  The builder emits one entry per event, in the
    order met, also for events that share a tick: a tick is listed as many
    times as it has events.  The last entry of a tick wins only in the
    comparator's lookup by tick. *)
Theorem duplicate_ticks_kept self (pre post : list Event.t) (e : Event.t) :
  Forall (fun e' => Event.tick e' ≠ Event.tick e) post →
  (∀ t, length (filter (fun th => fst th = t)
                       (replay_deterministically self (pre ++ e :: post))) =
        length (filter (fun e' => Event.tick e' = t) (pre ++ e :: post))) ∧
  replay_hash_dict (replay_deterministically self (pre ++ e :: post)) !! Event.tick e =
    Some (hex (Design.event_digest e (rng_at (seed self) (length pre)))).
Proof.
  intros Hpost. split.
  - intros t.
    rewrite (length_filter_fmap fst t), (length_filter_fmap Event.tick t).
    change (fst <$> ?l) with (map fst l). by rewrite replay_ticks.
  - rewrite replay_hash_dict_lookup, replay_closed_form. unfold last_for.
    rewrite imap_app, imap_cons, filter_app, filter_cons_True by done.
    assert (filter (fun th : Z * string => fst th = Event.tick e)
              (imap ((fun n => entry_at (seed self) (length pre + n)) ∘ S) post) = [])
      as ->.
    { apply filter_none. intros th (i & x & -> & Hx)%elem_of_lookup_imap_1.
      rewrite Forall_forall in Hpost. apply Hpost.
      apply list_elem_of_lookup. by exists i. }
    rewrite last_snoc. cbn. by rewrite Nat.add_0_r.
Qed.

Lemma duplicate_ticks_kept_witness :
  Forall (fun e' => Event.tick e' ≠ Event.tick Samples.a_bc) [Samples.move] ∧
  (∀ t, length (filter (fun th => fst th = t)
                  (replay_deterministically Samples.auditor
                     ([Samples.ab_c] ++ Samples.a_bc :: [Samples.move]))) =
        length (filter (fun e' => Event.tick e' = t)
                  ([Samples.ab_c] ++ Samples.a_bc :: [Samples.move]))) ∧
  replay_hash_dict
    (replay_deterministically Samples.auditor
       ([Samples.ab_c] ++ Samples.a_bc :: [Samples.move])) !! Event.tick Samples.a_bc =
    Some (hex (Design.event_digest Samples.a_bc (rng_at 1337 1))).
Proof.
  assert (Forall (fun e' => Event.tick e' ≠ Event.tick Samples.a_bc) [Samples.move])
    as Hpost by (repeat constructor; discriminate).
  split; [exact Hpost|].
  exact (duplicate_ticks_kept Samples.auditor [Samples.ab_c] [Samples.move]
           Samples.a_bc Hpost).
Defined.

(** C7, as stated, fails: two events of tick 1 give a trajectory with two
    entries of tick 1, so ticks are not unique in it. *)
Lemma duplicate_ticks_are_emitted :
  map fst (replay_deterministically Samples.auditor [Samples.ab_c; Samples.a_bc]) = [1; 1] ∧
  ¬ NoDup (map fst (replay_deterministically Samples.auditor [Samples.ab_c; Samples.a_bc])).
Proof.
  rewrite replay_ticks. split; [done|].
  intros [H _]%NoDup_cons. apply H. left.
Qed.

Lemma first_out_of_order_lookup events : ∀ prev bad,
  Design.first_out_of_order prev events = Some bad →
  ∃ i, events !! i = Some bad.
Proof.
  induction events as [|e events IH]; intros prev bad; [done|].
  cbn [Design.first_out_of_order]. destruct (Event.tick e <? prev).
  - intros [= ->]. by exists 0%nat.
  - intros [i Hi]%IH. by exists (S i).
Qed.

(** C8, as the code has it.  The builder checks no ordering: for every event
    sequence, ascending or not, it returns a trajectory with one entry per
    event, whose ticks are the events' ticks in the order given.  The record
    that a fail-fast builder would refuse is replayed like any other. *)
Theorem replay_keeps_given_order self (events : list Event.t) :
  map fst (replay_deterministically self events) = map Event.tick events ∧
  ∀ bad, Design.build_trajectory_checked self events = inl bad →
    ∃ i, events !! i = Some bad ∧
         replay_deterministically self events !! i =
           Some (Event.tick bad,
                 hex (Design.event_digest bad (rng_at (seed self) i))).
Proof.
  split; [apply replay_ticks|].
  intros bad Hbad.
  assert (∃ i, events !! i = Some bad) as [i Hi].
  { destruct events as [|e rest]; [done|]. cbn in Hbad.
    destruct (Design.first_out_of_order (Event.tick e) rest) as [b|] eqn:Hb; [|done].
    injection Hbad as ->.
    apply first_out_of_order_lookup in Hb as [i Hi]. by exists (S i). }
  exists i. split; [done|]. by rewrite replay_lookup, Hi.
Qed.

Lemma replay_keeps_given_order_witness :
  Design.build_trajectory_checked Samples.auditor [Samples.move; Samples.spawn] =
    inl Samples.spawn ∧
  map fst (replay_deterministically Samples.auditor [Samples.move; Samples.spawn]) =
    map Event.tick [Samples.move; Samples.spawn] ∧
  ∃ i, [Samples.move; Samples.spawn] !! i = Some Samples.spawn ∧
       replay_deterministically Samples.auditor [Samples.move; Samples.spawn] !! i =
         Some (Event.tick Samples.spawn,
               hex (Design.event_digest Samples.spawn (rng_at 1337 i))).
Proof.
  split; [reflexivity|].
  destruct (replay_keeps_given_order Samples.auditor [Samples.move; Samples.spawn])
    as [Hticks Hbad].
  split; [exact Hticks|]. exact (Hbad Samples.spawn eq_refl).
Defined.

(** C8, as stated, fails: for the ticks 2 then 1 the design's checked
    builder refuses the second record, while the code returns the
    trajectory of the events as given. *)
Lemma unsorted_events_are_replayed :
  Design.build_trajectory_checked Samples.auditor [Samples.move; Samples.spawn] =
    inl Samples.spawn ∧
  map fst (replay_deterministically Samples.auditor [Samples.move; Samples.spawn]) = [2; 1] ∧
  inr (replay_deterministically Samples.auditor [Samples.move; Samples.spawn]) ≠
    Design.build_trajectory_checked Samples.auditor [Samples.move; Samples.spawn].
Proof.
  split; [reflexivity|]. split; [by rewrite replay_ticks|]. discriminate.
Qed.

End BuilderInputs.

(** ** Permuted events *)

Section PermutedEvents.
Import Py DeterminismAudit Closed EventEq.

Lemma append_assoc (a b c : string) : (a +:+ b) +:+ c = a +:+ b +:+ c.
Proof.
  induction a as [|x a IH]; [done|].
  change (String x ((a +:+ b) +:+ c) = String x (a +:+ b +:+ c)).
  by rewrite IH.
Qed.

Lemma event_text_assoc (a b c r : string) :
  a +:+ b +:+ c +:+ r = (a +:+ b +:+ c) +:+ r.
Proof. by rewrite !append_assoc. Qed.

(** Two different lists of the same length differ at a first position. *)
Lemma first_difference {A} `{EqDecision A} (l : list A) : ∀ l',
  length l = length l' → l ≠ l' →
  ∃ i x y, l !! i = Some x ∧ l' !! i = Some y ∧ x ≠ y ∧ take i l' = take i l.
Proof.
  induction l as [|a l IH]; intros [|b l'] Hlen Hne; try done.
  destruct (decide (a = b)) as [->|Hab].
  - destruct (IH l') as (i & x & y & Hx & Hy & Hxy & Htake).
    + cbn in Hlen. lia.
    + congruence.
    + exists (S i), x, y. cbn. by rewrite Htake.
  - by exists 0%nat, a, b.
Qed.

Lemma entry_at_eq seed i (e e' : Event.t) :
  entry_at seed i e' = entry_at seed i e ↔
  Event.tick e' = Event.tick e ∧
  Design.event_digest e' (rng_at seed i) = Design.event_digest e (rng_at seed i).
Proof.
  unfold entry_at. split.
  - intros [= Ht Hh%hex_inj]. done.
  - intros [-> ->]. done.
Qed.

(** C6, as the code has it.  Let the events be permuted, the seed being the
    same, and let [i] be the first position where the two sequences differ,
    holding [e] before and [e'] after.  The two trajectories have the same
    length and agree before [i].  At [i], and likewise at every position,
    the entries are equal exactly when the two events have the same tick and
    the same SHA-256 digest of their text (tick, event type, payload and the
    state of that position): the trajectory differs at the first changed
    position unless the digests of the two events collide there, as they do
    when tick, event type and payload concatenate to the same text.

    The simulated hash of the replay audit counts events and reads no
    order: it is the same at every tick for any permutation of its
    events. *)
Theorem permuted_events self (events events' : list Event.t) :
  events ≡ₚ events' →
  events ≠ events' →
  (∃ i e e',
     events !! i = Some e ∧ events' !! i = Some e' ∧ e ≠ e' ∧
     take i events' = take i events ∧
     length (replay_deterministically self events') =
       length (replay_deterministically self events) ∧
     take i (replay_deterministically self events') =
       take i (replay_deterministically self events) ∧
     (replay_deterministically self events' !! i =
        replay_deterministically self events !! i ↔
      Event.tick e' = Event.tick e ∧
      Design.event_digest e' (rng_at (seed self) i) =
        Design.event_digest e (rng_at (seed self) i))) ∧
  (∀ j a b,
     events !! j = Some a → events' !! j = Some b →
     (replay_deterministically self events' !! j =
        replay_deterministically self events !! j ↔
      Event.tick b = Event.tick a ∧
      Design.event_digest b (rng_at (seed self) j) =
        Design.event_digest a (rng_at (seed self) j)) ∧
     (str_int (Event.tick b) +:+ Event.event_type b +:+ Event.payload b =
      str_int (Event.tick a) +:+ Event.event_type a +:+ Event.payload a →
      Design.event_digest b (rng_at (seed self) j) =
        Design.event_digest a (rng_at (seed self) j))) ∧
  (∀ (s : Replay.ReplayAudit) (items items' : list Json.json) tick out h,
     Replay.events s = Json.JList items → items ≡ₚ items' →
     fst (Replay.simulate_universe_state tick
            (Replay.World (Replay.with_events (Json.JList items') s) out)) =
       Json.Returns h ↔
     fst (Replay.simulate_universe_state tick (Replay.World s out)) = Json.Returns h).
Proof.
  intros Hp Hne.
  assert (∀ j a b, events !! j = Some a → events' !! j = Some b →
            (replay_deterministically self events' !! j =
               replay_deterministically self events !! j ↔
             Event.tick b = Event.tick a ∧
             Design.event_digest b (rng_at (seed self) j) =
               Design.event_digest a (rng_at (seed self) j))) as Hentry.
  { intros j a b Ha Hb. rewrite !replay_lookup, Ha, Hb. cbn.
    rewrite <- entry_at_eq. split; congruence. }
  split; [|split].
  - destruct (first_difference events events') as (i & e & e' & He & He' & Hee & Htake);
      [by apply Permutation_length|done|].
    exists i, e, e'. split; [done|]. split; [done|]. split; [done|]. split; [done|].
    split; [rewrite !replay_length; symmetry; by apply Permutation_length|].
    split; [|by apply Hentry].
    apply list_eq. intros k.
    destruct (decide (k < i)%nat) as [Hk|Hk].
    + rewrite !lookup_take_lt, !replay_lookup by done.
      by rewrite <- (lookup_take_lt events' i k), Htake, lookup_take_lt by done.
    + by rewrite !lookup_take_ge by lia.
  - intros j a b Ha Hb. split; [by apply Hentry|].
    intros Htext. unfold Design.event_digest.
    by rewrite !event_text_assoc, Htext.
  - intros s items items' tick out h Hs Hitems.
    rewrite !simulate_universe_state_json. unfold Replay.with_events.
    cbn [Replay.self Replay.events Replay.seed fst]. rewrite Hs.
    unfold Replay.replay_error, Replay.items_of. cbn [Json.iter].
    assert (head (omap Replay.tick_error items') = None ↔
            head (omap Replay.tick_error items) = None) as Hraise.
    { rewrite !first_tick_error_None.
      by rewrite (forallb_permutation _ _ _ Hitems). }
    unfold Replay.simulated_hash.
    rewrite (filter_length_permutation _ _ _ Hitems).
    destruct (head (omap Replay.tick_error items')) as [x|],
             (head (omap Replay.tick_error items)) as [y|]; try done.
    + split; [done|]. intros _. by destruct Hraise as [_ Hraise]; discriminate Hraise.
    + split; [|done]. intros _. by destruct Hraise as [Hraise _]; discriminate Hraise.
Qed.

Lemma permuted_events_witness :
  [Samples.spawn; Samples.ab_c; Samples.move] ≡ₚ
    [Samples.ab_c; Samples.spawn; Samples.move] ∧
  [Samples.spawn; Samples.ab_c; Samples.move] ≠
    [Samples.ab_c; Samples.spawn; Samples.move] ∧
  (∃ i e e',
     [Samples.spawn; Samples.ab_c; Samples.move] !! i = Some e ∧
     [Samples.ab_c; Samples.spawn; Samples.move] !! i = Some e' ∧ e ≠ e' ∧
     take i [Samples.ab_c; Samples.spawn; Samples.move] =
       take i [Samples.spawn; Samples.ab_c; Samples.move] ∧
     length (replay_deterministically Samples.auditor
               [Samples.ab_c; Samples.spawn; Samples.move]) =
       length (replay_deterministically Samples.auditor
                 [Samples.spawn; Samples.ab_c; Samples.move]) ∧
     take i (replay_deterministically Samples.auditor
               [Samples.ab_c; Samples.spawn; Samples.move]) =
       take i (replay_deterministically Samples.auditor
                 [Samples.spawn; Samples.ab_c; Samples.move]) ∧
     (replay_deterministically Samples.auditor
        [Samples.ab_c; Samples.spawn; Samples.move] !! i =
      replay_deterministically Samples.auditor
        [Samples.spawn; Samples.ab_c; Samples.move] !! i ↔
      Event.tick e' = Event.tick e ∧
      Design.event_digest e' (rng_at (seed Samples.auditor) i) =
        Design.event_digest e (rng_at (seed Samples.auditor) i))) ∧
  replay_deterministically Samples.auditor
    [Samples.ab_c; Samples.spawn; Samples.move] !! 0%nat ≠
  replay_deterministically Samples.auditor
    [Samples.spawn; Samples.ab_c; Samples.move] !! 0%nat.
Proof.
  assert ([Samples.spawn; Samples.ab_c; Samples.move] ≡ₚ
          [Samples.ab_c; Samples.spawn; Samples.move]) as Hp by apply perm_swap.
  assert ([Samples.spawn; Samples.ab_c; Samples.move] ≠
          [Samples.ab_c; Samples.spawn; Samples.move]) as Hne by discriminate.
  split; [exact Hp|]. split; [exact Hne|].
  destruct (permuted_events Samples.auditor _ _ Hp Hne) as (Hfirst & Hentry & _).
  split; [exact Hfirst|].
  intros Heq.
  apply (proj1 (Hentry 0%nat Samples.spawn Samples.ab_c eq_refl eq_refl)) in Heq
    as [_ Heq].
  vm_compute in Heq. discriminate Heq.
Defined.

(** C6, as stated, fails: exchanging two different events of tick 1 whose
    tick, event type and payload concatenate to the same text leaves the
    whole trajectory unchanged. *)
Lemma swapped_events_same_trajectory :
  [Samples.ab_c; Samples.a_bc] ≡ₚ [Samples.a_bc; Samples.ab_c] ∧
  [Samples.ab_c; Samples.a_bc] ≠ [Samples.a_bc; Samples.ab_c] ∧
  replay_deterministically Samples.auditor [Samples.a_bc; Samples.ab_c] =
    replay_deterministically Samples.auditor [Samples.ab_c; Samples.a_bc].
Proof.
  split; [apply perm_swap|]. split; [discriminate|].
  vm_compute. reflexivity.
Qed.

End PermutedEvents.

(** * Further properties of the code *)

(** ** Digests *)

Section DigestShape.
Import Py DeterminismAudit Closed.

Lemma length_be_bytes n x : length (Sha256.be_bytes n x) = n.
Proof. unfold Sha256.be_bytes. by rewrite length_map, length_rev, length_seq. Qed.

Lemma length_compress h block : length h = 8 → length (Sha256.compress h block) = 8.
Proof. intros Hh. unfold Sha256.compress. rewrite length_zip_with. cbn [length]. lia. Qed.

Lemma length_blocks n : ∀ h bs, length h = 8 → length (Sha256.blocks n h bs) = 8.
Proof.
  induction n as [|n IH]; intros h bs Hh; [done|].
  cbn [Sha256.blocks]. apply IH. by apply length_compress.
Qed.

Lemma length_flat_map_be_bytes (ws : list Z) :
  length (flat_map (Sha256.be_bytes 4) ws) = 4 * length ws.
Proof.
  induction ws as [|w ws IH]; [done|].
  cbn [flat_map]. rewrite length_app, length_be_bytes, IH. cbn [length]. lia.
Qed.

Lemma length_sha256 msg : length (sha256 msg) = 32.
Proof.
  unfold sha256, Sha256.sha256, Sha256.digest_Z.
  rewrite length_map, length_flat_map_be_bytes, length_blocks; done.
Qed.

Lemma hex_byte_digits b :
  ∃ c1 c2, hex_byte b = String c1 (String c2 EmptyString) ∧
           Digest.is_hexdigit c1 = true ∧ Digest.is_hexdigit c2 = true.
Proof. destruct b; by do 2 eexists. Qed.

Lemma hex_shape bs :
  String.length (hex bs) = 2 * length bs ∧
  forallb Digest.is_hexdigit (list_ascii_of_string (hex bs)) = true.
Proof.
  induction bs as [|b bs [IHl IHd]]; [done|].
  change (hex (b :: bs)) with (hex_byte b +:+ hex bs).
  destruct (hex_byte_digits b) as (c1 & c2 & -> & H1 & H2).
  change (String c1 (String c2 EmptyString) +:+ hex bs)
    with (String c1 (String c2 (hex bs))).
  split.
  - change (S (S (String.length (hex bs))) = 2 * S (length bs)). lia.
  - change (Digest.is_hexdigit c1 &&
            (Digest.is_hexdigit c2 &&
             forallb Digest.is_hexdigit (list_ascii_of_string (hex bs))) = true).
    by rewrite H1, H2, IHd.
Qed.

Lemma hex_sha256_is_digest msg : Digest.is_hex_digest (hex (sha256 msg)) = true.
Proof.
  unfold Digest.is_hex_digest. destruct (hex_shape (sha256 msg)) as [-> ->].
  by rewrite length_sha256.
Qed.

(** X1.  Every digest of an emitted trajectory entry is the text of a SHA-256
    digest: 64 lowercase hexadecimal digits. *)
Theorem replay_emits_hex_digests self (events : list Event.t) :
  Forall (fun th => Digest.is_hex_digest (snd th) = true)
         (replay_deterministically self events).
Proof.
  rewrite replay_closed_form. apply Forall_forall.
  intros th (i & e & -> & _)%elem_of_lookup_imap_1.
  apply hex_sha256_is_digest.
Qed.

(** X2.  Replaying a log that was extended by further events leaves the entries
    of the earlier events as they were: the trajectory of the longer log
    starts with the trajectory of the shorter one. *)
Theorem replay_extends self (events more : list Event.t) :
  take (length events) (replay_deterministically self (events ++ more)) =
    replay_deterministically self events ∧
  length (replay_deterministically self (events ++ more)) =
    length events + length more.
Proof.
  split.
  - rewrite !replay_closed_form, imap_app.
    by rewrite take_app_length' by (by rewrite length_imap).
  - by rewrite replay_length, length_app.
Qed.

(** X3.  The variables of the replay loop after the last event: both copies of
    the generator state are the seed's digest folded once per event, the
    dictionary holds the tick and the digest of the last event (tick 0 and
    the genesis digest when there is none), and no agent. *)
Theorem replay_final_state self (events : list Event.t) :
  let v := fold_left replay_body events (replay_init self) in
  rng_state v = rng_at (seed self) (length events) ∧
  Universe.rng_state (universe_state v) = rng_state v ∧
  Universe.agents (universe_state v) = ∅ ∧
  Universe.tick (universe_state v) = from_option Event.tick 0%Z (last events) ∧
  Universe.world_hash (universe_state v) =
    match last events with
    | Some e => Design.event_digest e (rng_at (seed self) (length events - 1))
    | None => sha256 (encode "genesis")
    end.
Proof.
  induction events as [|e events IH] using rev_ind; [done|].
  cbn zeta in *. rewrite fold_left_app. cbn [fold_left].
  set (v0 := fold_left replay_body events (replay_init self)) in *.
  destruct IH as (Hr & Hu & Ha & _ & _).
  rewrite last_snoc, length_app. cbn [length].
  replace (length events + 1 - 1) with (length events) by lia.
  replace (length events + 1) with (S (length events)) by lia.
  change (rng_at (seed self) (S (length events)))
    with (sha256 (rng_at (seed self) (length events) ++ encode "tick")).
  unfold replay_body, Design.event_digest.
  cbn [rng_state universe_state Universe.rng_state Universe.agents Universe.tick
       Universe.world_hash from_option].
  by rewrite Hu, Hr, Ha.
Qed.

End DigestShape.

(** ** The comparator and the report *)

Section ComparatorFacts.
Import Py DeterminismAudit Closed.

Lemma verify_body_cases d c :
  verify_body d [] c =
    match d !! Checkpoint.tick c with
    | Some h =>
        if decide (hex (Checkpoint.world_hash c) = h) then []
        else [Divergence.Make (Checkpoint.tick c) (hex (Checkpoint.world_hash c))
                (Some h) hash_mismatch]
    | None =>
        [Divergence.Make (Checkpoint.tick c) (hex (Checkpoint.world_hash c))
           None missing_hash]
    end.
Proof.
  unfold verify_body. destruct (d !! Checkpoint.tick c); [|done].
  by repeat case_decide.
Qed.

Lemma length_verify_body d c : length (verify_body d [] c) ≤ 1.
Proof.
  rewrite verify_body_cases. destruct (d !! _); [case_decide|]; cbn; lia.
Qed.

(** X4.  The verdict of the comparator is [True] exactly when it lists no
    divergence; it lists at most one divergence per checkpoint, and lists
    them in the order of the checkpoints. *)
Theorem comparator_verdict self (cps : list Checkpoint.t) (hashes : list (Z * string)) :
  (fst (verify_hash_chain self cps hashes) = true ↔
   snd (verify_hash_chain self cps hashes) = []) ∧
  length (snd (verify_hash_chain self cps hashes)) ≤ length cps ∧
  map Divergence.tick (snd (verify_hash_chain self cps hashes))
    `sublist_of` map Checkpoint.tick cps.
Proof.
  destruct (verify_hash_chain_divergences self cps hashes) as [-> ->].
  set (d := replay_hash_dict hashes). split; [|split].
  - by rewrite bool_decide_eq_true.
  - induction cps as [|c cps IH]; [done|].
    rewrite bind_cons, length_app. pose proof (length_verify_body d c).
    cbn [length]. lia.
  - induction cps as [|c cps IH]; [done|].
    rewrite bind_cons, map_app. cbn [map].
    rewrite verify_body_cases. destruct (d !! _); [case_decide|]; cbn [map app].
    + by apply sublist_cons.
    + by apply sublist_skip.
    + by apply sublist_skip.
Qed.

(** X5.  Every divergence listed is a real one: a missing hash is listed for a
    checkpoint whose tick was not replayed, and a mismatch holds the last
    digest replayed for that tick, which differs from the checkpoint's. *)
Theorem divergences_are_sound self (cps : list Checkpoint.t)
    (hashes : list (Z * string)) :
  Forall
    (fun d =>
       (∃ c, c ∈ cps ∧ Divergence.tick d = Checkpoint.tick c ∧
             Divergence.db_hash d = hex (Checkpoint.world_hash c)) ∧
       match Divergence.replay_hash d with
       | None =>
           Divergence.type d = missing_hash ∧
           Divergence.tick d ∉ map fst hashes
       | Some h =>
           Divergence.type d = hash_mismatch ∧
           h ≠ Divergence.db_hash d ∧
           last_for (Divergence.tick d) hashes = Some h
       end)
    (snd (verify_hash_chain self cps hashes)).
Proof.
  destruct (verify_hash_chain_divergences self cps hashes) as [-> _].
  apply Forall_forall. intros d (c & Hd & Hc)%list_elem_of_bind.
  rewrite verify_body_cases, replay_hash_dict_lookup in Hd.
  destruct (last_for (Checkpoint.tick c) hashes) as [h|] eqn:Hlast.
  - case_decide as Hh; [by apply not_elem_of_nil in Hd|].
    apply list_elem_of_singleton in Hd as ->. cbn. split; [by exists c|].
    split; [done|]. split; [congruence|done].
  - apply list_elem_of_singleton in Hd as ->. cbn. split; [by exists c|].
    split; [done|]. intros (th & Hth & Hin)%list_elem_of_fmap.
    unfold last_for in Hlast. apply fmap_None, last_None in Hlast.
    by eapply (filter_nil_not_elem_of _ _ th).
Qed.

(** X6.  The comparator passes exactly when, for every checkpoint, the last
    digest replayed for its tick is the checkpoint's hash. *)
Theorem comparator_passes_iff self (cps : list Checkpoint.t)
    (hashes : list (Z * string)) :
  fst (verify_hash_chain self cps hashes) = true ↔
  ∀ c, c ∈ cps →
       last_for (Checkpoint.tick c) hashes = Some (hex (Checkpoint.world_hash c)).
Proof.
  destruct (verify_hash_chain_divergences self cps hashes) as [_ ->].
  rewrite bool_decide_eq_true. split.
  - intros Hnil c Hc.
    assert (verify_body (replay_hash_dict hashes) [] c = []) as Hb.
    { apply list_elem_of_split in Hc as (l1 & l2 & ->).
      rewrite bind_app, bind_cons in Hnil.
      apply app_eq_nil in Hnil as [_ Hnil]. by apply app_eq_nil in Hnil as [Hnil _]. }
    rewrite verify_body_cases, replay_hash_dict_lookup in Hb.
    destruct (last_for _ _); [|done]. case_decide; [congruence|done].
  - intros Hall. apply bind_all_nil. intros c Hc.
    rewrite verify_body_cases, replay_hash_dict_lookup, (Hall c Hc).
    by rewrite decide_True.
Qed.

(** X7.  With no event in the log the audit reports every checkpoint as a
    missing hash, in order, and passes only when there is no checkpoint. *)
Theorem audit_of_empty_log self (cps : list Checkpoint.t) :
  fst (AuditReport.run_audit self [] cps) =
    match cps with [] => true | _ :: _ => false end ∧
  divergences (snd (AuditReport.run_audit self [] cps)) =
    map (fun c => Divergence.Make (Checkpoint.tick c) (hex (Checkpoint.world_hash c))
                    None missing_hash) cps.
Proof.
  unfold AuditReport.run_audit. cbn [fst snd generate_report divergences].
  change (replay_deterministically self []) with (@nil (Z * string)).
  destruct (verify_hash_chain_divergences self cps []) as [-> ->].
  assert (cps ≫= verify_body (replay_hash_dict []) [] =
          map (fun c => Divergence.Make (Checkpoint.tick c)
                          (hex (Checkpoint.world_hash c)) None missing_hash) cps) as ->.
  { induction cps as [|c cps IH]; [done|].
    rewrite bind_cons, IH, verify_body_cases. by rewrite replay_hash_dict_lookup. }
  split; [|done]. by destruct cps.
Qed.

Lemma is_hex_digest_length h : Digest.is_hex_digest h = true → String.length h = 64.
Proof.
  unfold Digest.is_hex_digest. intros [H _]%andb_true_iff. by apply Nat.eqb_eq.
Qed.

(** X8.  A checkpoint at the tick of some event whose recorded hash is not 32
    bytes long is always reported as a hash mismatch. *)
Theorem short_hash_is_mismatch self (events : list Event.t)
    (cps : list Checkpoint.t) (c : Checkpoint.t) :
  c ∈ cps →
  Checkpoint.tick c ∈ map Event.tick events →
  length (Checkpoint.world_hash c) ≠ 32 →
  ∃ d, d ∈ snd (verify_hash_chain self cps (replay_deterministically self events)) ∧
       Divergence.tick d = Checkpoint.tick c ∧
       Divergence.db_hash d = hex (Checkpoint.world_hash c) ∧
       Divergence.type d = hash_mismatch.
Proof.
  intros Hc Ht Hlen.
  destruct (verify_hash_chain_divergences self cps
              (replay_deterministically self events)) as [-> _].
  rewrite <- (replay_ticks self) in Ht.
  apply list_elem_of_fmap in Ht as ([t h] & Ht & Hth). cbn in Ht. subst t.
  destruct (last (filter (fun th : Z * string => fst th = Checkpoint.tick c)
                    (replay_deterministically self events))) as [[t' h']|] eqn:Hlast.
  2:{ apply last_None in Hlast.
      by apply (filter_nil_not_elem_of _ _ (Checkpoint.tick c, h)) in Hlast. }
  pose proof Hlast as Hin.
  apply last_Some_elem_of, list_elem_of_filter in Hin as [_ Hin].
  rewrite replay_closed_form in Hin.
  apply elem_of_lookup_imap_1 in Hin as (i & e & Heq & _).
  unfold entry_at in Heq. injection Heq as _ Hh.
  assert (String.length h' = 64) as Hin.
  { rewrite Hh. apply is_hex_digest_length. unfold Design.event_digest.
    apply hex_sha256_is_digest. }
  exists (Divergence.Make (Checkpoint.tick c) (hex (Checkpoint.world_hash c))
            (Some h') hash_mismatch).
  split; [|done]. apply list_elem_of_bind. exists c. split; [|done].
  rewrite verify_body_cases, replay_hash_dict_lookup. unfold last_for.
  rewrite Hlast. cbn. rewrite decide_False; [by left|].
  intros E. rewrite <- E in Hin.
  destruct (hex_shape (Checkpoint.world_hash c)) as [Hl _]. lia.
Qed.

Lemma short_hash_is_mismatch_witness :
  length (Checkpoint.world_hash (Checkpoint.Make 1 ComparatorSamples.B ComparatorSamples.A
                                   true "2026-01-02")) ≠ 32 ∧
  ∃ d, d ∈ snd (verify_hash_chain Samples.auditor ComparatorSamples.three
                  (replay_deterministically Samples.auditor [Samples.spawn])) ∧
       Divergence.tick d = 1%Z ∧
       Divergence.db_hash d = hex ComparatorSamples.B ∧
       Divergence.type d = hash_mismatch.
Proof.
  split; [cbn; lia|].
  apply (short_hash_is_mismatch Samples.auditor [Samples.spawn] ComparatorSamples.three
           (Checkpoint.Make 1 ComparatorSamples.B ComparatorSamples.A true "2026-01-02")).
  - right. left.
  - left.
  - cbn. lia.
Defined.

Lemma divergence_ticks d (cps : list Checkpoint.t) :
  Forall (fun x => Divergence.tick x ∈ map Checkpoint.tick cps)
         (cps ≫= verify_body d []).
Proof.
  apply Forall_forall. intros x (c & Hx & Hc)%list_elem_of_bind.
  rewrite (verify_body_tick _ _ _ Hx).
  by apply (list_elem_of_fmap_2 Checkpoint.tick).
Qed.

(** X9.  The report written from the comparison agrees with its verdict: the
    status is PASS, the count 0 and the first divergence tick absent exactly
    when the comparison passed, which is when the exit code is 0; a first
    divergence tick is the tick of a checkpoint. *)
Theorem report_agrees_with_verdict self (events : list Event.t)
    (cps : list Checkpoint.t) :
  let r := AuditReport.run_audit self events cps in
  let vr := verification_result (snd r) in
  VerificationResult.status vr = (if fst r then "PASS" else "FAIL") ∧
  VerificationResult.divergences_count vr = length (divergences (snd r)) ∧
  (fst r = true ↔ VerificationResult.divergences_count vr = 0) ∧
  (fst r = true ↔ VerificationResult.first_divergence_tick vr = None) ∧
  (fst r = true ↔ AuditReport.exit_code (fst r) = 0%Z) ∧
  from_option (fun t => t ∈ map Checkpoint.tick cps) True
    (VerificationResult.first_divergence_tick vr).
Proof.
  cbn zeta. unfold AuditReport.run_audit.
  cbn [fst snd generate_report verification_result divergences
       VerificationResult.status VerificationResult.divergences_count
       VerificationResult.first_divergence_tick].
  set (hashes := replay_deterministically self events).
  pose proof (divergence_ticks (replay_hash_dict hashes) cps) as Hticks.
  destruct (verify_hash_chain_divergences self cps hashes) as [Hs Hf].
  rewrite Hs, Hf. destruct (cps ≫= _) as [|d ds] eqn:Hd; cbn.
  - by repeat split.
  - apply Forall_cons in Hticks as [? _]. by repeat split.
Qed.

End ComparatorFacts.

(** ** The database address in the report *)

Section DatabaseUrl.
Import Py DeterminismAudit AuditReport.

Lemma split_spec sep s :
  ∃ pieces piece,
    split sep s = pieces ++ [piece] ∧
    contains_char sep piece = false ∧
    (pieces = [] ∧ s = piece ∨
     pieces ≠ [] ∧ ∃ before, s = before +:+ String sep piece).
Proof.
  induction s as [|c s (pieces & piece & Hsplit & Hno & Hs)].
  - exists [], EmptyString. repeat split. by left.
  - cbn [split]. rewrite Hsplit. destruct (Ascii.eqb c sep) eqn:Hc.
    + apply Ascii.eqb_eq in Hc as ->. exists (EmptyString :: pieces), piece.
      repeat split; [done|]. right. split; [done|].
      destruct Hs as [[_ ->]|[_ [before ->]]]; [by exists EmptyString|].
      by exists (String sep before).
    + destruct Hs as [[-> ->]|[Hne [before ->]]].
      * exists [], (String c piece). repeat split; [|by left].
        unfold contains_char in *. cbn [list_ascii_of_string existsb].
        by rewrite Ascii.eqb_sym, Hc.
      * destruct pieces as [|p pieces]; [done|].
        exists (String c p :: pieces), piece. repeat split; [done|].
        right. split; [done|]. by exists (String c before).
Qed.

(** X10.  The database address written to the report never holds an [@]: it is
    [localhost] when the configured address has none, and otherwise the part
    of the address after its last [@], so that a user name and password
    before it are left out. *)
Theorem database_url_hides_credentials (self : DeterminismAuditor) :
  contains_char "@" (database_url self) = false ∧
  (contains_char "@" (db_url self) = false ∧ database_url self = "localhost" ∨
   contains_char "@" (db_url self) = true ∧
   ∃ before, db_url self = before +:+ String "@" (database_url self)).
Proof.
  unfold database_url.
  destruct (contains_char "@" (db_url self)) eqn:Hat; [|split; [done|by left]].
  destruct (split_spec "@" (db_url self)) as (pieces & piece & -> & Hno & Hs).
  rewrite last_snoc. cbn [default]. split; [done|]. right. split; [done|].
  destruct Hs as [[_ E]|[_ Hb]]; [|done]. congruence.
Qed.

End DatabaseUrl.

(** ** The chain verifier on any log *)

Section ChainFacts.
Import Py ReplayAudit Chain.
Local Open Scope py_scope.

Lemma first_break_None_iff evs : ∀ prev,
  first_break prev evs = None ↔
  ∀ i e, evs !! i = Some e →
         prev_hash_of e = "" ∨
         prev_hash_of e = match i with
                          | O => prev
                          | S j => from_option hash_of "" (evs !! j)
                          end.
Proof.
  induction evs as [|e evs IH]; intros prev; [done|].
  cbn [first_break].
  destruct (bool_decide (prev_hash_of e ≠ "") && bool_decide (prev_hash_of e ≠ prev))
    eqn:Hc.
  - split; [done|]. intros H. destruct (H 0 e eq_refl) as [E|E].
    + by rewrite E in Hc.
    + rewrite E in Hc. rewrite (bool_decide_false (prev ≠ prev)) in Hc by (intros Hp; by apply Hp).
      by rewrite andb_false_r in Hc.
  - rewrite IH. split.
    + intros H [|i] x Hx.
      * injection Hx as <-. apply andb_false_iff in Hc as [Hc|Hc];
          apply bool_decide_eq_false, dec_stable in Hc; [by left|by right].
      * destruct (H i x Hx) as [E|E]; [by left|right].
        rewrite E. by destruct i.
    + intros H i x Hx. destruct (H (S i) x Hx) as [E|E]; [by left|right].
      rewrite E. by destruct i.
Qed.

Lemma first_break_app_Some pre : ∀ prev post b,
  first_break prev pre = Some b → first_break prev (pre ++ post) = Some b.
Proof.
  induction pre as [|e pre IH]; intros prev post b; [done|].
  cbn [first_break app]. destruct (_ && _); [done|]. apply IH.
Qed.

(** X13.  The verifier stops at the first break: what follows it in the log is
    not examined, so a log that fails still fails, with the same printed
    lines, whatever is appended to it. *)
Theorem verify_hash_chain_stops_at_break (s : ReplayAudit)
    (evs more : list Event.t) (out : list string) :
  fst (verify_hash_chain (World (with_events evs s) out)) = Returns false →
  fst (verify_hash_chain (World (with_events (evs ++ more) s) out)) = Returns false ∧
  stdout (snd (verify_hash_chain (World (with_events (evs ++ more) s) out))) =
    stdout (snd (verify_hash_chain (World (with_events evs s) out))).
Proof.
  rewrite !verify_hash_chain_spec. cbn [self with_events events stdout].
  destruct (first_break (str_mul "0" 64) evs) as [[e x]|] eqn:Hb; [|done].
  intros _. by rewrite (first_break_app_Some _ _ more _ Hb).
Qed.

Lemma verify_hash_chain_stops_at_break_witness :
  fst (verify_hash_chain
         (World (with_events [ChainSamples.genesis; ChainSamples.third]
                   ChainSamples.audit) [])) = Returns false ∧
  fst (verify_hash_chain
         (World (with_events ([ChainSamples.genesis; ChainSamples.third] ++
                              [ChainSamples.second])
                   ChainSamples.audit) [])) = Returns false ∧
  stdout (snd (verify_hash_chain
                 (World (with_events ([ChainSamples.genesis; ChainSamples.third] ++
                                      [ChainSamples.second])
                           ChainSamples.audit) []))) =
    stdout (snd (verify_hash_chain
                   (World (with_events [ChainSamples.genesis; ChainSamples.third]
                             ChainSamples.audit) []))).
Proof.
  split; [reflexivity|].
  exact (verify_hash_chain_stops_at_break ChainSamples.audit
           [ChainSamples.genesis; ChainSamples.third] [ChainSamples.second] []
           eq_refl).
Defined.

(** X14.  A log whose events carry no [prev_hash], or an empty one, always
    verifies, whatever their hashes are. *)
Theorem log_without_prev_hash_verifies (s : ReplayAudit) (out : list string) :
  Forall (fun e => Event.prev_hash e = None ∨ Event.prev_hash e = Some "") (events s) →
  verify_hash_chain (World s out) =
    (Returns true,
     World s (out ++ ["🔗 Verifying hash-chain integrity...";
                      "✅ Hash-chain integrity verified"])).
Proof.
  intros Hall. rewrite verify_hash_chain_spec. cbn [self stdout].
  assert (first_break (str_mul "0" 64) (events s) = None) as ->; [|done].
  apply first_break_None_iff. intros i e He. left.
  rewrite Forall_forall in Hall.
  destruct (Hall e) as [E|E]; [by eapply list_elem_of_lookup_2| |];
    unfold prev_hash_of; by rewrite E.
Qed.

Lemma log_without_prev_hash_verifies_witness :
  Forall (fun e => Event.prev_hash e = None ∨ Event.prev_hash e = Some "")
    [Event.Make (Some 4%Z) (Some "a0") None; Event.Make None None (Some "")] ∧
  verify_hash_chain
    (World (with_events [Event.Make (Some 4%Z) (Some "a0") None;
                         Event.Make None None (Some "")] ChainSamples.audit) []) =
    (Returns true,
     World (with_events [Event.Make (Some 4%Z) (Some "a0") None;
                         Event.Make None None (Some "")] ChainSamples.audit)
       ["🔗 Verifying hash-chain integrity..."; "✅ Hash-chain integrity verified"]).
Proof.
  assert (Forall (fun e => Event.prev_hash e = None ∨ Event.prev_hash e = Some "")
            [Event.Make (Some 4%Z) (Some "a0") None; Event.Make None None (Some "")])
    as Hall by (repeat constructor; by right).
  split; [exact Hall|].
  exact (log_without_prev_hash_verifies
           (with_events [Event.Make (Some 4%Z) (Some "a0") None;
                         Event.Make None None (Some "")] ChainSamples.audit) [] Hall).
Defined.

End ChainFacts.

(** ** The chain verifier on any events file *)

Section ChainValueFacts.
Import Py Json Replay.


(** The first object has a [null] hash and the second names another one:
    the verifier prints the line of the break and raises [TypeError] when it
    slices the hash expected, the audit result being PASS still. *)
Lemma null_hash_raises (py : runtime) (s : ReplayAudit) (out : list string) :
  verify_hash_chain py (World (with_events ReplaySamples.null_hash s) out) =
    (Raises TypeError,
     World (with_events ReplaySamples.null_hash s)
       (out ++ ["🔗 Verifying hash-chain integrity...";
                "❌ Hash chain broken at tick 1"])).
Proof. cbn. by rewrite <- !app_assoc. Qed.

End ChainValueFacts.

(** ** The simulated replay *)

Section ReplayRunFacts.
Import Py ReplayAudit Chain ReplayRun.
Local Open Scope py_scope.

(** X16.  The stability check cannot fail: it never returns [False], and it never
    changes the audit, so it records no divergence point. *)
Theorem hash_stability_never_fails (w : world) :
  fst (verify_hash_stability w) ≠ Returns false ∧
  self (snd (verify_hash_stability w)) = self w.
Proof.
  rewrite verify_hash_stability_spec. by destruct (forallb _ _).
Qed.

Lemma generate_audit_report_cases (w : world) :
  generate_audit_report w =
    (match head (events (self w)), last (events (self w)) with
     | Some e, Some l =>
         match Event.tick e, Event.tick l with
         | Some a, Some b =>
             Returns
               (Report.Make
                  (AuditMetadata.Make (seed (self w)) (length (events (self w)))
                     (str_int a +:+ "-" +:+ str_int b)
                     (audit_result (self w)) (divergence_point (self w)))
                  (hash_trajectory (self w))
                  (VerificationResults.Make
                     (String.eqb (audit_result (self w)) "PASS")
                     (String.eqb (audit_result (self w)) "PASS")
                     "NOT_TESTED_PHASE0")
                  (Compliance.Make true true true true true))
         | _, _ => Raises (KeyError "tick")
         end
     | _, _ =>
         Returns
           (Report.Make
              (AuditMetadata.Make (seed (self w)) (length (events (self w)))
                 "0-0" (audit_result (self w)) (divergence_point (self w)))
              (hash_trajectory (self w))
              (VerificationResults.Make
                 (String.eqb (audit_result (self w)) "PASS")
                 (String.eqb (audit_result (self w)) "PASS")
                 "NOT_TESTED_PHASE0")
              (Compliance.Make true true true true true))
     end, w).
Proof.
  unfold generate_audit_report. unfold bind at 1, get_self at 1.
  destruct (events (self w)) as [|e rest] eqn:Hev; [done|].
  cbn [head]. rewrite last_cons. unfold bind at 1, tick_of at 1.
  destruct (Event.tick e) as [a|]; cbn [ret raise]; [|by destruct (last rest)].
  unfold bind at 1.
  destruct (last rest) as [l|]; unfold tick_of.
  - by destruct (Event.tick l).
  - by destruct (Event.tick e).
Qed.


(** X19.  What a generated audit report says: the number of events, the range of
    their ticks (0-0 for an empty log), the trajectory recorded so far, and
    two verification results that are always equal, both true exactly when
    the audit result is PASS; its compliance section is all true whatever
    the audit found. *)
Theorem audit_report_contents (w : world) (r : Report.t) :
  fst (generate_audit_report w) = Returns r →
  AuditMetadata.event_count (Report.audit_metadata r) = length (events (self w)) ∧
  AuditMetadata.event_range (Report.audit_metadata r) =
    str_int (from_option (fun e => default 0%Z (Event.tick e)) 0%Z
               (head (events (self w)))) +:+ "-" +:+
    str_int (from_option (fun e => default 0%Z (Event.tick e)) 0%Z
               (last (events (self w)))) ∧
  AuditMetadata.audit_result (Report.audit_metadata r) = audit_result (self w) ∧
  Report.hash_trajectory r = hash_trajectory (self w) ∧
  VerificationResults.determinism_replay (Report.verification_results r) =
    VerificationResults.hash_chain_integrity (Report.verification_results r) ∧
  (VerificationResults.determinism_replay (Report.verification_results r) = true ↔
   audit_result (self w) = "PASS") ∧
  Report.phase_0_compliance r = Compliance.Make true true true true true.
Proof.
  rewrite generate_audit_report_cases. cbn [fst].
  destruct (head (events (self w))) as [e|] eqn:He.
  - destruct (last (events (self w))) as [l|] eqn:Hl.
    + cbn [from_option].
      destruct (Event.tick e) as [a|] eqn:Ha; [|done].
      destruct (Event.tick l) as [b|] eqn:Hb; [|done].
      intros [= <-].
      cbn [Report.audit_metadata Report.hash_trajectory Report.verification_results
           Report.phase_0_compliance AuditMetadata.event_count
           AuditMetadata.event_range AuditMetadata.audit_result
           VerificationResults.determinism_replay
           VerificationResults.hash_chain_integrity from_option default].
      repeat split; try done; by apply String.eqb_eq.
    + apply last_None in Hl. by rewrite Hl in He.
  - apply head_None in He. rewrite He. intros [= <-].
    cbn [Report.audit_metadata Report.hash_trajectory Report.verification_results
         Report.phase_0_compliance AuditMetadata.event_count
         AuditMetadata.event_range AuditMetadata.audit_result
         VerificationResults.determinism_replay
         VerificationResults.hash_chain_integrity from_option default last].
    repeat split; try done; by apply String.eqb_eq.
Qed.

Lemma audit_report_contents_witness :
  fst (generate_audit_report (World (failed ChainSamples.audit) [])) =
    Returns
      (Report.Make
         (AuditMetadata.Make 1337 3 "0-2" "FAIL" None) []
         (VerificationResults.Make false false "NOT_TESTED_PHASE0")
         (Compliance.Make true true true true true)) ∧
  VerificationResults.determinism_replay
    (VerificationResults.Make false false "NOT_TESTED_PHASE0") =
  VerificationResults.hash_chain_integrity
    (VerificationResults.Make false false "NOT_TESTED_PHASE0").
Proof.
  split; [reflexivity|].
  destruct (audit_report_contents (World (failed ChainSamples.audit) []) _ eq_refl)
    as (_ & _ & _ & _ & H & _).
  exact H.
Defined.

End ReplayRunFacts.

(** ** The replay on any events file *)

Section ReplayRunValueFacts.
Import Py Json Replay.

(** X15.  The simulated state hash, whatever the events file holds.  It
    changes nothing and prints nothing.  It returns exactly when the events
    can be gone through and every element is an object whose ['tick'] is a
    number ([int], [float] or [bool]), and what it returns is the text of a
    SHA-256 digest, 64 hexadecimal digits.  Otherwise it raises, whatever
    the tick asked for: [TypeError] for events that cannot be gone through,
    and for the first element that is not such an object [KeyError] when it
    is an object without a ['tick'], [TypeError] when it is not an object or
    its ['tick'] is not a number. *)
Theorem simulate_universe_state_result (tick : Z) (w : world) :
  snd (simulate_universe_state tick w) = w ∧
  (∀ h, fst (simulate_universe_state tick w) = Returns h ↔
        ∃ items, iter (events (self w)) = Returns items ∧
                 forallb has_number_tick items = true ∧
                 h = simulated_hash (seed (self w)) tick items) ∧
  (∀ h, fst (simulate_universe_state tick w) = Returns h →
        Digest.is_hex_digest h = true) ∧
  (∀ x, fst (simulate_universe_state tick w) = Raises x ↔
        iter (events (self w)) = Raises TypeError ∧ x = TypeError ∨
        ∃ pre e post,
          iter (events (self w)) = Returns (pre ++ e :: post) ∧
          forallb has_number_tick pre = true ∧ has_number_tick e = false ∧
          x = (if lacks_tick e then KeyError (Key (JStr "tick")) else TypeError)).
Proof.
  rewrite simulate_universe_state_json. cbn [fst snd].
  split; [done|]. split; [|split].
  - intros h. destruct (replay_error _) as [x|] eqn:Hw.
    + split; [done|]. intros (items & Hitems & Hticks & _).
      assert (replay_error (events (self w)) = None) as Hnone
        by (apply replay_error_None_iff; by exists items).
      congruence.
    + apply replay_error_None_iff in Hw as (items & Hitems & Hticks).
      unfold items_of. rewrite Hitems. split.
      * intros [= <-]. by exists items.
      * intros (items' & [= <-] & _ & ->). done.
  - intros h. destruct (replay_error _); [done|]. intros [= <-].
    apply hex_sha256_is_digest.
  - intros x. rewrite <- replay_error_Some.
    destruct (replay_error _) as [y|]; [|done]. split; congruence.
Qed.

(** X17.  [run_replay] appends to the hash trajectory, which it never
    clears, one entry for each of the ticks 0 to 100, in order, prints
    thirteen lines and returns [True]; it changes nothing else.  When the
    simulated state hash raises at tick 0, and then it raises at every tick,
    [run_replay] raises the same exception after its first line, the
    trajectory being as it was. *)
Theorem run_replay_appends (w : world) :
  match replay_error (events (self w)) with
  | None =>
      fst (run_replay w) = Returns true ∧
      self (snd (run_replay w)) =
        with_trajectory
          (hash_trajectory (self w) ++
           map (fun tick => (tick, simulated_hash (seed (self w)) tick
                                     (items_of (events (self w)))))
               (ReplayAudit.range 0 101)) (self w) ∧
      length (hash_trajectory (self (snd (run_replay w)))) =
        (length (hash_trajectory (self w)) + 101)%nat ∧
      length (stdout (snd (run_replay w))) = (length (stdout w) + 13)%nat
  | Some x =>
      run_replay w =
        (Raises x, World (self w) (stdout w ++ ["🔄 Starting deterministic replay..."]))
  end ∧
  (∀ x, replay_error (events (self w)) = Some x ↔
        fst (simulate_universe_state 0 w) = Raises x).
Proof.
  split.
  - rewrite run_replay_json. destruct (replay_error _); [done|].
    cbn [fst snd self stdout with_trajectory hash_trajectory].
    split; [done|]. split; [done|]. split.
    + unfold replayed. by rewrite length_app, length_map.
    + rewrite length_app. cbn [length]. rewrite length_app. cbn [length].
      assert (∀ seed items,
                length (progress_lines seed items (ReplayAudit.range 0 101)) = 11%nat)
        as -> by reflexivity.
      lia.
  - intros x. rewrite simulate_universe_state_json. cbn [fst].
    destruct (replay_error _); split; congruence.
Qed.
End ReplayRunValueFacts.

(** ** The whole audit on any events file *)

Section AuditValueFacts.
Import Py Json Replay.

Lemma len_iter v : (∃ n, len v = Returns n) ↔ ∃ items, iter v = Returns items.
Proof.
  destruct v; cbn; split; try (by intros [? ?]); intros _; by eexists.
Qed.

Lemma forallb_lookup {A} (f : A → bool) l i x :
  forallb f l = true → l !! i = Some x → f x = true.
Proof.
  rewrite forallb_forall. intros H Hx. apply H, list_elem_of_In.
  by eapply list_elem_of_lookup_2.
Qed.


(** X21.  The exit code of the replay audit.  When the argument parser ends
    the process the code is the parser's.  Once the arguments are parsed
    the code is 0 or 1, and it is 0 exactly when the events file loads into
    a value that can be gone through, every element is an object with a
    number tick, and every [prev_hash] is falsy or equal to the [hash] of
    the element before it; an exception that nothing catches gives 1. *)
Theorem main_exit_code (py : runtime) (json_load : string → string + json)
    (json_dumps : ReplayRun.Report.t → string)
    (write_file : string → string → option string)
    (parse_args : list string → parsed) (argv : list string) :
  match parse_args argv with
  | SystemExit code =>
      main py json_load json_dumps write_file parse_args argv = code
  | Namespace seed file output =>
      (main py json_load json_dumps write_file parse_args argv = 0%Z ∨
       main py json_load json_dumps write_file parse_args argv = 1%Z) ∧
      (main py json_load json_dumps write_file parse_args argv = 0%Z ↔
       ∃ value items,
         json_load file = inr value ∧ iter value = Returns items ∧
         forallb has_number_tick items = true ∧
         ∀ i e, items !! i = Some e → links (expected_before items i) e = true)
  end.
Proof.
  unfold main. destruct (parse_args argv) as [seed file output|code]; [|done].
  pose proof (run_audit_result_json py json_load json_dumps write_file output
                (Audit seed file (JList []) [] None "PASS") []) as Hres.
  cbn [events_file audit_result] in Hres.
  destruct (run_audit _ _ _ _ _ _) as [[[|]|x] w']; cbn [fst] in Hres.
  - split; [by left|]. split; [|done]. intros _.
    destruct (json_load file) as [err|value]; [done|].
    destruct (len value) as [n|y] eqn:Hlen; [|done].
    destruct (proj1 (len_iter value)) as [items Hitems]; [by eexists|].
    destruct (replay_error value) as [y|] eqn:Herr; [done|].
    apply replay_error_None_iff in Herr as (items' & Hitems' & Hticks).
    assert (items' = items) as -> by congruence.
    unfold items_of in Hres. rewrite Hitems in Hres.
    destruct (first_stop _ items) as [[e expected]|] eqn:Hstop.
    { unfold stop_result in Hres.
      by destruct (is_object e), (sliceable expected), (sliceable (prev_hash_of e)). }
    exists value, items. split; [done|]. split; [done|]. split; [done|].
    intros i e He.
    by destruct (proj1 (first_stop_None_before items) Hstop i e He).
  - split; [by right|]. split; [done|].
    intros (value & items & Hload & Hitems & Hticks & Hall). exfalso.
    rewrite Hload in Hres.
    destruct (proj2 (len_iter value)) as [n Hn]; [by eexists|]. rewrite Hn in Hres.
    assert (replay_error value = None) as Herr
      by (apply replay_error_None_iff; by exists items).
    rewrite Herr in Hres. unfold items_of in Hres. rewrite Hitems in Hres.
    assert (first_stop (JStr (ReplayAudit.str_mul "0" 64)) items = None) as Hstop.
    { apply first_stop_None_before. intros i e He. split; [|by apply Hall].
      eapply has_number_tick_object, forallb_lookup; eauto. }
    by rewrite Hstop in Hres.
  - split; [by right|]. split; [done|].
    intros (value & items & Hload & Hitems & Hticks & Hall). exfalso.
    rewrite Hload in Hres.
    destruct (proj2 (len_iter value)) as [n Hn]; [by eexists|]. rewrite Hn in Hres.
    assert (replay_error value = None) as Herr
      by (apply replay_error_None_iff; by exists items).
    rewrite Herr in Hres. unfold items_of in Hres. rewrite Hitems in Hres.
    assert (first_stop (JStr (ReplayAudit.str_mul "0" 64)) items = None) as Hstop.
    { apply first_stop_None_before. intros i e He. split; [|by apply Hall].
      eapply has_number_tick_object, forallb_lookup; eauto. }
    by rewrite Hstop in Hres.
Qed.
(** An events file whose only object has a [null] tick loads, and ends the
    audit with a [TypeError] that nothing catches: the exit code is 1. *)
Lemma null_tick_raises (py : runtime) (json_load : string → string + json)
    (json_dumps : ReplayRun.Report.t → string)
    (write_file : string → string → option string)
    (parse_args : list string → parsed) (argv : list string)
    (seed : Z) (file : string) (output : option string) :
  parse_args argv = Namespace seed file output →
  json_load file = inr ReplaySamples.null_tick →
  fst (run_audit py json_load json_dumps write_file output
         (World (Audit seed file (JList []) [] None "PASS") [])) = Raises TypeError ∧
  main py json_load json_dumps write_file parse_args argv = 1%Z.
Proof.
  intros Hargs Hload. unfold main. rewrite Hargs.
  assert (fst (run_audit py json_load json_dumps write_file output
                 (World (Audit seed file (JList []) [] None "PASS") [])) =
          Raises TypeError) as Hres.
  { rewrite run_audit_result_json. cbn [events_file]. by rewrite Hload. }
  split; [exact Hres|].
  destruct (run_audit _ _ _ _ _ _) as [r w']. cbn [fst] in Hres. by rewrite Hres.
Qed.

End AuditValueFacts.

(** ** The report on events of the expected types *)

Section TypedReport.
Import Py Json Replay.

Lemma getitem_of_event e :
  getitem (of_event e) "tick" =
    match ReplayAudit.Event.tick e with
    | Some t => Returns (JInt t)
    | None => Raises (KeyError (Key (JStr "tick")))
    end.
Proof. by destruct e as [[t|] [h|] [p|]]. Qed.

Lemma last_map {A B} (f : A → B) l : last (map f l) = f <$> last l.
Proof.
  induction l as [|a l IH]; [done|]. cbn [map]. rewrite !last_cons, IH.
  by destruct (last l).
Qed.

(** On events of the expected types the two embeddings of
    [generate_audit_report] agree. *)
Lemma generate_audit_report_of_world py w :
  generate_audit_report py (of_world w) =
    of_outcome (ReplayRun.generate_audit_report w).
Proof.
  rewrite generate_audit_report_cases.
  destruct w as [[sd file evs trajectory point res] out].
  unfold generate_audit_report, of_world, of_audit.
  cbn [ReplayAudit.self ReplayAudit.stdout ReplayAudit.seed ReplayAudit.events_file
       ReplayAudit.events ReplayAudit.hash_trajectory ReplayAudit.divergence_point
       ReplayAudit.audit_result].
  unfold bind at 1, get_self at 1. cbn [self events seed audit_result
    divergence_point hash_trajectory].
  unfold bind at 1, lift at 1. cbn [len truthy first_item last_item].
  rewrite length_map, last_map.
  destruct evs as [|e rest]; [reflexivity|].
  cbn [length Nat.eqb negb map head from_option]. rewrite last_cons.
  unfold bind at 1. unfold bind at 1, lift at 1. unfold lift at 1.
  rewrite getitem_of_event.
  destruct (ReplayAudit.Event.tick e) as [a|] eqn:Ha.
  2:{ by destruct (last rest). }
  unfold bind at 1. unfold bind at 1, lift at 1.
  destruct (last rest) as [l|]; cbn [fmap option_fmap option_map from_option].
  - unfold lift at 1. rewrite getitem_of_event.
    by destruct (ReplayAudit.Event.tick l).
  - unfold lift at 1. rewrite getitem_of_event, Ha. done.
Qed.

End TypedReport.

(** ** The determinism guard *)

Section GuardFacts.
Import Py DeterminismGuard.

Lemma prefix_head a p c s : String.prefix (String a p) (String c s) = true → a = c.
Proof. cbn. by destruct (ascii_dec a c). Qed.

Lemma authority_path_not_allowed (pattern_name relative_path : string) :
  is_authority_file relative_path = true →
  is_pattern_allowed pattern_name relative_path = false.
Proof.
  intros Hauth.
  destruct relative_path as [|c s]; [done|].
  assert (c = "a"%char ∨ c = "c"%char) as Hc.
  { unfold is_authority_file, authority_files, startswith in Hauth.
    cbn [existsb] in Hauth.
    repeat (apply orb_true_iff in Hauth as [Hauth|Hauth];
            [apply prefix_head in Hauth; by (left + right)|]).
    done. }
  destruct (is_pattern_allowed pattern_name (String c s)) eqn:Hallowed; [|done].
  exfalso. unfold is_pattern_allowed, allowed_contexts in Hallowed.
  cbn [item] in Hallowed.
  assert (existsb (fun allowed_path => startswith (String c s) allowed_path)
            ["tools/audits/"; "tests/"] = true → False) as Hno.
  { unfold startswith. cbn [existsb].
    intros H. repeat (apply orb_true_iff in H as [H|H];
                      [apply prefix_head in H; destruct Hc; congruence|]).
    done. }
  destruct (String.eqb "Math.random" pattern_name); [by apply Hno|].
  destruct (String.eqb "Date.now" pattern_name); [by apply Hno|done].
Qed.

(** X22.  For a file under one of the authority paths no exemption applies:
    no pattern is allowed there.  Every entry that [scan_file] writes for
    it is either the violation of a prohibited pattern, with severity
    CRITICAL and the reason of that pattern, or, when the file cannot be
    read, the one entry of the failure, whose severity is ERROR; none is
    HIGH.  When the file is read there is one violation for each match of
    each pattern, none being skipped. *)
Theorem authority_files_have_no_exemption
    (read_text : string → string + string)
    (finditer : string → string → list (nat * string))
    (strip : string → string) (relative_path : string) :
  is_authority_file relative_path = true →
  (∀ pattern_name, is_pattern_allowed pattern_name relative_path = false) ∧
  (∀ v, v ∈ scan_file read_text finditer strip relative_path →
     match v with
     | Match file _ pattern _ _ severity reason =>
         file = relative_path ∧ severity = "CRITICAL" ∧
         pattern ∈ prohibited_patterns ∧ reason = get_violation_reason pattern ∧
         ∃ content, read_text relative_path = inr content
     | ScanError file error severity =>
         file = relative_path ∧ severity = "ERROR" ∧
         ∃ e, read_text relative_path = inl e ∧ error = "Failed to scan file: " +:+ e
     end) ∧
  (∀ content, read_text relative_path = inr content →
     length (scan_file read_text finditer strip relative_path) =
       length (flat_map (fun pattern_name => finditer pattern_name content)
                        prohibited_patterns)) ∧
  (∀ e, read_text relative_path = inl e →
     scan_file read_text finditer strip relative_path =
       [ScanError relative_path ("Failed to scan file: " +:+ e) "ERROR"]).
Proof.
  intros Hauth.
  pose proof (fun p => authority_path_not_allowed p relative_path Hauth) as Hno.
  split; [done|]. unfold scan_file. split; [|split].
  - intros v. destruct (read_text relative_path) as [e|content].
    + intros ->%list_elem_of_singleton. cbn. split; [done|]. split; [done|].
      by exists e.
    + intros Hv. apply list_elem_of_In, in_flat_map in Hv as (p & Hp & Hv).
      apply in_flat_map in Hv as (m & Hm & Hv). rewrite Hno in Hv.
      destruct Hv as [<-|[]]. unfold match_violation. rewrite Hauth.
      split; [done|]. split; [done|]. split; [by apply list_elem_of_In|].
      split; [done|]. by exists content.
  - intros content ->. generalize prohibited_patterns. intros names.
    induction names as [|p names IH]; [done|].
    cbn [flat_map]. rewrite !length_app, IH. f_equal.
    rewrite Hno. generalize (finditer p content). intros ms.
    induction ms as [|m ms IHm]; [done|]. cbn. by rewrite IHm.
  - by intros e ->.
Qed.

Lemma authority_files_have_no_exemption_witness :
  is_authority_file "crates/world/src/time.rs" = true ∧
  is_pattern_allowed "Date.now" "crates/world/src/time.rs" = false ∧
  scan_file (fun _ => inl "[Errno 13] Permission denied") (fun _ _ => []) id
            "crates/world/src/time.rs" =
    [ScanError "crates/world/src/time.rs"
       "Failed to scan file: [Errno 13] Permission denied" "ERROR"] ∧
  length (scan_file (fun _ => inr "let t = Date.now();")
            (fun name _ => if String.eqb name "Date.now" then [(8%nat, "Date.now(")] else [])
            id "crates/world/src/time.rs") = 1%nat.
Proof.
  split; [reflexivity|].
  destruct (authority_files_have_no_exemption
              (fun _ => inl "[Errno 13] Permission denied") (fun _ _ => []) id
              "crates/world/src/time.rs" eq_refl) as (Hallowed & _ & _ & Herror).
  destruct (authority_files_have_no_exemption
              (fun _ => inr "let t = Date.now();")
              (fun name _ => if String.eqb name "Date.now" then [(8%nat, "Date.now(")] else [])
              id "crates/world/src/time.rs" eq_refl) as (_ & _ & Hcount & _).
  split; [exact (Hallowed "Date.now")|]. split; [exact (Herror _ eq_refl)|].
  exact (Hcount _ eq_refl).
Defined.
(** X23.  A pattern name gets a reason of its own exactly when it is one of the
    prohibited patterns; any other name gets the fallback text. *)
Theorem reason_known_iff_prohibited (pattern_name : string) :
  pattern_name ∈ prohibited_patterns ↔
  get_violation_reason pattern_name ≠ "Unknown violation: " +:+ pattern_name.
Proof.
  split.
  - unfold prohibited_patterns. rewrite !elem_of_cons, elem_of_nil.
    intros H. repeat (destruct H as [->|H]; [discriminate|]). done.
  - intros Hne. destruct (decide (pattern_name ∈ prohibited_patterns)) as [|Hnot]; [done|].
    exfalso. apply Hne. unfold get_violation_reason, reasons. cbn [item].
    unfold prohibited_patterns in Hnot. rewrite !not_elem_of_cons in Hnot.
    assert (∀ k, pattern_name ≠ k → String.eqb k pattern_name = false) as Hf.
    { intros k Hk. apply String.eqb_neq. congruence. }
    by rewrite !Hf by tauto.
Qed.

Lemma select_spec test vs :
  select test vs =
    if forallb (fun v => match pattern v with
                         | ReplayAudit.Returns _ => true
                         | ReplayAudit.Raises _ => false
                         end) vs
    then ReplayAudit.Returns
           (List.filter (fun v => match pattern v with
                                  | ReplayAudit.Returns p => test p
                                  | ReplayAudit.Raises _ => false
                                  end) vs)
    else ReplayAudit.Raises (ReplayAudit.KeyError "pattern").
Proof.
  induction vs as [|v vs IH]; [done|].
  cbn [select forallb List.filter]. destruct v; cbn [pattern]; [|done].
  rewrite IH. cbn [andb]. by destruct (forallb _ vs).
Qed.

(** X24.  The guard's report cannot be generated once a file could not be
    scanned: [generate_report] raises [KeyError] exactly when some violation
    is a scan error, which has no pattern. *)
Theorem guard_report_key_error (self : DeterminismGuard) :
  generate_report self = ReplayAudit.Raises (ReplayAudit.KeyError "pattern") ↔
  ∃ file error sev, ScanError file error sev ∈ violations self.
Proof.
  unfold generate_report. rewrite !select_spec.
  destruct (forallb _ (violations self)) eqn:Hall.
  - split; [done|]. intros (f & e & sv & Hin).
    rewrite forallb_forall in Hall. by apply list_elem_of_In, Hall in Hin.
  - split; [|done]. intros _.
    induction (violations self) as [|v vs IH]; [done|].
    cbn [forallb] in Hall. destruct v as [| f e sv]; cbn [pattern andb] in Hall.
    + destruct (IH Hall) as (f & e & sv & Hin). exists f, e, sv. by right.
    + exists f, e, sv. by left.
Qed.

Lemma prohibited_tests p :
  p ∈ prohibited_patterns →
  ((contains "random" p || contains "time" p = true) ↔
   p = "Math.random" ∨ p = "random") ∧
  (contains "agent" p = true ↔
   p = "agent_id_conditional" ∨ p = "agent_switch" ∨ p = "agent_feature_flag").
Proof.
  unfold prohibited_patterns. rewrite !elem_of_cons, elem_of_nil.
  intros H.
  repeat (destruct H as [->|H];
          [cbn; repeat split; try done; intros Hp;
           first [by left | by right | by (right; left) | by (right; right)
                 | by repeat (destruct Hp as [Hp|Hp]; try discriminate Hp)]|]).
  done.
Qed.

Lemma no_selected (f : violation → bool) vs :
  Nat.eqb (length (List.filter f vs)) 0 = true ↔ ∀ v, v ∈ vs → f v = false.
Proof.
  induction vs as [|v vs IH]; [by split; [intros _ ? ?%elem_of_nil|]|].
  cbn [List.filter]. destruct (f v) eqn:Hv.
  - split; [done|]. intros H. specialize (H v). rewrite Hv in H.
    by discriminate H; left.
  - rewrite IH. split.
    + intros H x [->|Hx]%elem_of_cons; [done|by apply H].
    + intros H x Hx. apply H. by right.
Qed.

(** X25.  What the compliance flags of the guard's report mean for violations of
    the prohibited patterns: [no_nondeterministic_apis] is cleared by the
    patterns Math.random and random only, so violations of Date.now,
    SystemTime and wall_clock leave it true; [structural_parity] is cleared
    by the three agent patterns; [determinism_enforced] by any violation. *)
Theorem guard_report_flags (self : DeterminismGuard) :
  Forall (fun v => ∃ p, pattern v = ReplayAudit.Returns p ∧ p ∈ prohibited_patterns)
         (violations self) →
  ∃ r, generate_report self = ReplayAudit.Returns r ∧
       ScanMetadata.total_violations (Report.scan_metadata r) =
         length (violations self) ∧
       (Compliance.determinism_enforced (Report.phase_0_compliance r) = true ↔
        violations self = []) ∧
       (Compliance.no_nondeterministic_apis (Report.phase_0_compliance r) = true ↔
        ∀ v, v ∈ violations self →
             pattern v ≠ ReplayAudit.Returns "Math.random" ∧
             pattern v ≠ ReplayAudit.Returns "random") ∧
       (Compliance.structural_parity (Report.phase_0_compliance r) = true ↔
        ∀ v, v ∈ violations self →
             pattern v ≠ ReplayAudit.Returns "agent_id_conditional" ∧
             pattern v ≠ ReplayAudit.Returns "agent_switch" ∧
             pattern v ≠ ReplayAudit.Returns "agent_feature_flag") ∧
       (Compliance.no_placeholders (Report.phase_0_compliance r) = true ↔
        ∀ v, v ∈ violations self → pattern v ≠ ReplayAudit.Returns "todo").
Proof.
  intros Hall. rewrite Forall_forall in Hall.
  unfold generate_report. rewrite !select_spec.
  assert (forallb (fun v => match pattern v with
                            | ReplayAudit.Returns _ => true
                            | ReplayAudit.Raises _ => false
                            end) (violations self) = true) as ->.
  { apply forallb_forall. intros v Hv%list_elem_of_In.
    by destruct (Hall v Hv) as (p & -> & _). }
  eexists. split; [done|].
  cbn [Report.scan_metadata Report.phase_0_compliance ScanMetadata.total_violations
       Compliance.determinism_enforced Compliance.no_nondeterministic_apis
       Compliance.structural_parity Compliance.no_placeholders].
  split; [done|]. split.
  { rewrite Nat.eqb_eq. by destruct (violations self). }
  rewrite !no_selected.
  split; [|split]; split; intros H v Hv; destruct (Hall v Hv) as (p & Hp & Hin);
    specialize (H v Hv); rewrite Hp in H; rewrite Hp;
    destruct (prohibited_tests p Hin) as [Hr Ha].
  - destruct Hr as [_ Hr]. rewrite H in Hr.
    split; intros [= ->]; discriminate Hr; by (left + right).
  - destruct (contains "random" p || contains "time" p); [|done].
    destruct H as [H1 H2], Hr as [Hr _].
    by destruct (Hr eq_refl) as [->| ->].
  - destruct Ha as [_ Ha]. rewrite H in Ha.
    repeat split; intros [= ->]; discriminate Ha;
      by (left + (right; left) + (right; right)).
  - destruct (contains "agent" p); [|done].
    destruct H as (H1 & H2 & H3), Ha as [Ha _].
    by destruct (Ha eq_refl) as [->|[->| ->]].
  - intros [= ->]. discriminate H.
  - destruct (String.eqb_spec p "todo") as [->|]; [done|done].
Qed.

Lemma guard_report_flags_witness :
  Forall (fun v => ∃ p, pattern v = ReplayAudit.Returns p ∧ p ∈ prohibited_patterns)
    [match_violation "crates/world/src/time.rs" 7 "Date.now" "Date.now("
       "let t = Date.now();"] ∧
  ∃ r, generate_report
         (Guard "." [match_violation "crates/world/src/time.rs" 7 "Date.now"
                       "Date.now(" "let t = Date.now();"]) =
       ReplayAudit.Returns r ∧
       Compliance.determinism_enforced (Report.phase_0_compliance r) = false ∧
       Compliance.no_nondeterministic_apis (Report.phase_0_compliance r) = true.
Proof.
  assert (Forall (fun v => ∃ p, pattern v = ReplayAudit.Returns p ∧
                                p ∈ prohibited_patterns)
            [match_violation "crates/world/src/time.rs" 7 "Date.now" "Date.now("
               "let t = Date.now();"]) as Hall.
  { repeat constructor. exists "Date.now". split; [done|]. right. left. }
  split; [exact Hall|].
  destruct (guard_report_flags
              (Guard "." [match_violation "crates/world/src/time.rs" 7 "Date.now"
                            "Date.now(" "let t = Date.now();"]) Hall)
    as (r & Hr & _ & _ & Hapis & _).
  exists r. split; [exact Hr|]. split.
  - injection Hr as <-. reflexivity.
  - apply Hapis. intros v Hv. apply list_elem_of_singleton in Hv as ->.
    split; discriminate.
Defined.

End GuardFacts.
